(** * local-llm-chat: the NDJSON -> SSE streaming bridge

    A shallow embedding of [src/app/api/chat/route.ts] (the relay, [POST])
    and of the chat page ([Home], [handleSubmit], [handleStop]), together
    with the platform functions they call: [TextEncoder], [TextDecoder],
    [String.prototype.split], [trim], [startsWith], [slice], [JSON.parse]
    and [JSON.stringify].

    Bytes and UTF-16 code units are integers ([Z]); a JavaScript string is
    the list of its code units. *)

From Stdlib Require Import ZArith List String Ascii Bool Lia.
Import ListNotations.
Local Open Scope Z_scope.

(* ================================================================== *)
(** * Unicode: UTF-8 and UTF-16 as the platform encoders see them      *)
(* ================================================================== *)

Module Unicode.

(** A JavaScript string: its UTF-16 code units, each in [0, 65535]. *)
Definition jsstring := list Z.

(** A chunk read from a stream ([Uint8Array]): bytes in [0, 255]. *)
Definition bytes := list Z.

Definition in_range (lo hi x : Z) : bool := (lo <=? x) && (x <=? hi).

Definition is_lead (c : Z) : bool := in_range 0xD800 0xDBFF c.
Definition is_trail (c : Z) : bool := in_range 0xDC00 0xDFFF c.

(** ** The UTF-8 decoder of the Encoding standard

    Its state is kept between the bytes of one chunk and, because the
    page and the relay call [decode] with [{ stream: true }], between
    chunks. *)
Record Utf8Decoder := mkUtf8 {
  code_point : Z;
  bytes_seen : Z;
  bytes_needed : Z;
  lower_boundary : Z;
  upper_boundary : Z
}.

Definition utf8_init : Utf8Decoder := mkUtf8 0 0 0 0x80 0xBF.

Inductive HandlerResult :=
| Continue
| CodePoint (cp : Z)
| DecodeError
| DecodeErrorRestore. (* error, and the byte is put back on the queue *)

Definition utf8_handler (d : Utf8Decoder) (b : Z)
  : Utf8Decoder * HandlerResult :=
  if bytes_needed d =? 0 then
    if in_range 0x00 0x7F b then (d, CodePoint b)
    else if in_range 0xC2 0xDF b then
      (mkUtf8 (Z.land b 0x1F) (bytes_seen d) 1
              (lower_boundary d) (upper_boundary d), Continue)
    else if in_range 0xE0 0xEF b then
      let lo := if b =? 0xE0 then 0xA0 else lower_boundary d in
      let hi := if b =? 0xED then 0x9F else upper_boundary d in
      (mkUtf8 (Z.land b 0xF) (bytes_seen d) 2 lo hi, Continue)
    else if in_range 0xF0 0xF4 b then
      let lo := if b =? 0xF0 then 0x90 else lower_boundary d in
      let hi := if b =? 0xF4 then 0x8F else upper_boundary d in
      (mkUtf8 (Z.land b 0x7) (bytes_seen d) 3 lo hi, Continue)
    else (d, DecodeError)
  else if negb (in_range (lower_boundary d) (upper_boundary d) b) then
    (utf8_init, DecodeErrorRestore)
  else
    let cp := Z.lor (Z.shiftl (code_point d) 6) (Z.land b 0x3F) in
    let seen := bytes_seen d + 1 in
    if negb (seen =? bytes_needed d) then
      (mkUtf8 cp seen (bytes_needed d) 0x80 0xBF, Continue)
    else (utf8_init, CodePoint cp).

(** One byte of the queue: the code points it makes the decoder emit
    (an error emits U+FFFD, the decoder is not fatal). *)
Definition utf8_step (d : Utf8Decoder) (b : Z) : Utf8Decoder * list Z :=
  match utf8_handler d b with
  | (d', Continue) => (d', [])
  | (d', CodePoint cp) => (d', [cp])
  | (d', DecodeError) => (d', [0xFFFD])
  | (d', DecodeErrorRestore) =>
      match utf8_handler d' b with
      | (d'', Continue) => (d'', [0xFFFD])
      | (d'', CodePoint cp) => (d'', [0xFFFD; cp])
      | (d'', _) => (d'', [0xFFFD; 0xFFFD])
      end
  end.

Fixpoint utf8_run (d : Utf8Decoder) (bs : bytes) : Utf8Decoder * list Z :=
  match bs with
  | [] => (d, [])
  | b :: rest =>
      let '(d1, out1) := utf8_step d b in
      let '(d2, out2) := utf8_run d1 rest in
      (d2, out1 ++ out2)
  end.

(** A code point as UTF-16 code units. *)
Definition code_units (cp : Z) : jsstring :=
  if cp <? 0x10000 then [cp]
  else [0xD800 + Z.shiftr (cp - 0x10000) 10;
        0xDC00 + Z.land (cp - 0x10000) 0x3FF].

(** ** [TextDecoder] (utf-8, not fatal, [ignoreBOM] false) *)
Record TextDecoder := mkDecoder {
  decoder : Utf8Decoder;
  bom_seen : bool
}.

(** [new TextDecoder()] *)
Definition new_TextDecoder : TextDecoder := mkDecoder utf8_init false.

(** The first code point of the whole stream is dropped when it is the
    byte order mark. *)
Definition strip_bom (seen : bool) (cps : list Z) : bool * list Z :=
  match cps with
  | [] => (seen, [])
  | cp :: rest =>
      if seen then (true, cps)
      else if cp =? 0xFEFF then (true, rest) else (true, cps)
  end.

(** [decoder.decode(value, { stream: true })]: nothing is flushed, an
    incomplete byte sequence at the end of [value] stays in the state. *)
Definition decode_stream (td : TextDecoder) (value : bytes)
  : TextDecoder * jsstring :=
  let '(d, cps) := utf8_run (decoder td) value in
  let '(seen, cps') := strip_bom (bom_seen td) cps in
  (mkDecoder d seen, flat_map code_units cps').

(** ** [TextEncoder] *)

(** The scalar values of a string: a surrogate that is not part of a
    pair becomes U+FFFD. *)
Fixpoint scalar_values (s : jsstring) : list Z :=
  match s with
  | [] => []
  | c :: rest =>
      if is_lead c then
        match rest with
        | d :: rest' =>
            if is_trail d
            then (0x10000 + Z.shiftl (c - 0xD800) 10 + (d - 0xDC00))
                   :: scalar_values rest'
            else 0xFFFD :: scalar_values rest
        | [] => [0xFFFD]
        end
      else if is_trail c then 0xFFFD :: scalar_values rest
      else c :: scalar_values rest
  end.

(** The UTF-8 encoder of the Encoding standard, one code point. *)
Definition utf8_encode (cp : Z) : bytes :=
  if in_range 0x00 0x7F cp then [cp]
  else if in_range 0x80 0x7FF cp then
    [Z.shiftr cp 6 + 0xC0;
     Z.lor 0x80 (Z.land cp 0x3F)]
  else if in_range 0x800 0xFFFF cp then
    [Z.shiftr cp 12 + 0xE0;
     Z.lor 0x80 (Z.land (Z.shiftr cp 6) 0x3F);
     Z.lor 0x80 (Z.land cp 0x3F)]
  else
    [Z.shiftr cp 18 + 0xF0;
     Z.lor 0x80 (Z.land (Z.shiftr cp 12) 0x3F);
     Z.lor 0x80 (Z.land (Z.shiftr cp 6) 0x3F);
     Z.lor 0x80 (Z.land cp 0x3F)].

(** [encoder.encode(s)] *)
Definition encode (s : jsstring) : bytes :=
  flat_map utf8_encode (scalar_values s).

(** A string literal of the source, as the string it denotes: the
    source file is UTF-8. *)
Definition bytes_of_string (s : string) : bytes :=
  map (fun a => Z.of_N (N_of_ascii a)) (list_ascii_of_string s).

Definition js (s : string) : jsstring :=
  snd (decode_stream (mkDecoder utf8_init true) (bytes_of_string s)).

End Unicode.

Import Unicode.

(* ================================================================== *)
(** * String.prototype                                                 *)
(* ================================================================== *)

Module Str.

(** [a === b] on strings *)
Fixpoint eqb (a b : jsstring) : bool :=
  match a, b with
  | [], [] => true
  | x :: a', y :: b' => (x =? y) && eqb a' b'
  | _, _ => false
  end.

(** [s.startsWith(p)] *)
Fixpoint startsWith (s p : jsstring) : bool :=
  match p, s with
  | [], _ => true
  | y :: p', x :: s' => (x =? y) && startsWith s' p'
  | _ :: _, [] => false
  end.

(** [s.slice(n)] for [0 <= n] *)
Definition slice (n : nat) (s : jsstring) : jsstring := skipn n s.

(** [s.split("\n")]: always at least one segment. *)
Fixpoint split_lines (s : jsstring) : list jsstring :=
  match s with
  | [] => [[]]
  | c :: rest =>
      if c =? 10 then [] :: split_lines rest
      else match split_lines rest with
           | seg :: segs => (c :: seg) :: segs
           | [] => [[c]]
           end
  end.

(** WhiteSpace and LineTerminator of ECMAScript, what [trim] removes. *)
Definition is_space (c : Z) : bool :=
  in_range 0x09 0x0D c || (c =? 0x20) || (c =? 0xA0) || (c =? 0x1680)
  || in_range 0x2000 0x200A c || (c =? 0x2028) || (c =? 0x2029)
  || (c =? 0x202F) || (c =? 0x205F) || (c =? 0x3000) || (c =? 0xFEFF).

Fixpoint trimStart (s : jsstring) : jsstring :=
  match s with
  | [] => []
  | c :: rest => if is_space c then trimStart rest else s
  end.

Definition trimEnd (s : jsstring) : jsstring := rev (trimStart (rev s)).

(** [s.trim()] *)
Definition trim (s : jsstring) : jsstring := trimEnd (trimStart s).

(** [!s]: the empty string is the only falsy string *)
Definition is_empty (s : jsstring) : bool :=
  match s with [] => true | _ => false end.

End Str.

(* ================================================================== *)
(** * JSON                                                             *)
(* ================================================================== *)

(** The Number type.  JSON number lexemes denote IEEE 754 binary64
    values; rounding is outside this development, so the four operations
    the bridge needs are an interface and every result below holds for
    each of its implementations. *)
Class Float64 := {
  number : Type;
  (** the value of a JSON number lexeme *)
  number_of_literal : jsstring -> number;
  (** [+0] or [-0] (a lexeme never denotes NaN) *)
  number_is_zero : number -> bool;
  (** [1e999] denotes [Infinity] *)
  number_is_finite : number -> bool;
  (** Number::toString, radix 10 *)
  number_to_string : number -> jsstring
}.

Module Json.

(** What [JSON.parse] returns. *)
#[local] Set Warnings "-register-all".
Inductive JSValue {F : Float64} :=
| JNull
| JBool (b : bool)
| JNumber (n : number)
| JString (s : jsstring)
| JArray (elements : list JSValue)
| JObject (properties : list (jsstring * JSValue)).

(** The outcome of a parsing function: a value and the text left, a
    [SyntaxError], or the recursion budget used up. *)
Inductive Parsed (A : Type) :=
| Ok (a : A) (rest : jsstring)
| SyntaxError
| OutOfFuel.
Arguments Ok {A} a rest.
Arguments SyntaxError {A}.
Arguments OutOfFuel {A}.

Definition bind {A B} (p : Parsed A) (k : A -> jsstring -> Parsed B)
  : Parsed B :=
  match p with
  | Ok a rest => k a rest
  | SyntaxError => SyntaxError
  | OutOfFuel => OutOfFuel
  end.

(** ** Lexical level *)

(** JSON white space: tab, line feed, carriage return, space. *)
Definition is_json_ws (c : Z) : bool :=
  (c =? 9) || (c =? 10) || (c =? 13) || (c =? 32).

Fixpoint skip_ws (s : jsstring) : jsstring :=
  match s with
  | [] => []
  | c :: rest => if is_json_ws c then skip_ws rest else s
  end.

Definition is_digit (c : Z) : bool := in_range 48 57 c.

Definition hex_value (c : Z) : option Z :=
  if in_range 48 57 c then Some (c - 48)
  else if in_range 97 102 c then Some (c - 87)
  else if in_range 65 70 c then Some (c - 55)
  else None.

Definition prepend (c : Z) (r : option (jsstring * jsstring))
  : option (jsstring * jsstring) :=
  match r with
  | Some (str, rest) => Some (c :: str, rest)
  | None => None
  end.

Definition hex4 (h1 h2 h3 h4 : Z) : option Z :=
  match hex_value h1, hex_value h2, hex_value h3, hex_value h4 with
  | Some a, Some b, Some c, Some d => Some (((a * 16 + b) * 16 + c) * 16 + d)
  | _, _, _, _ => None
  end.

(** The characters of a string literal after its opening quote, up to
    and including the closing quote. *)
Fixpoint parse_string_chars (s : jsstring) : option (jsstring * jsstring) :=
  match s with
  | [] => None
  | c :: r =>
      if c =? 34 then Some ([], r)
      else if c =? 92 then
        match r with
        | [] => None
        | e :: r' =>
            if e =? 34 then prepend 34 (parse_string_chars r')
            else if e =? 92 then prepend 92 (parse_string_chars r')
            else if e =? 47 then prepend 47 (parse_string_chars r')
            else if e =? 98 then prepend 8 (parse_string_chars r')
            else if e =? 102 then prepend 12 (parse_string_chars r')
            else if e =? 110 then prepend 10 (parse_string_chars r')
            else if e =? 114 then prepend 13 (parse_string_chars r')
            else if e =? 116 then prepend 9 (parse_string_chars r')
            else if e =? 117 then
              match r' with
              | h1 :: h2 :: h3 :: h4 :: r'' =>
                  match hex4 h1 h2 h3 h4 with
                  | Some u => prepend u (parse_string_chars r'')
                  | None => None
                  end
              | _ => None
              end
            else None
        end
      else if c <? 0x20 then None
      else prepend c (parse_string_chars r)
  end.

Fixpoint take_digits (s : jsstring) : jsstring * jsstring :=
  match s with
  | [] => ([], [])
  | c :: r =>
      if is_digit c
      then let '(ds, rest) := take_digits r in (c :: ds, rest)
      else ([], s)
  end.

(** A number lexeme: an optional minus sign, an integer part without a
    leading zero (or a single zero), an optional fraction and an optional
    exponent. *)
Definition lex_int (s : jsstring) : option (jsstring * jsstring) :=
  match s with
  | [] => None
  | c :: r =>
      if c =? 48 then Some ([48], r)
      else if in_range 49 57 c
      then let '(ds, rest) := take_digits r in Some (c :: ds, rest)
      else None
  end.

Definition lex_frac (s : jsstring) : option (jsstring * jsstring) :=
  match s with
  | [] => Some ([], s)
  | c :: r =>
      if c =? 46 then
        match take_digits r with
        | ([], _) => None
        | (ds, rest) => Some (c :: ds, rest)
        end
      else Some ([], s)
  end.

Definition lex_exp (s : jsstring) : option (jsstring * jsstring) :=
  match s with
  | [] => Some ([], s)
  | e :: r =>
      if (e =? 101) || (e =? 69) then
        let '(sign, r1) :=
          match r with
          | c :: r' => if (c =? 43) || (c =? 45) then ([c], r') else ([], r)
          | [] => ([], r)
          end in
        match take_digits r1 with
        | ([], _) => None
        | (ds, rest) => Some (e :: sign ++ ds, rest)
        end
      else Some ([], s)
  end.

Definition lex_number (s : jsstring) : option (jsstring * jsstring) :=
  let '(sign, s1) :=
    match s with
    | c :: r => if c =? 45 then ([c], r) else ([], s)
    | [] => ([], s)
    end in
  match lex_int s1 with
  | None => None
  | Some (int, s2) =>
      match lex_frac s2 with
      | None => None
      | Some (frac, s3) =>
          match lex_exp s3 with
          | None => None
          | Some (exp, s4) => Some (sign ++ int ++ frac ++ exp, s4)
          end
      end
  end.

(** ** Objects: own property keys in the order [OrdinaryOwnPropertyKeys]
    lists them (array indices ascending, then the other keys in the
    order they were created) *)

Definition digits_value (k : jsstring) : Z :=
  fold_left (fun n c => 10 * n + (c - 48)) k 0.

Definition array_index (k : jsstring) : option Z :=
  match k with
  | [] => None
  | c :: rest =>
      if (c =? 48) && Str.is_empty rest then Some 0
      else if in_range 49 57 c && forallb is_digit rest
              && (digits_value k <=? 4294967294)
      then Some (digits_value k)
      else None
  end.

Definition precedes (a b : option Z) : bool :=
  match a, b with
  | Some i, Some j => i <? j
  | Some _, None => true
  | None, _ => false
  end.

Section Values.
Context {F : Float64}.

(** [CreateDataProperty(obj, k, v)] on the listed properties. *)
Fixpoint obj_set (k : jsstring) (v : JSValue)
         (props : list (jsstring * JSValue)) : list (jsstring * JSValue) :=
  match props with
  | [] => [(k, v)]
  | (k', v') :: rest =>
      if Str.eqb k k' then (k', v) :: rest
      else if precedes (array_index k) (array_index k')
      then (k, v) :: props
      else (k', v') :: obj_set k v rest
  end.

Definition make_object (members : list (jsstring * JSValue)) : JSValue :=
  JObject (fold_left (fun props m => obj_set (fst m) (snd m) props)
                     members []).

(** ** [JSON.parse] *)

Definition literal (word : jsstring) (v : JSValue) (s : jsstring)
  : Parsed JSValue :=
  if Str.startsWith s word
  then Ok v (skipn (List.length word) s)
  else SyntaxError.

Fixpoint parse_value (fuel : nat) (s : jsstring) {struct fuel}
  : Parsed JSValue :=
  match fuel with
  | O => OutOfFuel
  | S f =>
      match skip_ws s with
      | [] => SyntaxError
      | c :: r =>
          if c =? 123 then (* { *)
            let members :=
              bind (parse_members f r)
                   (fun ms rest => Ok (make_object ms) rest) in
            match skip_ws r with
            | c' :: r' => if c' =? 125 then Ok (JObject []) r' else members
            | [] => members
            end
          else if c =? 91 then (* [ *)
            let elements :=
              bind (parse_elements f r)
                   (fun vs rest => Ok (JArray vs) rest) in
            match skip_ws r with
            | c' :: r' => if c' =? 93 then Ok (JArray []) r' else elements
            | [] => elements
            end
          else if c =? 34 then
            match parse_string_chars r with
            | Some (str, rest) => Ok (JString str) rest
            | None => SyntaxError
            end
          else if c =? 116 then literal (js "true") (JBool true) (c :: r)
          else if c =? 102 then literal (js "false") (JBool false) (c :: r)
          else if c =? 110 then literal (js "null") JNull (c :: r)
          else
            match lex_number (c :: r) with
            | Some (lexeme, rest) =>
                Ok (JNumber (number_of_literal lexeme)) rest
            | None => SyntaxError
            end
      end
  end

(** after [[] or [,]: a value, then [,] and more, or []] *)
with parse_elements (fuel : nat) (s : jsstring) {struct fuel}
  : Parsed (list JSValue) :=
  match fuel with
  | O => OutOfFuel
  | S f =>
      bind (parse_value f s) (fun v r =>
        match skip_ws r with
        | c :: r' =>
            if c =? 44 then
              bind (parse_elements f r')
                   (fun vs rest => Ok (v :: vs) rest)
            else if c =? 93 then Ok [v] r'
            else SyntaxError
        | [] => SyntaxError
        end)
  end

(** after [{] or [,]: a member, then [,] and more, or [}] *)
with parse_members (fuel : nat) (s : jsstring) {struct fuel}
  : Parsed (list (jsstring * JSValue)) :=
  match fuel with
  | O => OutOfFuel
  | S f =>
      match skip_ws s with
      | [] => SyntaxError
      | q :: r =>
          if negb (q =? 34) then SyntaxError
          else
            match parse_string_chars r with
            | None => SyntaxError
            | Some (key, r1) =>
                match skip_ws r1 with
                | [] => SyntaxError
                | colon :: r2 =>
                    if negb (colon =? 58) then SyntaxError
                    else
                      bind (parse_value f r2) (fun v r3 =>
                        match skip_ws r3 with
                        | c :: r4 =>
                            if c =? 44 then
                              bind (parse_members f r4)
                                   (fun ms rest => Ok ((key, v) :: ms) rest)
                            else if c =? 125 then Ok [(key, v)] r4
                            else SyntaxError
                        | [] => SyntaxError
                        end)
                end
            end
      end
  end.

(** Every call to a parsing function follows at least one consumed
    character or is the first; twice the length of the text, and two,
    is budget enough (lemma [JSON_parse_never_out_of_fuel]). *)
Definition fuel_for (text : jsstring) : nat := 2 * List.length text + 2.

(** [JSON.parse(text)]: [None] when it throws a [SyntaxError]. *)
Definition JSON_parse (text : jsstring) : option JSValue :=
  match parse_value (fuel_for text) text with
  | Ok v rest => if Str.is_empty (skip_ws rest) then Some v else None
  | _ => None
  end.

(** ** [JSON.stringify] *)

Definition hex_digit (n : Z) : Z := if n <? 10 then 48 + n else 87 + n.

(** [UnicodeEscape]: backslash, [u], four lower-case hex digits *)
Definition unicode_escape (c : Z) : jsstring :=
  [92; 117; hex_digit (c / 4096); hex_digit (c / 256 mod 16);
   hex_digit (c / 16 mod 16); hex_digit (c mod 16)].

Fixpoint quote_chars (s : jsstring) : jsstring :=
  match s with
  | [] => []
  | c :: rest =>
      if c =? 8 then 92 :: 98 :: quote_chars rest
      else if c =? 9 then 92 :: 116 :: quote_chars rest
      else if c =? 10 then 92 :: 110 :: quote_chars rest
      else if c =? 12 then 92 :: 102 :: quote_chars rest
      else if c =? 13 then 92 :: 114 :: quote_chars rest
      else if c =? 34 then 92 :: 34 :: quote_chars rest
      else if c =? 92 then 92 :: 92 :: quote_chars rest
      else if c <? 0x20 then unicode_escape c ++ quote_chars rest
      else if is_lead c then
        match rest with
        | d :: rest' =>
            if is_trail d then c :: d :: quote_chars rest'
            else unicode_escape c ++ quote_chars rest
        | [] => unicode_escape c
        end
      else if is_trail c then unicode_escape c ++ quote_chars rest
      else c :: quote_chars rest
  end.

(** [QuoteJSONString] *)
Definition quote (s : jsstring) : jsstring :=
  34 :: quote_chars s ++ [34].

Fixpoint join_comma (parts : list jsstring) : jsstring :=
  match parts with
  | [] => []
  | [p] => p
  | p :: rest => p ++ 44 :: join_comma rest
  end.

(** [JSON.stringify(v)] for a value that came out of [JSON.parse]. *)
Fixpoint stringify (v : JSValue) : jsstring :=
  match v with
  | JNull => js "null"
  | JBool true => js "true"
  | JBool false => js "false"
  | JNumber n =>
      if number_is_finite n then number_to_string n else js "null"
  | JString s => quote s
  | JArray vs => 91 :: join_comma (map stringify vs) ++ [93]
  | JObject ps =>
      123 :: join_comma
               (map (fun kv => quote (fst kv) ++ 58 :: stringify (snd kv))
                    ps) ++ [125]
  end.

(** An object literal [{ k1: e1, k2: e2 }] whose keys are distinct and
    not array indices; an [undefined] value keeps its property. *)
Definition ObjectLiteral := list (jsstring * option JSValue).

(** [JSON.stringify] of an object literal: properties whose value is
    [undefined] are left out. *)
Definition stringify_literal (o : ObjectLiteral) : jsstring :=
  123 :: join_comma
           (flat_map (fun kv =>
                        match snd kv with
                        | Some v => [quote (fst kv) ++ 58 :: stringify v]
                        | None => []
                        end) o) ++ [125].

(** ** Values at run time *)

Fixpoint assoc (k : jsstring) (props : list (jsstring * JSValue))
  : option JSValue :=
  match props with
  | [] => None
  | (k', v) :: rest => if Str.eqb k k' then Some v else assoc k rest
  end.

(** [v.k] for [v] not [null] and [k] one of the names the bridge reads
    ([message], [thinking], [content], [done], [messages], [model]):
    no prototype and no string or array defines them, so only an own
    property of an object answers; [None] is [undefined]. *)
Definition Get (v : JSValue) (k : jsstring) : option JSValue :=
  match v with
  | JObject ps => assoc k ps
  | _ => None
  end.

(** ToBoolean *)
Definition truthy (v : option JSValue) : bool :=
  match v with
  | None => false
  | Some JNull => false
  | Some (JBool b) => b
  | Some (JNumber n) => negb (number_is_zero n)
  | Some (JString s) => negb (Str.is_empty s)
  | Some (JArray _) => true
  | Some (JObject _) => true
  end.

(** ToString of a parsed value, as string concatenation applies it:
    an array joins its elements with commas ([null] gives the empty
    string), an object answers [[object Object]] unless an own
    property named [toString], which is never callable here, shadows
    [Object.prototype.toString]: then a [TypeError] is thrown
    ([None]). *)
Fixpoint ToString (v : JSValue) : option jsstring :=
  match v with
  | JNull => Some (js "null")
  | JBool true => Some (js "true")
  | JBool false => Some (js "false")
  | JNumber n => Some (number_to_string n)
  | JString s => Some s
  | JArray vs =>
      (fix join (l : list JSValue) : option jsstring :=
         let element x :=
           match x with
           | JNull => Some []
           | _ => ToString x
           end in
         match l with
         | [] => Some []
         | [x] => element x
         | x :: rest =>
             match element x, join rest with
             | Some a, Some b => Some (a ++ 44 :: b)
             | _, _ => None
             end
         end) vs
  | JObject ps =>
      match assoc (js "toString") ps with
      | Some _ => None
      | None => Some (js "[object Object]")
      end
  end.

End Values.

End Json.

Import Json.

(** An implementation of the interface on which the definitions can be
    run: a number is its lexeme, zero when its mantissa has no digit but
    0, always finite, printed as it was written.  It stands in for
    binary64 only where no number occurs: none of the inputs run below
    holds one, and every theorem is proved for all implementations. *)
Definition lexeme_is_zero (lexeme : jsstring) : bool :=
  (fix mantissa (s : jsstring) : bool :=
     match s with
     | [] => true
     | c :: rest =>
         if (c =? 101) || (c =? 69) then true
         else negb (in_range 49 57 c) && mantissa rest
     end) lexeme.

#[export] Instance lexeme_numbers : Float64 := {
  number := jsstring;
  number_of_literal := fun lexeme => lexeme;
  number_is_zero := lexeme_is_zero;
  number_is_finite := fun _ => true;
  number_to_string := fun lexeme => lexeme
}.

(* ================================================================== *)
(** * The relay: [src/app/api/chat/route.ts]                           *)
(* ================================================================== *)

Module Route.

Definition OLLAMA_URL : jsstring := js "http://localhost:11434/api/chat".
Definition MODEL : jsstring := js "qwen3:14b".

(** The body of the backend's response, as the read loop sees it: the
    chunks [reader.read()] resolves with, then either [done] or a
    rejected read. *)
Record Upstream := {
  reads : list bytes;
  read_fails : bool
}.

(** The [ReadableStream] handed to the client once [start] has run. *)
Record Downstream := {
  enqueued : list bytes;       (* [controller.enqueue], in order *)
  closed : bool;               (* [controller.close()] *)
  lock_released : bool;        (* [reader.releaseLock()] *)
  start_rejected : bool        (* the exception left [start] *)
}.

Inductive ResponseBody :=
| JsonBody (text : jsstring)
| StreamBody (stream : Downstream).

Record Response := {
  status : Z;
  headers : list (jsstring * jsstring);
  body : ResponseBody
}.

(** [await request.json()] *)
Inductive RequestJson {F : Float64} :=
| JsonRejects
| JsonResolves (v : JSValue).

Record FetchInit := {
  fetch_url : jsstring;
  fetch_method : jsstring;
  fetch_headers : list (jsstring * jsstring);
  fetch_body : jsstring;
  fetch_cache : jsstring
}.

(** [await fetch(OLLAMA_URL, init)] *)
Inductive FetchResult :=
| FetchRejects
| FetchResolves (ok : bool) (body : option Upstream).

(** The result of a block that may throw. *)
Inductive Completion (A : Type) :=
| Returns (a : A)
| Throws.
Arguments Returns {A} a.
Arguments Throws {A}.

Section Relay.
Context {F : Float64}.

(** line 110: the template literal *)
Definition sseData (thinking content : option JSValue) : jsstring :=
  js "data: "
  ++ stringify_literal [(js "thinking", thinking); (js "content", content)]
  ++ [10; 10].

(** lines 100-120: the body of [for (const line of lines)]; what it
    enqueues.  A [SyntaxError] of [JSON.parse] and the [TypeError] of
    [json.message] on [null] end in the empty [catch]. *)
Definition relay_line (line : jsstring) : list bytes :=
  if Str.is_empty (Str.trim line) then []
  else
    match JSON_parse line with
    | None => []
    | Some JNull => []
    | Some json =>
        let message :=
          if truthy (Get json (js "message"))
          then match Get json (js "message") with
               | Some m => m
               | None => JObject []
               end
          else JObject [] in
        let thinking := Get message (js "thinking") in
        let content := Get message (js "content") in
        (if truthy thinking || truthy content
         then [encode (sseData thinking content)]
         else [])
        ++ (if truthy (Get json (js "done"))
            then [encode (js "data: [DONE]" ++ [10; 10])]
            else [])
    end.

(** lines 97-121: the decoded text of one chunk *)
Definition relay_text (text : jsstring) : list bytes :=
  flat_map relay_line (Str.split_lines text).

(** lines 93-121: one chunk *)
Definition relay_chunk (td : TextDecoder) (value : bytes)
  : TextDecoder * list bytes :=
  let '(td', text) := decode_stream td value in
  (td', relay_text text).

(** lines 92-122: the [while (true)] loop over the chunks read *)
Fixpoint relay_loop (td : TextDecoder) (chunks : list bytes) : list bytes :=
  match chunks with
  | [] => []
  | value :: rest =>
      let '(td', out) := relay_chunk td value in
      out ++ relay_loop td' rest
  end.

(** The frames of the stream: every [json] that line 103 binds, in
    order. *)
Definition line_frames (line : jsstring) : list JSValue :=
  if Str.is_empty (Str.trim line) then []
  else match JSON_parse line with
       | Some json => [json]
       | None => []
       end.

Fixpoint relay_frames (td : TextDecoder) (chunks : list bytes)
  : list JSValue :=
  match chunks with
  | [] => []
  | value :: rest =>
      let '(td', text) := decode_stream td value in
      flat_map line_frames (Str.split_lines text) ++ relay_frames td' rest
  end.

(** lines 85-127: [start(controller)] *)
Definition start (upstream : Upstream) : Downstream :=
  {| enqueued := relay_loop new_TextDecoder (reads upstream);
     closed := true;
     lock_released := true;
     start_rejected := read_fails upstream |}.

(** [Response.json(data, { status })] with [data = { error }] *)
Definition Response_json_error (error : jsstring) (st : Z) : Response :=
  {| status := st;
     headers := [(js "content-type", js "application/json")];
     body := JsonBody
               (stringify_literal [(js "error", Some (JString error))]) |}.

(** lines 71-76: what is sent to the backend; [model] defaults to
    [MODEL] when the request has none. *)
Definition ollama_init (v : JSValue) : FetchInit :=
  let messages := Get v (js "messages") in
  let model :=
    match Get v (js "model") with
    | None => Some (JString MODEL)
    | Some m => Some m
    end in
  {| fetch_url := OLLAMA_URL;
     fetch_method := js "POST";
     fetch_headers := [(js "Content-Type", js "application/json")];
     fetch_body :=
       stringify_literal [(js "model", model);
                          (js "messages", messages);
                          (js "stream", Some (JBool true))];
     fetch_cache := js "no-store" |}.

(** lines 67-137: the [try] block of [POST] *)
Definition POST_try (request_json : RequestJson)
           (fetch : FetchInit -> FetchResult) : Completion Response :=
  match request_json with
  | JsonRejects => Throws
  | JsonResolves JNull => Throws     (* destructuring [null] *)
  | JsonResolves v =>
      match fetch (ollama_init v) with
      | FetchRejects => Throws
      | FetchResolves ok upstream_body =>
          match ok, upstream_body with
          | true, Some upstream =>
              Returns
                {| status := 200;
                   headers :=
                     [(js "Content-Type", js "text/event-stream");
                      (js "Cache-Control", js "no-cache");
                      (js "Connection", js "keep-alive")];
                   body := StreamBody (start upstream) |}
          | _, _ =>
              Returns (Response_json_error (js "Ollama 连接失败") 500)
          end
      end
  end.

(** lines 65-142: [POST] *)
Definition POST (request_json : RequestJson)
           (fetch : FetchInit -> FetchResult) : Response :=
  match POST_try request_json fetch with
  | Returns response => response
  | Throws => Response_json_error (js "服务器内部错误") 500
  end.

End Relay.

End Route.

(* ================================================================== *)
(** * The chat page: [Home]                                            *)
(* ================================================================== *)

(** The page comes second in the listing under [src/app/api/chat/]; the
    line numbers below are those of the listing. *)

Module Page.

Inductive Role := user | assistant.

Record Message := {
  role : Role;
  content : jsstring;
  thinking : option jsstring
}.

(** The state of [Home]: the [useState] cells and [abortRef]
    ([true]: a controller is held). *)
Record Home := {
  messages : list Message;
  input : jsstring;
  isLoading : bool;
  abortRef : bool
}.

(** A value thrown into the [catch] of [handleSubmit]. *)
Record Thrown := {
  instanceof_Error : bool;
  name : jsstring
}.

(** What [new Error(...)] is. *)
Definition new_Error : Thrown :=
  {| instanceof_Error := true; name := js "Error" |}.

(** The [DOMException] an aborted [fetch] or [read] rejects with. *)
Definition AbortError : Thrown :=
  {| instanceof_Error := true; name := js "AbortError" |}.

(** Why an awaited promise rejected: the user pressed the stop button
    ([handleStop] ran, the signal aborts the request), or something
    else was thrown. *)
Inductive Rejection :=
| UserStop
| Rejects (e : Thrown).

(** The body of the relay's response: the chunks read, then how the
    reading ends. *)
Inductive Ending :=
| EndOfStream
| ReadRejects (r : Rejection).

Inductive FetchOutcome :=
| FetchRejects (r : Rejection)
| FetchResolves (ok : bool) (body : option (list bytes * Ending)).

(** What one [data:] line is to the read loop. *)
Inductive SseEvent {F : Float64} :=
| Sentinel
| Payload (json : JSValue)
| Malformed.

(** The locals of [handleSubmit] and what it has done so far. *)
Record Turn := {
  home : Home;
  content_var : jsstring;            (* [let content] *)
  thinking_var : jsstring;           (* [let thinking] *)
  text_decoder : TextDecoder;
  published : list (list Message);   (* what the updaters returned *)
  console : list Thrown              (* [console.error] *)
}.

Definition error_marker : jsstring := [10; 10] ++ js "[出错了，请重试]".

(** lines 216-220 *)
Definition handleStop (h : Home) : Home :=
  {| messages := messages h;
     input := input h;
     isLoading := false;
     abortRef := false |}.

Definition with_home (t : Turn) (h : Home) : Turn :=
  {| home := h;
     content_var := content_var t;
     thinking_var := thinking_var t;
     text_decoder := text_decoder t;
     published := published t;
     console := console t |}.

Definition with_decoder (t : Turn) (td : TextDecoder) : Turn :=
  {| home := home t;
     content_var := content_var t;
     thinking_var := thinking_var t;
     text_decoder := td;
     published := published t;
     console := console t |}.

(** [setMessages(update)], with the updater run at the call.  React
    runs an updater at a render after the call, and the updater of the
    read loop (lines 279-282) reads [content] and [thinking] when it
    runs: on the page a snapshot may hold later strings than the one
    listed here.  The two lets, [content_var] and [thinking_var], are
    assigned by the loop itself and do not depend on it. *)
Definition setMessages (update : list Message -> list Message) (t : Turn)
  : Turn :=
  let next := update (messages (home t)) in
  {| home := {| messages := next;
                input := input (home t);
                isLoading := isLoading (home t);
                abortRef := abortRef (home t) |};
     content_var := content_var t;
     thinking_var := thinking_var t;
     text_decoder := text_decoder t;
     published := published t ++ [next];
     console := console t |}.

(** lines 279-282: [[...prev.slice(0, -1), draft]] *)
Definition replace_last (draft : Message) (prev : list Message)
  : list Message :=
  removelast prev ++ [draft].

(** lines 292-295: the marker goes after the content of the last
    message.  On an empty [prev] the source would read [content] of
    [undefined]; [prev] holds the draft throughout a turn (lemma
    [turn_keeps_a_draft]). *)
Definition append_marker (prev : list Message) : list Message :=
  match rev prev with
  | [] => prev
  | last :: _ =>
      removelast prev
      ++ [{| role := role last;
             content := content last ++ error_marker;
             thinking := thinking last |}]
  end.

Section ReadLoop.
Context {F : Float64}.

(** lines 270-274: what a line that starts with [data:] carries *)
Definition decode_line (line : jsstring) : SseEvent :=
  let data := Str.trim (Str.slice 5 line) in
  if Str.eqb data (js "[DONE]") then Sentinel
  else match JSON_parse data with
       | Some json => Payload json
       | None => Malformed
       end.

(** [acc += v] when [v] is truthy; [None] when the concatenation
    throws. *)
Definition append_if_truthy (acc : jsstring) (v : option JSValue)
  : option jsstring :=
  if truthy v then
    match v with
    | Some x =>
        match ToString x with
        | Some s => Some (acc ++ s)
        | None => None
        end
    | None => Some acc
    end
  else Some acc.

(** lines 275-282.  [json.thinking] on [null] throws before anything
    is assigned; a throwing concatenation leaves what was assigned
    before it and skips [setMessages]. *)
Definition apply_payload (t : Turn) (json : JSValue) : Turn :=
  match json with
  | JNull => t
  | _ =>
      match append_if_truthy (thinking_var t)
                             (Get json (js "thinking")) with
      | None => t
      | Some thinking' =>
          let t1 := {| home := home t;
                       content_var := content_var t;
                       thinking_var := thinking';
                       text_decoder := text_decoder t;
                       published := published t;
                       console := console t |} in
          match append_if_truthy (content_var t)
                                 (Get json (js "content")) with
          | None => t1
          | Some content' =>
              setMessages
                (replace_last {| role := assistant;
                                 content := content';
                                 thinking := Some thinking' |})
                {| home := home t;
                   content_var := content';
                   thinking_var := thinking';
                   text_decoder := text_decoder t;
                   published := published t;
                   console := console t |}
          end
      end
  end.

(** lines 269-286: the body of [for (const line of lines)] *)
Definition handle_line (t : Turn) (line : jsstring) : Turn :=
  match decode_line line with
  | Sentinel => t
  | Malformed => t
  | Payload json => apply_payload t json
  end.

(** lines 264-267 *)
Definition data_lines (text : jsstring) : list jsstring :=
  filter (fun l => Str.startsWith l (js "data:")) (Str.split_lines text).

(** lines 264-286: the decoded text of one chunk *)
Definition handle_text (t : Turn) (text : jsstring) : Turn :=
  fold_left handle_line (data_lines text) t.

(** lines 260-286: one chunk *)
Definition handle_chunk (t : Turn) (value : bytes) : Turn :=
  let '(td', text) := decode_stream (text_decoder t) value in
  handle_text (with_decoder t td') text.

(** lines 259-287: the [while (true)] loop over the chunks read *)
Definition read_loop (t : Turn) (chunks : list bytes) : Turn :=
  fold_left handle_chunk chunks t.

(** The payloads of one chunk, in order: what [handle_text] applies. *)
Definition payloads (text : jsstring) : list JSValue :=
  flat_map (fun line =>
              match decode_line line with
              | Payload json => [json]
              | _ => []
              end) (data_lines text).

Fixpoint stream_payloads (td : TextDecoder) (chunks : list bytes)
  : list JSValue :=
  match chunks with
  | [] => []
  | value :: rest =>
      let '(td', text) := decode_stream td value in
      payloads text ++ stream_payloads td' rest
  end.

(** lines 288-296: the [catch] block *)
Definition catch (r : Rejection) (t : Turn) : Turn :=
  let '(e, t) :=
    match r with
    | UserStop => (AbortError, with_home t (handleStop (home t)))
    | Rejects e => (e, t)
    end in
  if instanceof_Error e && negb (Str.eqb (name e) (js "AbortError"))
  then
    let logged := {| home := home t;
                     content_var := content_var t;
                     thinking_var := thinking_var t;
                     text_decoder := text_decoder t;
                     published := published t;
                     console := console t ++ [e] |} in
    setMessages append_marker logged
  else t.

(** lines 297-300: the [finally] block *)
Definition finally (t : Turn) : Turn :=
  with_home t {| messages := messages (home t);
                 input := input (home t);
                 isLoading := false;
                 abortRef := false |}.

(** lines 245-247: the request body; [thinking] is not sent *)
Definition request_body (sent : list Message) : jsstring :=
  stringify_literal
    [(js "messages",
      Some (JArray
              (map (fun m =>
                      JObject
                        [(js "role",
                          JString (match role m with
                                   | user => js "user"
                                   | assistant => js "assistant"
                                   end));
                         (js "content", JString (content m))])
                   sent)))].

(** lines 228-229 *)
Definition newMessages (h : Home) : list Message :=
  messages h
  ++ [{| role := user; content := Str.trim (input h); thinking := None |}].

(** lines 232-238: up to the creation of the controller *)
Definition begin_turn (h : Home) : Turn :=
  let shown :=
    newMessages h
    ++ [{| role := assistant; content := []; thinking := None |}] in
  {| home := {| messages := shown;
                input := [];
                isLoading := true;
                abortRef := true |};
     content_var := [];
     thinking_var := [];
     text_decoder := new_TextDecoder;
     published := [shown];
     console := [] |}.

(** lines 240-287: the [try] block; the state it leaves and, when it
    throws, why. *)
Definition try_block (h : Home) (fetch : jsstring -> FetchOutcome)
  : Turn * option Rejection :=
  let t0 := begin_turn h in
  match fetch (request_body (newMessages h)) with
  | FetchRejects r => (t0, Some r)
  | FetchResolves ok body =>
      match ok, body with
      | true, Some (chunks, ending) =>
          let t1 := read_loop t0 chunks in
          match ending with
          | EndOfStream => (t1, None)
          | ReadRejects r => (t1, Some r)
          end
      | _, _ => (t0, Some (Rejects new_Error))
      end
  end.

(** lines 223-301: [handleSubmit]; a turn that the guard of line 225
    refuses changes nothing. *)
Definition handleSubmit (h : Home) (fetch : jsstring -> FetchOutcome)
  : Turn :=
  if Str.is_empty (Str.trim (input h)) || isLoading h then
    {| home := h; content_var := []; thinking_var := [];
       text_decoder := new_TextDecoder; published := []; console := [] |}
  else
    match try_block h fetch with
    | (t, None) => finally t
    | (t, Some r) => finally (catch r t)
    end.

End ReadLoop.

End Page.

(** Text with double quotes written as single ones, for the examples. *)
Definition jsq (s : string) : jsstring :=
  map (fun c => if c =? 39 then 34 else c) (js s).


(* ================================================================== *)
(** * Vocabulary of the properties                                     *)
(* ================================================================== *)

(** A chunk whose last byte is a line feed: the next chunk starts a line. *)
Definition ends_with_LF (chunk : bytes) : bool :=
  match rev chunk with
  | b :: _ => b =? 10
  | [] => false
  end.

(** Every chunk boundary falls right after a line feed. *)
Definition line_aligned (chunks : list bytes) : Prop :=
  Forall (fun c => ends_with_LF c = true) (removelast chunks).

(** The states the UTF-8 decoder reaches from [utf8_init]: a continuation
    byte is never expected below 0x80. *)
Definition decoder_ok (td : TextDecoder) : Prop :=
  0x80 <= lower_boundary (decoder td).

(** A text without line feed: one line of a chunk. *)
Definition single_line (s : jsstring) : bool :=
  forallb (fun c => negb (c =? 10)) s.

(** ** Inputs on which the definitions are run *)

Module Examples.

(** An empty page on which the user has typed [hi]. *)
Definition home0 : Page.Home :=
  {| Page.messages := [];
     Page.input := js "hi";
     Page.isLoading := false;
     Page.abortRef := false |}.

Definition turn0 : Page.Turn :=
  Page.begin_turn home0.

(** One NDJSON line of the backend, cut inside the [done] key. *)
Definition frame_head : bytes :=
  encode (jsq "{'message':{'content':'Hi'},'do").
Definition frame_tail : bytes :=
  encode (jsq "ne':false}") ++ [10].

(** Two whole NDJSON lines, one per chunk. *)
Definition frame_lines : list bytes :=
  [encode (jsq "{'message':{'thinking':'Let'},'done':false}") ++ [10];
   encode (jsq "{'message':{'content':'Hi!'},'done':true}") ++ [10]].

(** One SSE event, cut inside its string. *)
Definition event_head : bytes := encode (jsq "data: {'content':'Hi").
Definition event_tail : bytes := encode (jsq "'}") ++ [10; 10].

(** Two whole SSE events, one per chunk. *)
Definition event_lines : list bytes :=
  [encode (jsq "data: {'thinking':'Let'}") ++ [10; 10];
   encode (jsq "data: {'content':'Hi!'}") ++ [10; 10]].

(** A pair whose content holds a quote, a backslash, a line feed, a
    character outside ASCII, a surrogate pair and a lone surrogate. *)
Definition thinking0 : jsstring := js "Let me think".
Definition content0 : jsstring :=
  [72; 105; 34; 92; 10; 20320; 55357; 56832; 55296].

Definition done_event : bytes := encode (js "data: [DONE]") ++ [10; 10].
Definition late_event : bytes :=
  encode (jsq "data: {'content':'late'}") ++ [10; 10].

(** A truncated line and a whole one. *)
Definition truncated_frame : jsstring := jsq "{'message':{'content':'lo".
Definition whole_frame : jsstring := jsq "{'message':{'content':'Hi'}}".
Definition truncated_event : jsstring := jsq "data: {'content':'lo".
Definition whole_event : jsstring := jsq "data: {'content':'Hi'}".

(** The four lines of a backend that thinks, answers and says it is
    done, one chunk each. *)
Definition backend_lines : list bytes :=
  [encode (jsq "{'message':{'thinking':'Let'},'done':false}") ++ [10];
   encode (jsq "{'message':{'thinking':' me think'},'done':false}") ++ [10];
   encode (jsq "{'message':{'content':'Hi!'},'done':false}") ++ [10];
   encode (jsq "{'done':true}") ++ [10]].

(** The same with a truncated line after the first one. *)
Definition backend_lines_with_garbage : list bytes :=
  [encode (jsq "{'message':{'thinking':'Let'},'done':false}") ++ [10];
   encode (jsq "{'message':{'thinking':' me th") ++ [10];
   encode (jsq "{'message':{'content':'Hi!'},'done':false}") ++ [10];
   encode (jsq "{'done':true}") ++ [10]].

(** [fetch("/api/chat", ...)] of the page answered by [POST] in front of
    a backend: the page reads the chunks the relay enqueued, one read
    per chunk, and then the end of the stream. *)
Definition served (backend : Route.FetchInit -> Route.FetchResult)
           (body : jsstring) : Page.FetchOutcome :=
  let response :=
    Route.POST (match JSON_parse body with
                | Some v => Route.JsonResolves v
                | None => Route.JsonRejects
                end) backend in
  Page.FetchResolves
    (in_range 200 299 (Route.status response))
    (Some match Route.body response with
          | Route.JsonBody text => ([encode text], Page.EndOfStream)
          | Route.StreamBody stream =>
              (Route.enqueued stream, Page.EndOfStream)
          end).

Definition answers (chunks : list bytes) (_ : Route.FetchInit)
  : Route.FetchResult :=
  Route.FetchResolves true
    (Some {| Route.reads := chunks; Route.read_fails := false |}).

Definition refuses (_ : Route.FetchInit) : Route.FetchResult :=
  Route.FetchRejects.

End Examples.

(** ** Strings on the wire *)

(** Every code unit is one: sixteen bits. *)
Definition code_units_ok (s : jsstring) : Prop :=
  Forall (fun c => 0 <= c <= 0xFFFF) s.

(** A Unicode scalar value: a code point that is not a surrogate. *)
Definition is_scalar (cp : Z) : Prop :=
  0 <= cp <= 0x10FFFF /\ ~ (0xD800 <= cp <= 0xDFFF).

(** Well-formed UTF-16: every surrogate is half of a pair. *)
Fixpoint well_formed (s : jsstring) : bool :=
  match s with
  | [] => true
  | c :: rest =>
      if is_lead c then
        match rest with
        | d :: rest' => is_trail d && well_formed rest'
        | [] => false
        end
      else negb (is_trail c) && in_range 0 0xFFFF c && well_formed rest
  end.

(** The pair [{ thinking?, content? }] the relay serializes, and the
    object the page is to get back. *)
Definition pair_literal {F : Float64} (thinking content : option jsstring)
  : ObjectLiteral :=
  [(js "thinking", option_map JString thinking);
   (js "content", option_map JString content)].

Definition pair_object {F : Float64} (thinking content : option jsstring)
  : JSValue :=
  JObject
    (match thinking with
     | Some t => [(js "thinking", JString t)]
     | None => []
     end
     ++ match content with
        | Some c => [(js "content", JString c)]
        | None => []
        end).

(** One member of an object whose values are strings, as
    [JSON.stringify] writes it. *)
Definition member_text {F : Float64} (m : jsstring * jsstring) : jsstring :=
  quote (fst m) ++ 58 :: quote (snd m).

(** The members of [{ thinking?, content? }] that are present. *)
Definition pair_members (thinking content : option jsstring)
  : list (jsstring * jsstring) :=
  match thinking with
  | Some t => [(js "thinking", t)]
  | None => []
  end
  ++ match content with
     | Some c => [(js "content", c)]
     | None => []
     end.

Definition members_ok (ms : list (jsstring * jsstring)) : Prop :=
  Forall (fun m => code_units_ok (fst m) /\ code_units_ok (snd m)) ms.

(** The strings of the pair are strings: sixteen-bit code units. *)
Definition pair_ok (thinking content : option jsstring) : Prop :=
  (forall t, thinking = Some t -> code_units_ok t)
  /\ (forall c, content = Some c -> code_units_ok c).

(** ** Snapshots of the transcript *)

(** [y] starts with [x]. *)
Definition prefix (x y : jsstring) : Prop := exists z, y = x ++ z.

(** The draft is the last message of a snapshot; a draft without
    [thinking] has thought nothing yet. *)
Definition draft_content (snapshot : list Page.Message) : jsstring :=
  match rev snapshot with
  | m :: _ => Page.content m
  | [] => []
  end.

Definition draft_thinking (snapshot : list Page.Message) : jsstring :=
  match rev snapshot with
  | m :: _ => match Page.thinking m with
              | Some s => s
              | None => []
              end
  | [] => []
  end.

Definition extends (s1 s2 : list Page.Message) : Prop :=
  prefix (draft_content s1) (draft_content s2)
  /\ prefix (draft_thinking s1) (draft_thinking s2).

(** Each snapshot extends the one before it. *)
Fixpoint append_only (snapshots : list (list Page.Message)) : Prop :=
  match snapshots with
  | [] => True
  | s1 :: rest =>
      match rest with
      | s2 :: _ => extends s1 s2
      | [] => True
      end /\ append_only rest
  end.

(** What holds of a turn between two lines of the stream. *)
Record turn_inv (t : Page.Turn) : Prop := {
  inv_current :
    exists p, Page.published t = p ++ [Page.messages (Page.home t)];
  inv_append_only : append_only (Page.published t);
  inv_content :
    prefix (draft_content (Page.messages (Page.home t))) (Page.content_var t);
  inv_thinking :
    prefix (draft_thinking (Page.messages (Page.home t)))
           (Page.thinking_var t);
  inv_draft : Page.messages (Page.home t) <> []
}.

(** The guard of line 225 lets the submission through. *)
Definition can_submit (h : Page.Home) : bool :=
  negb (Str.is_empty (Str.trim (Page.input h)) || Page.isLoading h).

(** The [try] block threw something the [catch] block reports: an
    [Error] that is not named [AbortError]. *)
Definition reported (r : option Page.Rejection) : option Page.Thrown :=
  match r with
  | Some (Page.Rejects e) =>
      if Page.instanceof_Error e
         && negb (Str.eqb (Page.name e) (js "AbortError"))
      then Some e else None
  | _ => None
  end.

(** What the read loop never touches. *)
Definition same_controls (t u : Page.Turn) : Prop :=
  Page.console u = Page.console t
  /\ Page.input (Page.home u) = Page.input (Page.home t)
  /\ Page.isLoading (Page.home u) = Page.isLoading (Page.home t)
  /\ Page.abortRef (Page.home u) = Page.abortRef (Page.home t).

(** The backend did not answer with a success status and a body. *)
Definition backend_failed (r : Route.FetchResult) : bool :=
  match r with
  | Route.FetchResolves true (Some _) => false
  | _ => true
  end.

(** A per-text function run chunk by chunk behind one streaming decoder:
    the shape shared by the relay's loop and the page's. *)
Fixpoint chunked {A : Type} (g : jsstring -> list A)
         (td : TextDecoder) (chunks : list bytes) : list A :=
  match chunks with
  | [] => []
  | value :: rest =>
      let '(td', text) := decode_stream td value in
      g text ++ chunked g td' rest
  end.

(* ================================================================== *)
(** * Vocabulary of the further properties                             *)
(* ================================================================== *)

(** ** Values that go through [JSON.stringify] and [JSON.parse] unchanged *)

(** A parsed value without numbers: its strings are strings, and the keys
    of each object are distinct and none is an array index, so that the
    object lists them in the order they were created. *)
#[local] Set Warnings "-register-all".
Inductive plain {F : Float64} : JSValue -> Prop :=
| plain_null : plain JNull
| plain_bool (b : bool) : plain (JBool b)
| plain_string (s : jsstring) : code_units_ok s -> plain (JString s)
| plain_array (vs : list JSValue) : Forall plain vs -> plain (JArray vs)
| plain_object (ps : list (jsstring * JSValue)) :
    NoDup (map fst ps) ->
    Forall (fun k => code_units_ok k /\ array_index k = None) (map fst ps) ->
    Forall plain (map snd ps) ->
    plain (JObject ps).

(** Induction on a value, its elements and its property values. *)
Fixpoint JSValue_nested_ind {F : Float64} (P : JSValue -> Prop)
         (Hnull : P JNull) (Hbool : forall b, P (JBool b))
         (Hnumber : forall n, P (JNumber n))
         (Hstring : forall s, P (JString s))
         (Harray : forall vs, Forall P vs -> P (JArray vs))
         (Hobject : forall ps, Forall P (map snd ps) -> P (JObject ps))
         (v : JSValue) {struct v} : P v :=
  match v with
  | JNull => Hnull
  | JBool b => Hbool b
  | JNumber n => Hnumber n
  | JString s => Hstring s
  | JArray vs =>
      Harray vs
        ((fix all (l : list JSValue) : Forall P l :=
            match l with
            | [] => Forall_nil P
            | x :: rest =>
                Forall_cons x
                  (JSValue_nested_ind P Hnull Hbool Hnumber Hstring
                                      Harray Hobject x)
                  (all rest)
            end) vs)
  | JObject ps =>
      Hobject ps
        ((fix all (l : list (jsstring * JSValue)) : Forall P (map snd l) :=
            match l with
            | [] => Forall_nil P
            | (k, x) :: rest =>
                Forall_cons x
                  (JSValue_nested_ind P Hnull Hbool Hnumber Hstring
                                      Harray Hobject x)
                  (all rest)
            end) ps)
  end.

(** No key occurs twice. *)
Fixpoint distinct (ks : list jsstring) : bool :=
  match ks with
  | [] => true
  | k :: rest => negb (existsb (Str.eqb k) rest) && distinct rest
  end.

(** A key of sixteen-bit code units that is not an array index. *)
Definition key_check (k : jsstring) : bool :=
  forallb (in_range 0 0xFFFF) k
  && match array_index k with Some _ => false | None => true end.

(** [plain], decided. *)
Fixpoint plain_check {F : Float64} (v : JSValue) : bool :=
  match v with
  | JNull => true
  | JBool _ => true
  | JNumber _ => false
  | JString s => forallb (in_range 0 0xFFFF) s
  | JArray vs => forallb plain_check vs
  | JObject ps =>
      distinct (map fst ps) && forallb key_check (map fst ps)
      && forallb (fun kv => plain_check (snd kv)) ps
  end.

(** [JSON.parse] reads the text of [v] back, whatever follows it. *)
Definition parses_back {F : Float64} (v : JSValue) : Prop :=
  forall fuel rest,
    (2 * List.length (stringify v) <= fuel)%nat ->
    parse_value fuel (stringify v ++ rest) = Ok v rest.

(** One member of an object as [JSON.stringify] writes it. *)
Definition member_json {F : Float64} (kv : jsstring * JSValue) : jsstring :=
  quote (fst kv) ++ 58 :: stringify (snd kv).

(** ** Events on the wire between relay and page *)

(** What the relay enqueues: a pair of optional strings, or the
    sentinel. *)
Inductive WireEvent :=
| Data (thinking content : option jsstring)
| Done.

(** The chunk the relay enqueues for an event (lines 110-111 and 116). *)
Definition wire_bytes {F : Float64} (e : WireEvent) : bytes :=
  match e with
  | Data thinking content =>
      encode (Route.sseData (option_map JString thinking)
                            (option_map JString content))
  | Done => encode (js "data: [DONE]" ++ [10; 10])
  end.

Definition text_of (o : option jsstring) : jsstring :=
  match o with
  | Some s => s
  | None => []
  end.

Definition event_thinking (e : WireEvent) : jsstring :=
  match e with
  | Data thinking _ => text_of thinking
  | Done => []
  end.

Definition event_content (e : WireEvent) : jsstring :=
  match e with
  | Data _ content => text_of content
  | Done => []
  end.

Definition is_data (e : WireEvent) : bool :=
  match e with
  | Data _ _ => true
  | Done => false
  end.

Definition event_ok (e : WireEvent) : Prop :=
  match e with
  | Data thinking content => pair_ok thinking content
  | Done => True
  end.

(** The draft once the events have been read. *)
Definition draft_after (events : list WireEvent) : Page.Message :=
  if existsb is_data events
  then {| Page.role := Page.assistant;
          Page.content := List.concat (map event_content events);
          Page.thinking := Some (List.concat (map event_thinking events)) |}
  else {| Page.role := Page.assistant;
          Page.content := [];
          Page.thinking := None |}.

(** ** Frames of the backend *)

(** One NDJSON line of the backend, without its line feed, and what it
    carries: the strings under [message.thinking] and [message.content]
    when they are there, and whether [done] is truthy. *)
Record Frame := {
  frame_line : jsstring;
  frame_thinking : option jsstring;
  frame_content : option jsstring;
  frame_done : bool
}.

(** The line is one line of well-formed text and JSON for a value whose
    [message], if it has one, is an object with these strings.  Other
    properties, numbers among them, may be present. *)
Definition frame_ok {F : Float64} (f : Frame) : Prop :=
  single_line (frame_line f) = true
  /\ well_formed (frame_line f) = true
  /\ pair_ok (frame_thinking f) (frame_content f)
  /\ exists json,
       JSON_parse (frame_line f) = Some json
       /\ ((Get json (js "message") = None
            /\ frame_thinking f = None /\ frame_content f = None)
           \/ exists m,
               Get json (js "message") = Some (JObject m)
               /\ assoc (js "thinking") m
                  = option_map JString (frame_thinking f)
               /\ assoc (js "content") m
                  = option_map JString (frame_content f))
       /\ truthy (Get json (js "done")) = frame_done f.

(** The line as the backend sends it. *)
Definition frame_chunk (f : Frame) : bytes :=
  encode (frame_line f ++ [10]).

(** What the relay is to enqueue for it. *)
Definition frame_events (f : Frame) : list WireEvent :=
  (if negb (Str.is_empty (text_of (frame_thinking f)))
      || negb (Str.is_empty (text_of (frame_content f)))
   then [Data (frame_thinking f) (frame_content f)]
   else [])
  ++ (if frame_done f then [Done] else []).

(** ** Requests *)

(** A message as the page sends it (line 246): [role] and [content]
    only. *)
Definition wire_message {F : Float64} (m : Page.Message) : JSValue :=
  JObject
    [(js "role",
      JString (match Page.role m with
               | Page.user => js "user"
               | Page.assistant => js "assistant"
               end));
     (js "content", JString (Page.content m))].

(** The properties of an object literal that [JSON.stringify] writes. *)
Definition present {F : Float64} (o : ObjectLiteral)
  : list (jsstring * JSValue) :=
  flat_map (fun kv => match snd kv with
                      | Some v => [(fst kv, v)]
                      | None => []
                      end) o.

(** What the backend is to receive for a request [v] (line 74). *)
Definition upstream_request {F : Float64} (v : JSValue) : JSValue :=
  JObject
    (present [(js "model",
               match Get v (js "model") with
               | None => Some (JString Route.MODEL)
               | Some m => Some m
               end);
              (js "messages", Get v (js "messages"));
              (js "stream", Some (JBool true))]).

(** ** The transcript of a turn *)

(** A transcript of the turn that [h] starts: what was there, the
    user's message, and one draft of the assistant. *)
Definition one_draft (h : Page.Home) (snapshot : list Page.Message) : Prop :=
  exists d, snapshot = Page.newMessages h ++ [d]
            /\ Page.role d = Page.assistant.

Record slot_inv (h : Page.Home) (t : Page.Turn) : Prop := {
  slot_current : one_draft h (Page.messages (Page.home t));
  slot_published : Forall (one_draft h) (Page.published t);
  slot_input : Page.input (Page.home t) = []
}.

(* ================================================================== *)
(** * What the page shows                                              *)
(* ================================================================== *)

Module View.

(** What [Thinking] renders (src/components/Thinking.tsx, lines 33-69). *)
Record ThinkingView := {
  spinner : bool;              (* [Loader2] in place of [BrainCircuit] *)
  title : jsstring;
  chevron_down : bool;
  body : option (jsstring * bool)   (* the content and whether the
                                       cursor follows it *)
}.

(** lines 26-70 of Thinking.tsx; [isOpen] is the state of the
    component, [None] is [null]. *)
Definition Thinking (content : jsstring) (isStreaming isOpen : bool)
  : option ThinkingView :=
  if Str.is_empty content then None
  else Some {| spinner := isStreaming;
               title := if isStreaming then js "正在思考..."
                        else js "思考过程";
               chevron_down := isOpen;
               body := if isOpen then Some (content, isStreaming)
                       else None |}.

(** One element of [messages.map] (lines 331-417). *)
Record Row := {
  justify_end : bool;
  avatar : bool;
  thinking_view : option ThinkingView;
  waiting : bool;                   (* the [等待响应...] indicator *)
  markdown : option jsstring
}.

(** [!!s] for an optional string *)
Definition truthy_string (s : option jsstring) : bool :=
  match s with
  | Some s => negb (Str.is_empty s)
  | None => false
  end.

(** lines 331-417; [isOpen] is the state of the row's [Thinking]. *)
Definition render_message (isLoading isLast isOpen : bool)
           (msg : Page.Message) : Row :=
  let isThinking :=
    isLoading && isLast && truthy_string (Page.thinking msg)
    && Str.is_empty (Page.content msg) in
  {| justify_end := match Page.role msg with
                    | Page.user => true
                    | Page.assistant => false
                    end;
     avatar := match Page.role msg with
               | Page.user => false
               | Page.assistant => true
               end;
     thinking_view :=
       match Page.thinking msg with
       | Some s => if Str.is_empty s then None
                   else Thinking s isThinking isOpen
       | None => None
       end;
     waiting := isLoading && isLast && Str.is_empty (Page.content msg)
                && negb (truthy_string (Page.thinking msg));
     markdown := if Str.is_empty (Page.content msg) then None
                 else Some (Page.content msg) |}.

(** [messages.map((msg, i) => ...)] from index [i] on; the last
    element is the one with nothing after it. *)
Fixpoint render_rows (isLoading : bool) (isOpen : nat -> bool) (i : nat)
         (msgs : list Page.Message) : list Row :=
  match msgs with
  | [] => []
  | msg :: rest =>
      render_message isLoading
                     (match rest with [] => true | _ => false end)
                     (isOpen i) msg
      :: render_rows isLoading isOpen (S i) rest
  end.

Inductive MessageList :=
| EmptyState
| Rows (rows : list Row).

Inductive Button :=
| StopButton
| SendButton (disabled : bool).

Record Screen := {
  message_list : MessageList;
  textarea_value : jsstring;
  textarea_disabled : bool;
  button : Button
}.

(** lines 315-461: what [Home] returns; [isOpen i] is the state of the
    [Thinking] of row [i]. *)
Definition render (h : Page.Home) (isOpen : nat -> bool) : Screen :=
  {| message_list :=
       match Page.messages h with
       | [] => EmptyState
       | msgs => Rows (render_rows (Page.isLoading h) isOpen 0 msgs)
       end;
     textarea_value := Page.input h;
     textarea_disabled := Page.isLoading h;
     button := if Page.isLoading h then StopButton
               else SendButton (Str.is_empty (Str.trim (Page.input h))) |}.

(** Nothing in the row moves: no waiting indicator, no spinner and no
    cursor in the thinking block. *)
Definition still (r : Row) : Prop :=
  waiting r = false
  /\ match thinking_view r with
     | Some v => spinner v = false
                 /\ title v = js "思考过程"
                 /\ match body v with
                    | Some (_, cursor) => cursor = false
                    | None => True
                    end
     | None => True
     end.

End View.

(** ** A whole turn *)

(** The request [POST] reads when the page has sent [sent]. *)
Definition chat_request {F : Float64} (sent : list Page.Message) : JSValue :=
  JObject [(js "messages", JArray (map wire_message sent))].

(** line 242: [fetch("/api/chat", ...)] answered by [POST] in front of
    [backend].  The body reaches the page through [hop]: the reads the
    page gets for the chunks that were written, the same bytes cut
    where the network cuts them; nothing here says where.  The page
    then reads the end of the stream, the relay closing its stream when
    the backend's is over (line 124).  When a read of the backend
    fails, [start] rejects after that close and what the page sees
    depends on what is still queued; it is taken here as the end of the
    stream, which a page that has read every chunk sees.  The
    properties below are about backends whose reads do not fail, or
    that give no stream at all. *)
Definition fetch_api_chat {F : Float64}
           (hop : list bytes -> list bytes)
           (backend : Route.FetchInit -> Route.FetchResult)
           (body : jsstring) : Page.FetchOutcome :=
  let response :=
    Route.POST (match JSON_parse body with
                | Some v => Route.JsonResolves v
                | None => Route.JsonRejects
                end) backend in
  Page.FetchResolves
    (in_range 200 299 (Route.status response))
    (Some match Route.body response with
          | Route.JsonBody text => (hop [encode text], Page.EndOfStream)
          | Route.StreamBody stream =>
              (hop (Route.enqueued stream), Page.EndOfStream)
          end).

(** ** Lines that do not parse *)

(** A line of the backend that [JSON.parse] refuses: one line of
    well-formed text, not starting with a byte order mark (which the
    decoder would take away at the start of the stream). *)
Definition garbage_ok {F : Float64} (line : jsstring) : Prop :=
  single_line line = true
  /\ well_formed line = true
  /\ match line with c :: _ => c <> 0xFEFF | [] => True end
  /\ JSON_parse line = None.

(** The chunk of one SSE event with [payload] after [data: ]. *)
Definition data_event (payload : jsstring) : bytes :=
  encode (js "data: " ++ payload ++ [10; 10]).

(** A payload that [JSON.parse] refuses. *)
Definition payload_refused {F : Float64} (payload : jsstring) : Prop :=
  single_line payload = true
  /\ well_formed payload = true
  /\ JSON_parse (Str.trim payload) = None.

(** ** More inputs on which the definitions are run *)

Module Cases.

(** A text with characters of two, three and four bytes, and its bytes
    cut inside the second and inside the eighth character. *)
Definition text0 : jsstring := js "héllo 你好 😀".
Definition cuts0 : list bytes :=
  [firstn 2 (encode text0);
   firstn 9 (skipn 2 (encode text0));
   skipn 11 (encode text0)].

(** A value with nested objects and arrays, and a string that holds a
    quote, a backslash, a line feed, a surrogate pair and a lone
    surrogate. *)
Definition value0 : JSValue :=
  JObject
    [(js "message",
      JObject [(js "role", JString (js "assistant"));
               (js "content", JString Examples.content0)]);
     (js "done", JBool false);
     (js "tags", JArray [JNull; JString []; JArray []; JObject []])].

(** A request that names its model. *)
Definition request0 : JSValue :=
  JObject
    [(js "model", JString (js "deepseek-r1:8b"));
     (js "messages",
      JArray [JObject [(js "role", JString (js "user"));
                       (js "content", JString (js "hi"))]])].

(** A transcript of three messages, the second with thinking. *)
Definition transcript0 : list Page.Message :=
  [{| Page.role := Page.user; Page.content := js "hi";
      Page.thinking := None |};
   {| Page.role := Page.assistant; Page.content := js "Hello!";
      Page.thinking := Some (js "A greeting.") |};
   {| Page.role := Page.user; Page.content := js "你好";
      Page.thinking := None |}].

(** The events of an answer: thinking in two fragments, content in
    two, the sentinel. *)
Definition events0 : list WireEvent :=
  [Data (Some (js "Let")) None;
   Data (Some (js " me think")) (Some []);
   Data None (Some (js "Hi"));
   Data None (Some (js "!"));
   Done].

(** Events of thinking only: the answer has not begun. *)
Definition events1 : list WireEvent :=
  [Data (Some (js "Let")) None; Data (Some (js " me think")) (Some [])].

(** Three lines of the backend as it sends them, with the properties
    the relay does not read. *)
Definition line1 : jsstring :=
  jsq "{'model':'qwen3:14b','created_at':'2025-01-01T00:00:00.1Z','message':{'role':'assistant','content':'','thinking':'Let'},'done':false}".
Definition line2 : jsstring :=
  jsq "{'model':'qwen3:14b','created_at':'2025-01-01T00:00:00.2Z','message':{'role':'assistant','content':'Hi!'},'done':false}".
Definition line3 : jsstring :=
  jsq "{'model':'qwen3:14b','created_at':'2025-01-01T00:00:00.3Z','message':{'role':'assistant','content':''},'done_reason':'stop','done':true,'total_duration':4935886791,'eval_count':282}".

Definition frames0 : list Frame :=
  [{| frame_line := line1; frame_thinking := Some (js "Let");
      frame_content := Some []; frame_done := false |};
   {| frame_line := line2; frame_thinking := None;
      frame_content := Some (js "Hi!"); frame_done := false |};
   {| frame_line := line3; frame_thinking := None;
      frame_content := Some []; frame_done := true |}].

(** The three lines in two chunks: two lines, then one. *)
Definition chunks0 : list bytes :=
  [encode (line1 ++ [10]) ++ encode (line2 ++ [10]);
   encode (line3 ++ [10])].

(** What the relay enqueues for [Examples.backend_lines], regrouped:
    the first event alone, then the others in one read. *)
Definition groups0 : list (list bytes) :=
  [firstn 1 (Route.relay_loop new_TextDecoder Examples.backend_lines);
   skipn 1 (Route.relay_loop new_TextDecoder Examples.backend_lines)].

(** A response whose stream breaks after two events. *)
Definition broken (_ : jsstring) : Page.FetchOutcome :=
  Page.FetchResolves true
    (Some (Examples.event_lines,
           Page.ReadRejects (Page.Rejects Page.new_Error))).

Definition all_open (_ : nat) : bool := true.

(** A hop that hands the page everything in one read, and one that
    hands it over as it was written. *)
Definition coalesce (written : list bytes) : list bytes :=
  [List.concat written].
Definition as_written (written : list bytes) : list bytes := written.

(** The lines of [frames0] with a truncated line after the first one,
    in two chunks. *)
Definition chunks_with_garbage : list bytes :=
  [encode (line1 ++ [10]) ++ encode (Examples.truncated_frame ++ [10]);
   encode (line2 ++ [10]) ++ encode (line3 ++ [10])].

(** A payload cut inside its string. *)
Definition truncated_payload : jsstring := jsq "{'content':'lo".

(** The events of [events0] with an event that does not parse after the
    first one and the sentinel in the middle, in two reads. *)
Definition before0 : list WireEvent :=
  [Data (Some (js "Let")) None].
Definition after0 : list WireEvent :=
  [Data None (Some (js "Hi")); Data None (Some (js "!"))].
Definition reads_with_garbage : list bytes :=
  [wire_bytes (Data (Some (js "Let")) None) ++ data_event truncated_payload;
   wire_bytes (Data None (Some (js "Hi")))
   ++ wire_bytes (Data None (Some (js "!")))].
Definition reads_with_sentinel : list bytes :=
  [wire_bytes (Data (Some (js "Let")) None) ++ wire_bytes Done;
   wire_bytes (Data None (Some (js "Hi")))
   ++ wire_bytes (Data None (Some (js "!")))].

(** A backend that refuses, with a status that is not a success, the
    request [POST] sends for [request0], and answers every other one. *)
Definition picky (init : Route.FetchInit) : Route.FetchResult :=
  if Str.eqb (Route.fetch_body init)
             (Route.fetch_body (Route.ollama_init request0))
  then Route.FetchResolves false
         (Some {| Route.reads := []; Route.read_fails := false |})
  else Route.FetchResolves true
         (Some {| Route.reads := Examples.frame_lines;
                  Route.read_fails := false |}).

(** A page on which only spaces and a line feed have been typed. *)
Definition blank_home : Page.Home :=
  {| Page.messages := [];
     Page.input := [32; 32; 10];
     Page.isLoading := false;
     Page.abortRef := false |}.

End Cases.

(* ================================================================== *)
(** * Streaming decoding                                               *)
(* ================================================================== *)

Section Decoding.

Lemma utf8_run_app d a b :
  utf8_run d (a ++ b) =
  let '(d1, o1) := utf8_run d a in
  let '(d2, o2) := utf8_run d1 b in
  (d2, o1 ++ o2).
Proof.
  revert d; induction a as [|x a IH]; intros d; simpl.
  - destruct (utf8_run d b); reflexivity.
  - destruct (utf8_step d x) as [d1 o1].
    rewrite IH.
    destruct (utf8_run d1 a) as [d2 o2].
    destruct (utf8_run d2 b) as [d3 o3].
    now rewrite app_assoc.
Qed.

Lemma strip_bom_app seen a b :
  strip_bom seen (a ++ b) =
  let '(s1, a') := strip_bom seen a in
  let '(s2, b') := strip_bom s1 b in
  (s2, a' ++ b').
Proof.
  destruct a as [|x a]; simpl.
  - destruct (strip_bom seen b); reflexivity.
  - destruct seen; [|destruct (x =? 65279)];
      destruct b; simpl; rewrite ?app_nil_r; reflexivity.
Qed.

(** Decoding is a fold over the bytes: a chunk boundary does not change
    the text, wherever it falls. *)
Lemma decode_stream_app td a b :
  decode_stream td (a ++ b) =
  let '(td1, t1) := decode_stream td a in
  let '(td2, t2) := decode_stream td1 b in
  (td2, t1 ++ t2).
Proof.
  unfold decode_stream.
  rewrite utf8_run_app.
  destruct (utf8_run (decoder td) a) as [d1 o1].
  destruct (strip_bom (bom_seen td) o1) as [s1 o1'] eqn:E1.
  cbn [decoder bom_seen].
  destruct (utf8_run d1 b) as [d2 o2].
  rewrite strip_bom_app, E1.
  destruct (strip_bom s1 o2) as [s2 o2'].
  now rewrite flat_map_app.
Qed.

Lemma utf8_handler_lower d b :
  0x80 <= lower_boundary d ->
  0x80 <= lower_boundary (fst (utf8_handler d b)).
Proof.
  intros H; unfold utf8_handler.
  repeat match goal with
         | |- context [if ?c then _ else _] => destruct c
         end; simpl; lia.
Qed.

Lemma utf8_step_lower d b :
  0x80 <= lower_boundary d ->
  0x80 <= lower_boundary (fst (utf8_step d b)).
Proof.
  intros H; unfold utf8_step.
  pose proof (utf8_handler_lower d b H) as H1.
  destruct (utf8_handler d b) as [d' []]; simpl in *; try assumption.
  pose proof (utf8_handler_lower d' b H1) as H2.
  destruct (utf8_handler d' b) as [d'' []]; simpl in *; assumption.
Qed.

Lemma utf8_run_lower bs : forall d,
  0x80 <= lower_boundary d ->
  0x80 <= lower_boundary (fst (utf8_run d bs)).
Proof.
  induction bs as [|b bs IH]; intros d H; simpl; [assumption|].
  pose proof (utf8_step_lower d b H) as H1.
  destruct (utf8_step d b) as [d1 o1]; simpl in H1.
  specialize (IH d1 H1).
  destruct (utf8_run d1 bs); assumption.
Qed.

Lemma decode_stream_ok td value :
  decoder_ok td -> decoder_ok (fst (decode_stream td value)).
Proof.
  unfold decoder_ok, decode_stream; intros H.
  pose proof (utf8_run_lower value (decoder td) H) as H1.
  destruct (utf8_run (decoder td) value) as [d cps]; simpl in H1.
  destruct (strip_bom (bom_seen td) cps); assumption.
Qed.

(** A line feed byte always comes out as a line feed, the last code
    unit of what the byte produces. *)
Lemma utf8_step_LF d :
  0x80 <= lower_boundary d ->
  exists d' pre, utf8_step d 10 = (d', pre ++ [10]).
Proof.
  intros H; unfold utf8_step, utf8_handler.
  destruct (bytes_needed d =? 0) eqn:E.
  - exists d, []; reflexivity.
  - replace (in_range (lower_boundary d) (upper_boundary d) 10) with false.
    + simpl. exists utf8_init, [0xFFFD]; reflexivity.
    + symmetry; unfold in_range.
      apply andb_false_iff; left; apply Z.leb_gt; lia.
Qed.

Lemma decode_stream_LF td a :
  decoder_ok td ->
  exists td' text, decode_stream td (a ++ [10]) = (td', text ++ [10]).
Proof.
  intros H.
  rewrite decode_stream_app.
  pose proof (decode_stream_ok td a H) as H1.
  destruct (decode_stream td a) as [td1 t1]; simpl in H1.
  unfold decode_stream; simpl.
  destruct (utf8_step_LF (decoder td1) H1) as (d' & pre & E).
  rewrite E; rewrite app_nil_r.
  assert (exists pre', strip_bom (bom_seen td1) (pre ++ [10])
                       = (true, pre' ++ [10])) as (pre' & E').
  { destruct pre as [|x pre]; simpl.
    - destruct (bom_seen td1); exists []; reflexivity.
    - destruct (bom_seen td1); [exists (x :: pre); reflexivity|].
      destruct (x =? 65279); [exists pre | exists (x :: pre)]; reflexivity. }
  rewrite E'.
  exists (mkDecoder d' true), (t1 ++ flat_map code_units pre').
  rewrite flat_map_app; simpl. now rewrite <- app_assoc.
Qed.

Lemma ends_with_LF_inv c :
  ends_with_LF c = true -> exists a, c = a ++ [10].
Proof.
  unfold ends_with_LF; intros H.
  destruct (rev c) as [|b r] eqn:E; [discriminate|].
  apply Z.eqb_eq in H; subst b.
  exists (rev r).
  rewrite <- (rev_involutive c), E; reflexivity.
Qed.

End Decoding.

(* ================================================================== *)
(** * Lines                                                            *)
(* ================================================================== *)

Section Lines.

Lemma split_lines_nonempty s : Str.split_lines s <> [].
Proof.
  destruct s as [|c s]; simpl; [discriminate|].
  destruct (c =? 10); [discriminate|].
  destruct (Str.split_lines s); discriminate.
Qed.

(** A line feed between two texts separates their lines. *)
Lemma split_lines_app a b :
  Str.split_lines (a ++ 10 :: b) = Str.split_lines a ++ Str.split_lines b.
Proof.
  induction a as [|c a IH]; simpl; [reflexivity|].
  destruct (c =? 10); [now rewrite IH|].
  rewrite IH.
  pose proof (split_lines_nonempty a).
  destruct (Str.split_lines a); [contradiction|reflexivity].
Qed.

Lemma split_lines_LF a :
  Str.split_lines (a ++ [10]) = Str.split_lines a ++ [[]].
Proof. apply split_lines_app. Qed.

(** A text without line feed is one line. *)
Lemma split_lines_one s :
  ~ In 10 s -> Str.split_lines s = [s].
Proof.
  induction s as [|c s IH]; intros H; simpl; [reflexivity|].
  destruct (Z.eqb_spec c 10) as [->|_]; [exfalso; apply H; now left|].
  rewrite IH; [reflexivity|]. intros Hin; apply H; now right.
Qed.

End Lines.

(* ================================================================== *)
(** * Fragmentation                                                    *)
(* ================================================================== *)

Section Fragmentation.
Context {F : Float64}.

(** ** Any function of the lines that ignores the empty line *)

Section PerLine.
Context {A : Type} (f : jsstring -> list A).
Hypothesis f_empty : f [] = [].

Let g (text : jsstring) : list A := flat_map f (Str.split_lines text).

Lemma per_line_app a b : g (a ++ 10 :: b) = g a ++ g b.
Proof. unfold g. now rewrite split_lines_app, flat_map_app. Qed.

Lemma per_line_LF a : g (a ++ [10]) = g a.
Proof.
  unfold g. rewrite split_lines_LF, flat_map_app; simpl.
  now rewrite f_empty, app_nil_r.
Qed.

Lemma chunked_step td c1 c2 rest :
  decoder_ok td -> ends_with_LF c1 = true ->
  chunked g td ((c1 ++ c2) :: rest) = chunked g td (c1 :: c2 :: rest).
Proof.
  intros Hok Hlf.
  destruct (ends_with_LF_inv c1 Hlf) as [a ->].
  destruct (decode_stream_LF td a Hok) as (td1 & text & E).
  simpl. rewrite decode_stream_app, E.
  destruct (decode_stream td1 c2) as [td2 t2].
  rewrite <- (app_assoc text); simpl.
  now rewrite per_line_app, per_line_LF, app_assoc.
Qed.

Lemma chunked_aligned chunks : forall td,
  decoder_ok td -> line_aligned chunks ->
  chunked g td chunks = chunked g td [List.concat chunks].
Proof.
  induction chunks as [|c1 [|c2 rest] IH]; intros td Hok Hal.
  - simpl. unfold decode_stream; simpl.
    destruct (bom_seen td); simpl; unfold g; simpl; now rewrite f_empty.
  - simpl. now rewrite app_nil_r.
  - unfold line_aligned in Hal.
    change (removelast (c1 :: c2 :: rest))
      with (c1 :: removelast (c2 :: rest)) in Hal.
    inversion Hal as [|? ? Hc1 Hrest]; subst.
    change (List.concat (c1 :: c2 :: rest)) with (c1 ++ List.concat (c2 :: rest)).
    rewrite chunked_step by assumption.
    change (chunked g td (c1 :: c2 :: rest))
      with (let '(td', text) := decode_stream td c1 in
            g text ++ chunked g td' (c2 :: rest)).
    change (chunked g td [c1; List.concat (c2 :: rest)])
      with (let '(td', text) := decode_stream td c1 in
            g text ++ chunked g td' [List.concat (c2 :: rest)]).
    pose proof (decode_stream_ok td c1 Hok) as Hok1.
    destruct (decode_stream td c1) as [td1 t1]; simpl in Hok1.
    now rewrite (IH td1 Hok1 Hrest).
Qed.

End PerLine.

(** ** The relay's loop *)

Lemma relay_line_empty : Route.relay_line [] = [].
Proof. reflexivity. Qed.

Lemma line_frames_empty : Route.line_frames [] = [].
Proof. reflexivity. Qed.

Lemma relay_loop_chunked chunks : forall td,
  Route.relay_loop td chunks = chunked Route.relay_text td chunks.
Proof.
  induction chunks as [|c rest IH]; intros td; simpl; [reflexivity|].
  unfold Route.relay_chunk.
  destruct (decode_stream td c) as [td' text]. now rewrite IH.
Qed.

Lemma relay_frames_chunked chunks : forall td,
  Route.relay_frames td chunks =
  chunked (fun text => flat_map Route.line_frames (Str.split_lines text))
          td chunks.
Proof.
  induction chunks as [|c rest IH]; intros td; simpl; [reflexivity|].
  destruct (decode_stream td c) as [td' text]. now rewrite IH.
Qed.

(** ** The page's loop *)

Lemma startsWith_empty_data : Str.startsWith [] (js "data:") = false.
Proof. reflexivity. Qed.

Lemma data_lines_app a b :
  Page.data_lines (a ++ 10 :: b) = Page.data_lines a ++ Page.data_lines b.
Proof.
  unfold Page.data_lines. now rewrite split_lines_app, filter_app.
Qed.

Lemma data_lines_LF a : Page.data_lines (a ++ [10]) = Page.data_lines a.
Proof.
  unfold Page.data_lines. rewrite split_lines_LF, filter_app; simpl.
  now rewrite app_nil_r.
Qed.

Lemma handle_text_app t a b :
  Page.handle_text t (a ++ 10 :: b)
  = Page.handle_text (Page.handle_text t a) b.
Proof.
  unfold Page.handle_text. now rewrite data_lines_app, fold_left_app.
Qed.

Lemma handle_text_LF t a :
  Page.handle_text t (a ++ [10]) = Page.handle_text t a.
Proof. unfold Page.handle_text. now rewrite data_lines_LF. Qed.

Lemma apply_payload_with_decoder t td json :
  Page.apply_payload (Page.with_decoder t td) json
  = Page.with_decoder (Page.apply_payload t json) td.
Proof.
  unfold Page.apply_payload.
  destruct json; try reflexivity; simpl;
    repeat match goal with
           | |- context [match ?x with Some _ => _ | None => _ end] =>
               destruct x
           end; reflexivity.
Qed.

Lemma handle_line_with_decoder t td line :
  Page.handle_line (Page.with_decoder t td) line
  = Page.with_decoder (Page.handle_line t line) td.
Proof.
  unfold Page.handle_line.
  destruct (Page.decode_line line); try reflexivity.
  apply apply_payload_with_decoder.
Qed.

Lemma fold_handle_line_with_decoder lines : forall t td,
  fold_left Page.handle_line lines (Page.with_decoder t td)
  = Page.with_decoder (fold_left Page.handle_line lines t) td.
Proof.
  induction lines as [|l lines IH]; intros t td; simpl; [reflexivity|].
  now rewrite handle_line_with_decoder, IH.
Qed.

Lemma handle_text_with_decoder t td text :
  Page.handle_text (Page.with_decoder t td) text
  = Page.with_decoder (Page.handle_text t text) td.
Proof. apply fold_handle_line_with_decoder. Qed.

Lemma with_decoder_twice t td1 td2 :
  Page.with_decoder (Page.with_decoder t td1) td2 = Page.with_decoder t td2.
Proof. reflexivity. Qed.

Lemma text_decoder_handle_text t td text :
  Page.text_decoder (Page.handle_text (Page.with_decoder t td) text) = td.
Proof. now rewrite handle_text_with_decoder. Qed.

Lemma handle_chunk_aligned t c1 c2 :
  decoder_ok (Page.text_decoder t) -> ends_with_LF c1 = true ->
  Page.handle_chunk t (c1 ++ c2)
  = Page.handle_chunk (Page.handle_chunk t c1) c2.
Proof.
  intros Hok Hlf.
  destruct (ends_with_LF_inv c1 Hlf) as [a ->].
  destruct (decode_stream_LF _ a Hok) as (td1 & text & E).
  unfold Page.handle_chunk at 1 3.
  rewrite decode_stream_app, E.
  unfold Page.handle_chunk.
  rewrite handle_text_LF, text_decoder_handle_text.
  destruct (decode_stream td1 c2) as [td2 t2].
  rewrite <- app_assoc; simpl.
  rewrite handle_text_app.
  now rewrite (handle_text_with_decoder _ td2 text),
              (handle_text_with_decoder t td1 text), with_decoder_twice.
Qed.

Lemma handle_chunk_ok t c :
  decoder_ok (Page.text_decoder t) ->
  decoder_ok (Page.text_decoder (Page.handle_chunk t c)).
Proof.
  intros Hok. unfold Page.handle_chunk.
  pose proof (decode_stream_ok _ c Hok) as H.
  destruct (decode_stream (Page.text_decoder t) c) as [td text].
  now rewrite text_decoder_handle_text.
Qed.

Lemma read_loop_aligned chunks : forall t,
  decoder_ok (Page.text_decoder t) -> line_aligned chunks ->
  Page.read_loop t chunks = Page.read_loop t [List.concat chunks].
Proof.
  unfold Page.read_loop.
  induction chunks as [|c1 [|c2 rest] IH]; intros t Hok Hal.
  - simpl. unfold Page.handle_chunk, decode_stream; simpl.
    destruct t as [h cv tv [d seen] pub con]; simpl.
    destruct seen; reflexivity.
  - simpl. now rewrite app_nil_r.
  - unfold line_aligned in Hal.
    change (removelast (c1 :: c2 :: rest))
      with (c1 :: removelast (c2 :: rest)) in Hal.
    inversion Hal as [|? ? Hc1 Hrest]; subst.
    change (List.concat (c1 :: c2 :: rest)) with (c1 ++ List.concat (c2 :: rest)).
    change (fold_left Page.handle_chunk (c1 :: c2 :: rest) t)
      with (fold_left Page.handle_chunk (c2 :: rest) (Page.handle_chunk t c1)).
    rewrite (IH _ (handle_chunk_ok t c1 Hok) Hrest).
    cbn [fold_left]. now rewrite handle_chunk_aligned.
Qed.

Lemma flat_map_filter {A B} (p : A -> bool) (g : A -> list B) l :
  flat_map g (filter p l) = flat_map (fun x => if p x then g x else []) l.
Proof.
  induction l as [|x l IH]; simpl; [reflexivity|].
  destruct (p x); simpl; now rewrite IH.
Qed.

Lemma stream_payloads_chunked chunks : forall td,
  Page.stream_payloads td chunks
  = chunked (fun text =>
               flat_map (fun line =>
                           if Str.startsWith line (js "data:")
                           then match Page.decode_line line with
                                | Page.Payload json => [json]
                                | _ => []
                                end
                           else [])
                        (Str.split_lines text))
            td chunks.
Proof.
  induction chunks as [|c rest IH]; intros td; simpl; [reflexivity|].
  destruct (decode_stream td c) as [td' text]. rewrite IH.
  unfold Page.payloads, Page.data_lines. now rewrite flat_map_filter.
Qed.

(** ** Lines that change nothing *)

Lemma single_line_split s :
  single_line s = true -> Str.split_lines s = [s].
Proof.
  intros H; apply split_lines_one; intros Hin.
  unfold single_line in H; rewrite forallb_forall in H.
  specialize (H 10 Hin); discriminate.
Qed.

Lemma relay_text_app a b :
  Route.relay_text (a ++ 10 :: b) = Route.relay_text a ++ Route.relay_text b.
Proof. apply (per_line_app Route.relay_line). Qed.

Lemma relay_line_unparsed line :
  JSON_parse line = None -> Route.relay_line line = [].
Proof.
  intros H; unfold Route.relay_line; rewrite H.
  now destruct (Str.is_empty (Str.trim line)).
Qed.

Lemma relay_text_skips line b :
  single_line line = true -> Route.relay_line line = [] ->
  Route.relay_text (line ++ 10 :: b) = Route.relay_text b.
Proof.
  intros Hone Hskip. rewrite relay_text_app.
  unfold Route.relay_text at 1.
  rewrite (single_line_split _ Hone); simpl. now rewrite Hskip.
Qed.

Lemma handle_text_skips t line b :
  single_line line = true ->
  (forall u, Page.handle_line u line = u) ->
  Page.handle_text t (line ++ 10 :: b) = Page.handle_text t b.
Proof.
  intros Hone Hskip. rewrite handle_text_app. f_equal.
  unfold Page.handle_text, Page.data_lines.
  rewrite (single_line_split _ Hone); simpl.
  destruct (Str.startsWith line (js "data:")); simpl; [apply Hskip|reflexivity].
Qed.

Lemma handle_line_unparsed t line :
  JSON_parse (Str.trim (Str.slice 5 line)) = None ->
  Page.handle_line t line = t.
Proof.
  intros H; unfold Page.handle_line, Page.decode_line; rewrite H.
  now destruct (Str.eqb _ _).
Qed.

Lemma handle_line_sentinel t line :
  Page.decode_line line = Page.Sentinel -> Page.handle_line t line = t.
Proof. intros H; unfold Page.handle_line; now rewrite H. Qed.

(** C1 (amended): when every chunk boundary falls right after a line
    feed byte, feeding the chunks one at a time through the relay's
    loop gives the same frames, in the same order, and enqueues the
    same SSE events as feeding their concatenation as one chunk.  (The
    loop keeps no text between chunks: every segment of a chunk, the
    last one too, is parsed on its own.) *)
Theorem relay_same_frames_when_cut_at_lines (chunks : list bytes) :
  line_aligned chunks ->
  Route.relay_frames new_TextDecoder chunks
  = Route.relay_frames new_TextDecoder [List.concat chunks]
  /\ Route.relay_loop new_TextDecoder chunks
     = Route.relay_loop new_TextDecoder [List.concat chunks].
Proof.
  intros Hal.
  assert (decoder_ok new_TextDecoder) as Hok by (unfold decoder_ok; simpl; lia).
  split.
  - rewrite !relay_frames_chunked.
    now apply (chunked_aligned Route.line_frames line_frames_empty).
  - rewrite !relay_loop_chunked.
    now apply (chunked_aligned Route.relay_line relay_line_empty).
Qed.

(** C3 (amended): when every read boundary falls right after a line
    feed byte, the page's read loop decodes the same payloads, in the
    same order, and ends with the same thinking and content strings as
    when the stream arrives as one read.  (The loop keeps no text
    between reads: it splits each read on line feeds and keeps the
    lines that start with [data:].) *)
Theorem page_same_events_when_cut_at_lines (h : Page.Home)
        (chunks : list bytes) :
  line_aligned chunks ->
  Page.stream_payloads new_TextDecoder chunks
  = Page.stream_payloads new_TextDecoder [List.concat chunks]
  /\ Page.thinking_var (Page.read_loop (Page.begin_turn h) chunks)
     = Page.thinking_var
         (Page.read_loop (Page.begin_turn h) [List.concat chunks])
  /\ Page.content_var (Page.read_loop (Page.begin_turn h) chunks)
     = Page.content_var
         (Page.read_loop (Page.begin_turn h) [List.concat chunks]).
Proof.
  intros Hal.
  assert (decoder_ok new_TextDecoder) as Hok by (unfold decoder_ok; simpl; lia).
  split.
  - rewrite !stream_payloads_chunked.
    now apply chunked_aligned.
  - rewrite (read_loop_aligned chunks (Page.begin_turn h) Hok Hal).
    split; reflexivity.
Qed.

End Fragmentation.

(* ================================================================== *)
(** * The transcript during a turn                                     *)
(* ================================================================== *)

Section Transcript.
Context {F : Float64}.

Lemma prefix_refl x : prefix x x.
Proof. exists []; now rewrite app_nil_r. Qed.

Lemma prefix_trans x y z : prefix x y -> prefix y z -> prefix x z.
Proof.
  intros [a ->] [b ->]. exists (a ++ b). now rewrite app_assoc.
Qed.

Lemma prefix_app x z : prefix x (x ++ z).
Proof. now exists z. Qed.

Lemma extends_refl s : extends s s.
Proof. split; apply prefix_refl. Qed.

Lemma append_only_snoc l : forall s1 s2,
  append_only (l ++ [s1]) -> extends s1 s2 ->
  append_only ((l ++ [s1]) ++ [s2]).
Proof.
  induction l as [|a l IH]; intros s1 s2 H E.
  - simpl. tauto.
  - change ((a :: l) ++ [s1]) with (a :: (l ++ [s1])) in *.
    change ((a :: l ++ [s1]) ++ [s2]) with (a :: ((l ++ [s1]) ++ [s2])).
    destruct H as [H1 H2]. split; [|now apply IH].
    destruct l; simpl in *; assumption.
Qed.

Lemma draft_content_replace_last d prev :
  draft_content (Page.replace_last d prev) = Page.content d.
Proof.
  unfold draft_content, Page.replace_last. now rewrite rev_unit.
Qed.

Lemma draft_thinking_replace_last d prev :
  draft_thinking (Page.replace_last d prev)
  = match Page.thinking d with Some s => s | None => [] end.
Proof.
  unfold draft_thinking, Page.replace_last. now rewrite rev_unit.
Qed.

Lemma append_if_truthy_prefix acc v r :
  Page.append_if_truthy acc v = Some r -> prefix acc r.
Proof.
  unfold Page.append_if_truthy.
  destruct (truthy v); [|intros [= <-]; apply prefix_refl].
  destruct v as [x|]; [|intros [= <-]; apply prefix_refl].
  destruct (ToString x); [|discriminate].
  intros [= <-]; apply prefix_app.
Qed.

Lemma extends_append_marker prev : extends prev (Page.append_marker prev).
Proof.
  unfold Page.append_marker.
  destruct (rev prev) as [|m r] eqn:E; [apply extends_refl|].
  unfold extends, draft_content, draft_thinking.
  rewrite rev_unit, E; simpl. split; [apply prefix_app|apply prefix_refl].
Qed.

Lemma begin_turn_inv h : turn_inv (Page.begin_turn h).
Proof.
  split; simpl.
  - now exists [].
  - auto.
  - unfold draft_content. rewrite rev_unit; simpl. apply prefix_refl.
  - unfold draft_thinking. rewrite rev_unit; simpl. apply prefix_refl.
  - intros E. apply (f_equal (@List.length _)) in E.
    rewrite length_app in E; simpl in E; lia.
Qed.

Lemma apply_payload_inv t json : turn_inv t -> turn_inv (Page.apply_payload t json).
Proof.
  intros [[p Hp] Hao Hc Ht Hd].
  unfold Page.apply_payload.
  destruct json; try (split; eauto; fail);
    (destruct (Page.append_if_truthy (Page.thinking_var t) _)
       as [thinking'|] eqn:Eth; [|split; eauto; fail];
     apply append_if_truthy_prefix in Eth;
     destruct (Page.append_if_truthy (Page.content_var t) _)
       as [content'|] eqn:Eco;
     [ apply append_if_truthy_prefix in Eco;
       split; unfold Page.setMessages; simpl;
       [ eexists; reflexivity
       | rewrite Hp in *; apply append_only_snoc; [assumption|];
         split; [rewrite draft_content_replace_last
                |rewrite draft_thinking_replace_last]; simpl;
         eapply prefix_trans; eassumption
       | rewrite draft_content_replace_last; apply prefix_refl
       | rewrite draft_thinking_replace_last; apply prefix_refl
       | unfold Page.replace_last; intros E;
         apply (f_equal (@List.length _)) in E;
         rewrite length_app in E; simpl in E; lia ]
     | split; simpl; eauto; eapply prefix_trans; eassumption ]).
Qed.

Lemma handle_line_inv t line : turn_inv t -> turn_inv (Page.handle_line t line).
Proof.
  intros H; unfold Page.handle_line.
  destruct (Page.decode_line line); try assumption.
  now apply apply_payload_inv.
Qed.

Lemma handle_text_inv text : forall t,
  turn_inv t -> turn_inv (Page.handle_text t text).
Proof.
  unfold Page.handle_text.
  induction (Page.data_lines text) as [|l ls IH]; intros t H; simpl;
    [assumption|].
  apply IH. now apply handle_line_inv.
Qed.

Lemma with_decoder_inv t td : turn_inv t -> turn_inv (Page.with_decoder t td).
Proof. intros [H1 H2 H3 H4 H5]; split; assumption. Qed.

Lemma handle_chunk_inv t c : turn_inv t -> turn_inv (Page.handle_chunk t c).
Proof.
  intros H; unfold Page.handle_chunk.
  destruct (decode_stream (Page.text_decoder t) c) as [td text].
  apply handle_text_inv. now apply with_decoder_inv.
Qed.

Lemma read_loop_inv chunks : forall t,
  turn_inv t -> turn_inv (Page.read_loop t chunks).
Proof.
  unfold Page.read_loop.
  induction chunks as [|c cs IH]; intros t H; simpl; [assumption|].
  apply IH. now apply handle_chunk_inv.
Qed.

(** The draft stays in the transcript all through the read loop: the
    updaters of [setMessages] always find a last message. *)
Lemma turn_keeps_a_draft h chunks :
  Page.messages (Page.home (Page.read_loop (Page.begin_turn h) chunks)) <> [].
Proof. apply read_loop_inv, begin_turn_inv. Qed.

Lemma try_block_inv h fetch : turn_inv (fst (Page.try_block h fetch)).
Proof.
  unfold Page.try_block.
  destruct (fetch _) as [r|ok body]; simpl; [apply begin_turn_inv|].
  destruct ok; [|apply begin_turn_inv].
  destruct body as [[chunks ending]|]; [|apply begin_turn_inv].
  destruct ending; simpl; apply read_loop_inv, begin_turn_inv.
Qed.

Lemma catch_append_only r t :
  turn_inv t -> append_only (Page.published (Page.catch r t)).
Proof.
  intros [[p Hp] Hao _ _ _].
  unfold Page.catch.
  destruct r as [|e]; simpl; [assumption|].
  destruct (Page.instanceof_Error e && _); [|assumption].
  simpl. rewrite Hp in *. apply append_only_snoc; [assumption|].
  apply extends_append_marker.
Qed.

(** C7: all through a turn the draft only grows.  Each snapshot that
    [handleSubmit] publishes has, as content and as thinking of its
    last message, a string that starts with the one of the snapshot
    before it. *)
Theorem draft_is_append_only (h : Page.Home)
        (fetch : jsstring -> Page.FetchOutcome) :
  append_only (Page.published (Page.handleSubmit h fetch)).
Proof.
  unfold Page.handleSubmit.
  destruct (Str.is_empty _ || _); [simpl; exact I|].
  pose proof (try_block_inv h fetch) as H.
  destruct (Page.try_block h fetch) as [t [r|]]; simpl in *.
  - now apply catch_append_only.
  - apply H.
Qed.

End Transcript.

(* ================================================================== *)
(** * How a turn ends                                                  *)
(* ================================================================== *)

Section Endings.
Context {F : Float64}.

Lemma not_AbortError_reported :
  Page.instanceof_Error Page.AbortError
  && negb (Str.eqb (Page.name Page.AbortError) (js "AbortError")) = false.
Proof. reflexivity. Qed.

Lemma handleSubmit_unfold h fetch :
  can_submit h = true ->
  Page.handleSubmit h fetch
  = match Page.try_block h fetch with
    | (t, None) => Page.finally t
    | (t, Some r) => Page.finally (Page.catch r t)
    end.
Proof.
  unfold can_submit, Page.handleSubmit; intros H.
  now destruct (Str.is_empty _ || _).
Qed.

Lemma apply_payload_controls t json :
  same_controls t (Page.apply_payload t json).
Proof.
  unfold Page.apply_payload, same_controls.
  destruct json; simpl; auto;
    repeat match goal with
           | |- context [match ?x with Some _ => _ | None => _ end] =>
               destruct x
           end; simpl; auto.
Qed.

Lemma same_controls_trans t u v :
  same_controls t u -> same_controls u v -> same_controls t v.
Proof.
  unfold same_controls; intros (A1 & A2 & A3 & A4) (B1 & B2 & B3 & B4).
  repeat split; congruence.
Qed.

Lemma same_controls_refl t : same_controls t t.
Proof. unfold same_controls; auto. Qed.

Lemma handle_line_controls t line :
  same_controls t (Page.handle_line t line).
Proof.
  unfold Page.handle_line.
  destruct (Page.decode_line line); try apply same_controls_refl.
  apply apply_payload_controls.
Qed.

Lemma handle_chunk_controls t c : same_controls t (Page.handle_chunk t c).
Proof.
  unfold Page.handle_chunk.
  destruct (decode_stream (Page.text_decoder t) c) as [td text].
  unfold Page.handle_text.
  apply same_controls_trans with (Page.with_decoder t td);
    [unfold same_controls; auto|].
  generalize (Page.with_decoder t td).
  induction (Page.data_lines text) as [|l ls IH]; intros u; simpl;
    [apply same_controls_refl|].
  eapply same_controls_trans; [apply handle_line_controls|apply IH].
Qed.

Lemma read_loop_controls chunks : forall t,
  same_controls t (Page.read_loop t chunks).
Proof.
  unfold Page.read_loop.
  induction chunks as [|c cs IH]; intros t; simpl;
    [apply same_controls_refl|].
  eapply same_controls_trans; [apply handle_chunk_controls|apply IH].
Qed.

Lemma try_block_console h fetch :
  Page.console (fst (Page.try_block h fetch)) = [].
Proof.
  unfold Page.try_block.
  destruct (fetch _) as [r|[] [[chunks ending]|]]; try reflexivity.
  destruct (read_loop_controls chunks (Page.begin_turn h)) as (Hcon & _).
  destruct ending; exact Hcon.
Qed.

(** C8: the user stops a turn whose read loop has handled [chunks].
    The transcript is the one the loop left (nothing is taken back,
    nothing is added: no snapshot after the loop's last one, no error
    marker, nothing on the console), the accumulated strings are
    untouched, and the loading flag is down, already when [handleStop]
    returns and still when [handleSubmit] does: the turn has ended as it
    would have at the end of the stream. *)
Theorem stop_keeps_what_was_applied (h : Page.Home)
        (fetch : jsstring -> Page.FetchOutcome) (chunks : list bytes) :
  can_submit h = true ->
  fetch (Page.request_body (Page.newMessages h))
  = Page.FetchResolves true (Some (chunks, Page.ReadRejects Page.UserStop)) ->
  let applied := Page.read_loop (Page.begin_turn h) chunks in
  let stopped := Page.handleSubmit h fetch in
  Page.messages (Page.home stopped) = Page.messages (Page.home applied)
  /\ Page.published stopped = Page.published applied
  /\ Page.content_var stopped = Page.content_var applied
  /\ Page.thinking_var stopped = Page.thinking_var applied
  /\ Page.console stopped = []
  /\ Page.isLoading (Page.handleStop (Page.home applied)) = false
  /\ Page.isLoading (Page.home stopped) = false
  /\ Page.abortRef (Page.home stopped) = false
  /\ stopped
     = Page.handleSubmit h (fun _ =>
         Page.FetchResolves true (Some (chunks, Page.EndOfStream))).
Proof.
  intros Hgo Hfetch applied stopped; subst applied stopped.
  rewrite !handleSubmit_unfold by assumption.
  unfold Page.try_block. rewrite Hfetch.
  cbn [Page.catch Page.finally Page.with_home Page.home Page.messages
       Page.published Page.content_var Page.thinking_var Page.console
       Page.isLoading Page.abortRef Page.handleStop].
  rewrite not_AbortError_reported.
  cbn [Page.catch Page.finally Page.with_home Page.home Page.messages
       Page.published Page.content_var Page.thinking_var Page.console
       Page.isLoading Page.abortRef Page.handleStop Page.input
       Page.text_decoder].
  destruct (read_loop_controls chunks (Page.begin_turn h)) as (Hcon & _).
  simpl in Hcon.
  repeat split; assumption.
Qed.

Lemma draft_content_append_marker prev :
  prev <> [] ->
  draft_content (Page.append_marker prev)
  = draft_content prev ++ Page.error_marker.
Proof.
  intros Hne. unfold Page.append_marker, draft_content.
  destruct (rev prev) as [|m r] eqn:E.
  - apply (f_equal (@rev _)) in E. rewrite rev_involutive in E.
    contradiction.
  - now rewrite rev_unit.
Qed.

(** C9 (amended): the marker goes in exactly when the [try] block
    throws an [Error] whose name is not [AbortError], whether a read
    rejected mid-stream, [fetch] rejected, or the response came without
    success status or body before any read.  Then the marker is put
    after the draft's content in one more snapshot, the error is logged
    once and not thrown again.  In every other ending (end of stream,
    user stop, something thrown that is no such [Error]) the transcript
    stays as the [try] block left it and nothing is logged.  Either way
    the loading flag is down. *)
Theorem marker_exactly_when_reported (h : Page.Home)
        (fetch : jsstring -> Page.FetchOutcome) :
  can_submit h = true ->
  let tried := fst (Page.try_block h fetch) in
  let thrown := snd (Page.try_block h fetch) in
  let final := Page.handleSubmit h fetch in
  Page.isLoading (Page.home final) = false
  /\ Page.abortRef (Page.home final) = false
  /\ match reported thrown with
     | Some e =>
         Page.messages (Page.home final)
         = Page.append_marker (Page.messages (Page.home tried))
         /\ draft_content (Page.messages (Page.home final))
            = draft_content (Page.messages (Page.home tried))
              ++ Page.error_marker
         /\ Page.published final
            = Page.published tried ++ [Page.messages (Page.home final)]
         /\ Page.console final = [e]
     | None =>
         Page.messages (Page.home final) = Page.messages (Page.home tried)
         /\ Page.published final = Page.published tried
         /\ Page.console final = []
     end.
Proof.
  intros Hgo tried thrown final; subst tried thrown final.
  rewrite handleSubmit_unfold by assumption.
  pose proof (try_block_inv h fetch) as Hinv.
  pose proof (try_block_console h fetch) as Hcon.
  destruct (Page.try_block h fetch) as [t r]; simpl in Hinv, Hcon.
  cbn [fst snd].
  destruct r as [[|e]|]; cbn [reported].
  - unfold Page.catch. rewrite not_AbortError_reported. simpl. auto.
  - unfold Page.catch.
    destruct (Page.instanceof_Error e && _); simpl.
    + rewrite Hcon. repeat split.
      apply draft_content_append_marker, Hinv.
    + auto.
  - simpl. auto.
Qed.

End Endings.

(* ================================================================== *)
(** * The responses of [POST]                                          *)
(* ================================================================== *)

Section Responses.
Context {F : Float64}.

Lemma POST_try_cases request_json fetch :
  match Route.POST_try request_json fetch with
  | Route.Throws =>
      request_json = Route.JsonRejects
      \/ request_json = Route.JsonResolves JNull
      \/ exists v, request_json = Route.JsonResolves v
                   /\ fetch (Route.ollama_init v) = Route.FetchRejects
  | Route.Returns response =>
      exists v, request_json = Route.JsonResolves v /\ v <> JNull
        /\ match fetch (Route.ollama_init v) with
           | Route.FetchResolves true (Some upstream) =>
               response
               = {| Route.status := 200;
                    Route.headers :=
                      [(js "Content-Type", js "text/event-stream");
                       (js "Cache-Control", js "no-cache");
                       (js "Connection", js "keep-alive")];
                    Route.body := Route.StreamBody (Route.start upstream) |}
           | Route.FetchResolves _ _ =>
               response
               = Route.Response_json_error (js "Ollama 连接失败") 500
           | Route.FetchRejects => False
           end
  end.
Proof.
  destruct request_json as [|v]; simpl; [now left|].
  destruct v; simpl; try (right; now left);
    match goal with
    | |- context [fetch ?i] =>
        destruct (fetch i) as [|[] [up|]] eqn:E
    end;
    try (right; right; eexists; split; [reflexivity|exact E]);
    (eexists; split; [reflexivity|]; split; [discriminate|]);
    rewrite E; reflexivity.
Qed.

(** C5: whatever the request, when the backend fails for the request
    that [POST] sends it (it cannot be reached, or it answers without
    success status or without body), [POST] returns one response that
    is not a stream: status 500 and a JSON body with the one property
    [error], a string, which is the message of lines 79-81 when the
    backend has answered.  When the backend answers that request with
    success and a body, [POST] returns status 200 with [Content-Type:
    text/event-stream] and the stream. *)
Theorem POST_500_or_event_stream (request_json : Route.RequestJson)
        (fetch : Route.FetchInit -> Route.FetchResult) :
  ((forall v, request_json = Route.JsonResolves v ->
              backend_failed (fetch (Route.ollama_init v)) = true) ->
   Route.status (Route.POST request_json fetch) = 500
   /\ exists error,
       Route.body (Route.POST request_json fetch)
       = Route.JsonBody
           (stringify_literal [(js "error", Some (JString error))])
       /\ forall v ok upstream,
           request_json = Route.JsonResolves v -> v <> JNull ->
           fetch (Route.ollama_init v) = Route.FetchResolves ok upstream ->
           error = js "Ollama 连接失败")
  /\ (forall v upstream,
        request_json = Route.JsonResolves v -> v <> JNull ->
        fetch (Route.ollama_init v)
        = Route.FetchResolves true (Some upstream) ->
        Route.status (Route.POST request_json fetch) = 200
        /\ In (js "Content-Type", js "text/event-stream")
              (Route.headers (Route.POST request_json fetch))
        /\ Route.body (Route.POST request_json fetch)
           = Route.StreamBody (Route.start upstream)).
Proof.
  pose proof (POST_try_cases request_json fetch) as H.
  unfold Route.POST. split.
  - intros Hfail.
    destruct (Route.POST_try request_json fetch) as [response|].
    + destruct H as (v & -> & _ & H).
      specialize (Hfail v eq_refl).
      destruct (fetch (Route.ollama_init v)) as [|[] [up|]];
        try discriminate; try contradiction; subst response;
        (split; [reflexivity|eexists; split; [reflexivity|reflexivity]]).
    + split; [reflexivity|]. eexists; split; [reflexivity|].
      intros v ok upstream -> Hv Hfetch.
      destruct H as [H|[H|(v' & [= <-] & H)]]; congruence.
  - intros v upstream -> Hv Hfetch.
    destruct (Route.POST_try (Route.JsonResolves v) fetch) as [response|].
    + destruct H as (v' & [= <-] & _ & H). rewrite Hfetch in H.
      subst response; simpl. repeat split. now left.
    + destruct H as [H|[H|(v' & [= <-] & H)]]; congruence.
Qed.

(** C10: when the request body is not JSON ([request.json()] rejects),
    when it is [null] (destructuring throws) or when [fetch] rejects,
    the [try] block throws before any stream is made, [POST] catches it
    and returns status 500 with the fixed JSON body; [POST] returns a
    response in every case. *)
Theorem POST_catches_what_is_thrown (request_json : Route.RequestJson)
        (fetch : Route.FetchInit -> Route.FetchResult) :
  request_json = Route.JsonRejects
  \/ request_json = Route.JsonResolves JNull
  \/ (forall init, fetch init = Route.FetchRejects) ->
  Route.POST_try request_json fetch = Route.Throws
  /\ Route.POST request_json fetch
     = {| Route.status := 500;
          Route.headers := [(js "content-type", js "application/json")];
          Route.body := Route.JsonBody (jsq "{'error':'服务器内部错误'}") |}.
Proof.
  intros H.
  assert (Route.POST_try request_json fetch = Route.Throws) as E.
  { destruct H as [->|[->|H]]; try reflexivity.
    pose proof (POST_try_cases request_json fetch) as C.
    destruct (Route.POST_try request_json fetch) as [response|];
      [|reflexivity].
    destruct C as (v & _ & _ & C). now rewrite H in C. }
  split; [exact E|].
  unfold Route.POST. rewrite E. reflexivity.
Qed.

End Responses.

(* ================================================================== *)
(** * The wire: UTF-8 there and back                                   *)
(* ================================================================== *)

Ltac arith := Z.div_mod_to_equations; lia.

Section Bits.

Lemma in_range_true lo hi x : lo <= x <= hi -> in_range lo hi x = true.
Proof. intros H; unfold in_range; apply andb_true_iff; split; apply Z.leb_le; lia. Qed.

Lemma in_range_false lo hi x : x < lo \/ hi < x -> in_range lo hi x = false.
Proof.
  intros H; unfold in_range; apply andb_false_iff.
  destruct H; [left|right]; apply Z.leb_gt; lia.
Qed.

Lemma in_range_spec lo hi x : reflect (lo <= x <= hi) (in_range lo hi x).
Proof.
  destruct (in_range lo hi x) eqn:E; constructor; unfold in_range in E.
  - apply andb_true_iff in E; destruct E as [A B].
    apply Z.leb_le in A, B; lia.
  - apply andb_false_iff in E; destruct E as [A|A]; apply Z.leb_gt in A; lia.
Qed.

(** The low [k] bits. *)
Lemma land_low k x : 0 <= k -> Z.land x (2 ^ k - 1) = x mod 2 ^ k.
Proof.
  intros Hk. rewrite <- Z.land_ones by assumption.
  now rewrite Z.ones_equiv, <- Z.sub_1_r.
Qed.

(** Bits that do not overlap add up. *)
Lemma lor_high_low k m x :
  0 <= k -> 0 <= x < 2 ^ k -> Z.lor (m * 2 ^ k) x = m * 2 ^ k + x.
Proof.
  intros Hk Hx.
  rewrite <- Z.add_lor_land.
  assert (Z.land (m * 2 ^ k) x = 0) as ->; [|lia].
  replace x with (Z.land x (Z.ones k)) at 1
    by (rewrite Z.land_ones by assumption; apply Z.mod_small; lia).
  rewrite (Z.land_comm x), Z.land_assoc, Z.land_ones by assumption.
  now rewrite Z.mod_mul by lia.
Qed.

Lemma land_63 x : Z.land x 0x3F = x mod 64.
Proof. exact (land_low 6 x ltac:(lia)). Qed.
Lemma land_31 x : Z.land x 0x1F = x mod 32.
Proof. exact (land_low 5 x ltac:(lia)). Qed.
Lemma land_15 x : Z.land x 0xF = x mod 16.
Proof. exact (land_low 4 x ltac:(lia)). Qed.
Lemma land_7 x : Z.land x 0x7 = x mod 8.
Proof. exact (land_low 3 x ltac:(lia)). Qed.
Lemma land_1023 x : Z.land x 0x3FF = x mod 1024.
Proof. exact (land_low 10 x ltac:(lia)). Qed.

Lemma shiftr_6 x : Z.shiftr x 6 = x / 64.
Proof. now rewrite Z.shiftr_div_pow2 by lia. Qed.
Lemma shiftr_10 x : Z.shiftr x 10 = x / 1024.
Proof. now rewrite Z.shiftr_div_pow2 by lia. Qed.
Lemma shiftr_12 x : Z.shiftr x 12 = x / 4096.
Proof. now rewrite Z.shiftr_div_pow2 by lia. Qed.
Lemma shiftr_18 x : Z.shiftr x 18 = x / 262144.
Proof. now rewrite Z.shiftr_div_pow2 by lia. Qed.
Lemma shiftl_6 x : Z.shiftl x 6 = x * 64.
Proof. now rewrite Z.shiftl_mul_pow2 by lia. Qed.
Lemma shiftl_10 x : Z.shiftl x 10 = x * 1024.
Proof. now rewrite Z.shiftl_mul_pow2 by lia. Qed.

(** A continuation byte: [0x80 | low six bits]. *)
Lemma continuation_byte x : Z.lor 0x80 (Z.land x 0x3F) = 128 + x mod 64.
Proof.
  rewrite land_63.
  exact (lor_high_low 6 2 (x mod 64) ltac:(lia) (Z.mod_pos_bound x 64 ltac:(lia))).
Qed.

(** What a continuation byte adds to the code point. *)
Lemma continuation_value acc x :
  Z.lor (Z.shiftl acc 6) (Z.land (128 + x mod 64) 0x3F) = acc * 64 + x mod 64.
Proof.
  rewrite shiftl_6, land_63.
  replace ((128 + x mod 64) mod 64) with (x mod 64)
    by (pose proof (Z.mod_pos_bound x 64); Z.div_mod_to_equations; lia).
  exact (lor_high_low 6 acc (x mod 64) ltac:(lia) (Z.mod_pos_bound x 64 ltac:(lia))).
Qed.

End Bits.

Section Utf8.

Lemma step_ascii b : 0 <= b <= 0x7F -> utf8_step utf8_init b = (utf8_init, [b]).
Proof.
  intros H. unfold utf8_step, utf8_handler; simpl.
  now rewrite (in_range_true 0 127 b) by lia.
Qed.

Lemma step_lead2 b :
  0xC2 <= b <= 0xDF ->
  utf8_step utf8_init b = (mkUtf8 (b mod 32) 0 1 0x80 0xBF, []).
Proof.
  intros H. unfold utf8_step, utf8_handler; simpl.
  rewrite (in_range_false 0 127 b), (in_range_true 194 223 b) by lia.
  now rewrite <- land_31.
Qed.

Lemma step_lead3 b :
  0xE0 <= b <= 0xEF ->
  utf8_step utf8_init b
  = (mkUtf8 (b mod 16) 0 2 (if b =? 0xE0 then 0xA0 else 0x80)
            (if b =? 0xED then 0x9F else 0xBF), []).
Proof.
  intros H. unfold utf8_step, utf8_handler; simpl.
  rewrite (in_range_false 0 127 b), (in_range_false 194 223 b),
    (in_range_true 224 239 b) by lia.
  now rewrite <- land_15.
Qed.

Lemma step_lead4 b :
  0xF0 <= b <= 0xF4 ->
  utf8_step utf8_init b
  = (mkUtf8 (b mod 8) 0 3 (if b =? 0xF0 then 0x90 else 0x80)
            (if b =? 0xF4 then 0x8F else 0xBF), []).
Proof.
  intros H. unfold utf8_step, utf8_handler; simpl.
  rewrite (in_range_false 0 127 b), (in_range_false 194 223 b),
    (in_range_false 224 239 b), (in_range_true 240 244 b) by lia.
  now rewrite <- land_7.
Qed.

Lemma step_continuation acc seen needed lo hi x :
  needed <> 0 -> lo <= 128 + x mod 64 <= hi -> seen + 1 <> needed ->
  utf8_step (mkUtf8 acc seen needed lo hi) (128 + x mod 64)
  = (mkUtf8 (acc * 64 + x mod 64) (seen + 1) needed 0x80 0xBF, []).
Proof.
  intros Hn Hr Hs. unfold utf8_step, utf8_handler.
  cbn [bytes_needed lower_boundary upper_boundary code_point bytes_seen].
  apply Z.eqb_neq in Hn, Hs. rewrite Hn, Hs, in_range_true by assumption.
  cbn [negb]. now rewrite continuation_value.
Qed.

Lemma step_last_continuation acc seen needed lo hi x :
  needed <> 0 -> lo <= 128 + x mod 64 <= hi -> seen + 1 = needed ->
  utf8_step (mkUtf8 acc seen needed lo hi) (128 + x mod 64)
  = (utf8_init, [acc * 64 + x mod 64]).
Proof.
  intros Hn Hr Hs. unfold utf8_step, utf8_handler.
  cbn [bytes_needed lower_boundary upper_boundary code_point bytes_seen].
  apply Z.eqb_neq in Hn. apply Z.eqb_eq in Hs.
  rewrite Hn, Hs, in_range_true by assumption.
  cbn [negb]. now rewrite continuation_value.
Qed.

(** The decoder gives back the scalar value the encoder was given. *)
Lemma utf8_run_encode cp bs :
  is_scalar cp ->
  utf8_run utf8_init (utf8_encode cp ++ bs)
  = (fst (utf8_run utf8_init bs), cp :: snd (utf8_run utf8_init bs)).
Proof.
  intros [Hr Hs]. unfold utf8_encode.
  destruct (in_range_spec 0 0x7F cp) as [H1|H1].
  { cbn [app utf8_run]. rewrite step_ascii by assumption.
    now destruct (utf8_run utf8_init bs). }
  destruct (in_range_spec 0x80 0x7FF cp) as [H2|H2].
  { rewrite shiftr_6, continuation_byte. cbn [app utf8_run].
    rewrite step_lead2 by arith.
    rewrite step_last_continuation by arith.
    destruct (utf8_run utf8_init bs) as [d o]; simpl.
    do 2 f_equal. arith. }
  destruct (in_range_spec 0x800 0xFFFF cp) as [H3|H3].
  { rewrite !continuation_byte, shiftr_6, shiftr_12. cbn [app utf8_run].
    rewrite step_lead3 by arith.
    rewrite step_continuation;
      [|lia| |lia].
    2:{ destruct (Z.eqb_spec (cp / 4096 + 224) 224),
                 (Z.eqb_spec (cp / 4096 + 224) 237); arith. }
    rewrite step_last_continuation by arith.
    destruct (utf8_run utf8_init bs) as [d o]; simpl.
    do 2 f_equal. arith. }
  rewrite !continuation_byte, shiftr_6, shiftr_12, shiftr_18.
  cbn [app utf8_run].
  rewrite step_lead4 by arith.
  rewrite step_continuation; [|lia| |lia].
  2:{ destruct (Z.eqb_spec (cp / 262144 + 240) 240),
               (Z.eqb_spec (cp / 262144 + 240) 244); arith. }
  rewrite step_continuation by arith.
  rewrite step_last_continuation by arith.
  destruct (utf8_run utf8_init bs) as [d o]; simpl.
  do 2 f_equal. arith.
Qed.

End Utf8.

Section Utf16.

Lemma list_ind2 {A} (P : list A -> Prop) :
  P [] -> (forall c, P [c]) ->
  (forall c d r, P r -> P (d :: r) -> P (c :: d :: r)) ->
  forall s, P s.
Proof.
  intros H0 H1 H2 s.
  enough (P s /\ forall c, P (c :: s)) by tauto.
  induction s as [|d r [IH1 IH2]]; split; auto.
Qed.

Lemma utf8_run_encode_all cps :
  Forall is_scalar cps ->
  utf8_run utf8_init (flat_map utf8_encode cps) = (utf8_init, cps).
Proof.
  induction 1 as [|cp cps Hcp _ IH]; simpl; [reflexivity|].
  now rewrite utf8_run_encode, IH.
Qed.

Lemma is_lead_spec c : reflect (0xD800 <= c <= 0xDBFF) (is_lead c).
Proof. apply in_range_spec. Qed.

Lemma is_trail_spec c : reflect (0xDC00 <= c <= 0xDFFF) (is_trail c).
Proof. apply in_range_spec. Qed.

Lemma scalar_values_scalar s :
  code_units_ok s -> Forall is_scalar (scalar_values s).
Proof.
  unfold code_units_ok, is_scalar.
  induction s as [|c|c d r IHr IHd] using list_ind2; intros H.
  - constructor.
  - inversion H as [|? ? Hc _]; subst. simpl.
    destruct (is_lead_spec c); [repeat constructor; lia|].
    destruct (is_trail_spec c); repeat constructor; lia.
  - inversion H as [|? ? Hc H']; subst.
    inversion H' as [|? ? Hd H'']; subst.
    change (scalar_values (c :: d :: r))
      with (if is_lead c
            then if is_trail d
                 then (0x10000 + Z.shiftl (c - 0xD800) 10 + (d - 0xDC00))
                        :: scalar_values r
                 else 0xFFFD :: scalar_values (d :: r)
            else if is_trail c then 0xFFFD :: scalar_values (d :: r)
                 else c :: scalar_values (d :: r)).
    destruct (is_lead_spec c).
    + destruct (is_trail_spec d); constructor; auto; try lia.
      rewrite shiftl_10. lia.
    + destruct (is_trail_spec c); constructor; auto; lia.
Qed.

Lemma code_units_pair c d :
  0xD800 <= c <= 0xDBFF -> 0xDC00 <= d <= 0xDFFF ->
  code_units (0x10000 + Z.shiftl (c - 0xD800) 10 + (d - 0xDC00)) = [c; d].
Proof.
  intros Hc Hd. unfold code_units. rewrite shiftl_10.
  destruct (Z.ltb_spec (65536 + (c - 55296) * 1024 + (d - 56320)) 65536);
    [lia|].
  rewrite shiftr_10, land_1023. f_equal; [|f_equal]; arith.
Qed.

(** On well-formed UTF-16 the scalar values carry the whole string. *)
Lemma code_units_scalar_values s :
  well_formed s = true -> flat_map code_units (scalar_values s) = s.
Proof.
  induction s as [|c|c d r IHr IHd] using list_ind2; intros H.
  - reflexivity.
  - simpl in *. destruct (is_lead c); [discriminate|].
    destruct (is_trail_spec c); [discriminate|].
    rewrite andb_true_r in H. simpl in H.
    destruct (in_range_spec 0 65535 c); [|discriminate].
    simpl. unfold code_units.
    destruct (Z.ltb_spec c 65536); [reflexivity|lia].
  - change (well_formed (c :: d :: r))
      with (if is_lead c then is_trail d && well_formed r
            else negb (is_trail c) && in_range 0 0xFFFF c
                 && well_formed (d :: r)) in H.
    change (scalar_values (c :: d :: r))
      with (if is_lead c
            then if is_trail d
                 then (0x10000 + Z.shiftl (c - 0xD800) 10 + (d - 0xDC00))
                        :: scalar_values r
                 else 0xFFFD :: scalar_values (d :: r)
            else if is_trail c then 0xFFFD :: scalar_values (d :: r)
                 else c :: scalar_values (d :: r)).
    destruct (is_lead_spec c).
    + destruct (is_trail_spec d); [|discriminate].
      cbn [flat_map]. rewrite code_units_pair by assumption.
      simpl in H. now rewrite IHr.
    + destruct (is_trail_spec c); [discriminate|].
      destruct (in_range_spec 0 65535 c); [|discriminate].
      cbn [flat_map]. rewrite IHd by exact H.
      unfold code_units. destruct (Z.ltb_spec c 65536); [reflexivity|lia].
Qed.

Lemma well_formed_ok s : well_formed s = true -> code_units_ok s.
Proof.
  unfold code_units_ok.
  induction s as [|c|c d r IHr IHd] using list_ind2; intros H.
  - constructor.
  - simpl in H. destruct (is_lead c); [discriminate|].
    apply andb_true_iff in H; destruct H as [H _].
    apply andb_true_iff in H; destruct H as [_ H].
    destruct (in_range_spec 0 65535 c); [|discriminate].
    repeat constructor; lia.
  - change (well_formed (c :: d :: r))
      with (if is_lead c then is_trail d && well_formed r
            else negb (is_trail c) && in_range 0 0xFFFF c
                 && well_formed (d :: r)) in H.
    destruct (is_lead_spec c).
    + apply andb_true_iff in H; destruct H as [Hd Hr].
      destruct (is_trail_spec d); [|discriminate].
      constructor; [lia|]. constructor; [lia|]. now apply IHr.
    + apply andb_true_iff in H; destruct H as [H Hr].
      apply andb_true_iff in H; destruct H as [_ H].
      destruct (in_range_spec 0 65535 c); [|discriminate].
      constructor; [lia|]. now apply IHd.
Qed.

(** What [TextEncoder] writes, a [TextDecoder] that has seen the start of
    the stream reads back. *)
Lemma decode_encode s :
  well_formed s = true ->
  decode_stream (mkDecoder utf8_init true) (encode s)
  = (mkDecoder utf8_init true, s).
Proof.
  intros H. unfold decode_stream, encode; cbn [decoder bom_seen].
  rewrite utf8_run_encode_all
    by (apply scalar_values_scalar, well_formed_ok, H).
  rewrite <- (code_units_scalar_values s H) at 2.
  now destruct (scalar_values s).
Qed.

Lemma scalar_values_plain c s :
  is_lead c = false -> is_trail c = false ->
  scalar_values (c :: s) = c :: scalar_values s.
Proof. intros Hl Ht. cbn [scalar_values]. now rewrite Hl, Ht. Qed.

(** The same for a new [TextDecoder], when the text does not start with
    a byte order mark. *)
Lemma decode_encode_new c s :
  well_formed (c :: s) = true -> is_lead c = false -> c <> 0xFEFF ->
  decode_stream new_TextDecoder (encode (c :: s))
  = (mkDecoder utf8_init true, c :: s).
Proof.
  intros H Hl Hb. unfold decode_stream, encode, new_TextDecoder;
    cbn [decoder bom_seen].
  rewrite utf8_run_encode_all
    by (apply scalar_values_scalar, well_formed_ok, H).
  rewrite <- (code_units_scalar_values (c :: s) H) at 2.
  assert (is_trail c = false) as Ht.
  { cbn [well_formed] in H. rewrite Hl in H. now destruct (is_trail c). }
  rewrite scalar_values_plain by assumption.
  cbn [strip_bom]. apply Z.eqb_neq in Hb. now rewrite Hb.
Qed.

Lemma well_formed_app a : forall b,
  well_formed a = true -> well_formed b = true -> well_formed (a ++ b) = true.
Proof.
  induction a as [|c|c d r IHr IHd] using list_ind2; intros b Ha Hb.
  - exact Hb.
  - simpl in *. destruct (is_lead c); [discriminate|].
    apply andb_true_iff in Ha; destruct Ha as [Ha _].
    now rewrite Ha, Hb.
  - change (well_formed (c :: d :: r))
      with (if is_lead c then is_trail d && well_formed r
            else negb (is_trail c) && in_range 0 0xFFFF c
                 && well_formed (d :: r)) in Ha.
    change (well_formed ((c :: d :: r) ++ b))
      with (if is_lead c then is_trail d && well_formed (r ++ b)
            else negb (is_trail c) && in_range 0 0xFFFF c
                 && well_formed ((d :: r) ++ b)).
    destruct (is_lead c).
    + apply andb_true_iff in Ha; destruct Ha as [Hd Hr].
      now rewrite Hd, IHr.
    + apply andb_true_iff in Ha; destruct Ha as [Hc Hr].
      now rewrite Hc, IHd.
Qed.

End Utf16.

(* ================================================================== *)
(** * JSON strings and objects there and back                          *)
(* ================================================================== *)

Section JsonStrings.
Context {F : Float64}.

Lemma hex_digit_bounds n :
  0 <= n < 16 -> 48 <= hex_digit n <= 57 \/ 97 <= hex_digit n <= 102.
Proof.
  intros H. unfold hex_digit. destruct (Z.ltb_spec n 10); lia.
Qed.

Lemma hex_value_digit n : 0 <= n < 16 -> hex_value (hex_digit n) = Some n.
Proof.
  intros H. unfold hex_digit, hex_value.
  destruct (Z.ltb_spec n 10).
  - rewrite in_range_true by lia. f_equal; lia.
  - rewrite in_range_false, in_range_true by lia. f_equal; lia.
Qed.

Lemma hex4_unicode_escape c :
  0 <= c <= 0xFFFF ->
  hex4 (hex_digit (c / 4096)) (hex_digit (c / 256 mod 16))
       (hex_digit (c / 16 mod 16)) (hex_digit (c mod 16)) = Some c.
Proof.
  intros H. unfold hex4.
  rewrite !hex_value_digit by arith. f_equal. arith.
Qed.

(** ** What [parse_string_chars] does with what [quote_chars] writes *)

Lemma parse_plain c r :
  c <> 34 -> c <> 92 -> 0x20 <= c ->
  parse_string_chars (c :: r) = prepend c (parse_string_chars r).
Proof.
  intros H1 H2 H3. cbn [parse_string_chars].
  apply Z.eqb_neq in H1, H2. rewrite H1, H2.
  now destruct (Z.ltb_spec c 32); [lia|].
Qed.

Lemma parse_unicode_escape c r :
  0 <= c <= 0xFFFF ->
  parse_string_chars (unicode_escape c ++ r)
  = prepend c (parse_string_chars r).
Proof.
  intros H. unfold unicode_escape. cbn [app parse_string_chars].
  change (92 =? 34) with false. change (92 =? 92) with true.
  change (117 =? 34) with false. change (117 =? 92) with false.
  change (117 =? 47) with false. change (117 =? 98) with false.
  change (117 =? 102) with false. change (117 =? 110) with false.
  change (117 =? 114) with false. change (117 =? 116) with false.
  change (117 =? 117) with true. cbv iota.
  now rewrite hex4_unicode_escape.
Qed.

Lemma parse_quote_chars s : forall rest,
  code_units_ok s ->
  parse_string_chars (quote_chars s ++ 34 :: rest) = Some (s, rest).
Proof.
  unfold code_units_ok.
  assert (forall c r rest,
             0 <= c <= 0xFFFF ->
             parse_string_chars (quote_chars r ++ 34 :: rest) = Some (r, rest) ->
             (forall d r', r = d :: r' -> is_lead c = true ->
                           is_trail d = true -> False) ->
             parse_string_chars (quote_chars (c :: r) ++ 34 :: rest)
             = Some (c :: r, rest)) as Hstep.
  { intros c r rest Hc IH Hpair. cbn [quote_chars].
    destruct (Z.eqb_spec c 8) as [->|]; [cbn; now rewrite IH|].
    destruct (Z.eqb_spec c 9) as [->|]; [cbn; now rewrite IH|].
    destruct (Z.eqb_spec c 10) as [->|]; [cbn; now rewrite IH|].
    destruct (Z.eqb_spec c 12) as [->|]; [cbn; now rewrite IH|].
    destruct (Z.eqb_spec c 13) as [->|]; [cbn; now rewrite IH|].
    destruct (Z.eqb_spec c 34) as [->|]; [cbn; now rewrite IH|].
    destruct (Z.eqb_spec c 92) as [->|]; [cbn; now rewrite IH|].
    destruct (Z.ltb_spec c 32).
    { rewrite <- app_assoc, parse_unicode_escape, IH by lia. reflexivity. }
    destruct (is_lead c) eqn:El.
    { destruct r as [|d r'].
      - rewrite parse_unicode_escape by lia. reflexivity.
      - destruct (is_trail d) eqn:Et; [exfalso; eapply Hpair; eauto|].
        rewrite <- app_assoc, parse_unicode_escape, IH by lia. reflexivity. }
    destruct (is_trail c).
    { rewrite <- app_assoc, parse_unicode_escape, IH by lia. reflexivity. }
    cbn [app]. rewrite parse_plain, IH by lia. reflexivity. }
  induction s as [|c|c d r IHr IHd] using list_ind2; intros rest H.
  - reflexivity.
  - inversion H; subst. apply Hstep; [assumption|reflexivity|discriminate].
  - inversion H as [|? ? Hc H']; subst.
    inversion H' as [|? ? Hd H'']; subst.
    destruct (is_lead c && is_trail d) eqn:E.
    + apply andb_true_iff in E; destruct E as [El Et].
      assert (0xD800 <= c <= 0xDBFF) as Rc
          by (destruct (is_lead_spec c); [assumption|discriminate]).
      assert (0xDC00 <= d <= 0xDFFF) as Rd
          by (destruct (is_trail_spec d); [assumption|discriminate]).
      cbn [quote_chars].
      destruct (Z.eqb_spec c 8); [lia|]. destruct (Z.eqb_spec c 9); [lia|].
      destruct (Z.eqb_spec c 10); [lia|]. destruct (Z.eqb_spec c 12); [lia|].
      destruct (Z.eqb_spec c 13); [lia|]. destruct (Z.eqb_spec c 34); [lia|].
      destruct (Z.eqb_spec c 92); [lia|]. destruct (Z.ltb_spec c 32); [lia|].
      rewrite El, Et. cbn [app].
      rewrite !parse_plain by lia. now rewrite IHr.
    + apply Hstep; [assumption|now apply IHd|].
      intros d' r' [= <- <-] El Et. now rewrite El, Et in E.
Qed.

Lemma well_formed_plain c r :
  0 <= c < 0xD800 -> well_formed (c :: r) = well_formed r.
Proof.
  intros H. cbn [well_formed]. unfold is_lead, is_trail.
  now rewrite !in_range_false, in_range_true by lia.
Qed.

Lemma well_formed_unicode_escape c r :
  0 <= c <= 0xFFFF ->
  well_formed (unicode_escape c ++ r) = well_formed r.
Proof.
  intros H. unfold unicode_escape. cbn [app].
  pose proof (hex_digit_bounds (c / 4096)).
  pose proof (hex_digit_bounds (c / 256 mod 16)).
  pose proof (hex_digit_bounds (c / 16 mod 16)).
  pose proof (hex_digit_bounds (c mod 16)).
  rewrite !well_formed_plain; [reflexivity|arith..].
Qed.

Lemma quote_chars_well_formed s :
  code_units_ok s -> well_formed (quote_chars s) = true.
Proof.
  unfold code_units_ok.
  assert (forall c r,
             0 <= c <= 0xFFFF -> well_formed (quote_chars r) = true ->
             (forall d r', r = d :: r' -> is_lead c = true ->
                           is_trail d = true -> False) ->
             well_formed (quote_chars (c :: r)) = true) as Hstep.
  { intros c r Hc IH Hpair. cbn [quote_chars].
    destruct (Z.eqb_spec c 8); [now rewrite !well_formed_plain by lia|].
    destruct (Z.eqb_spec c 9); [now rewrite !well_formed_plain by lia|].
    destruct (Z.eqb_spec c 10); [now rewrite !well_formed_plain by lia|].
    destruct (Z.eqb_spec c 12); [now rewrite !well_formed_plain by lia|].
    destruct (Z.eqb_spec c 13); [now rewrite !well_formed_plain by lia|].
    destruct (Z.eqb_spec c 34); [now rewrite !well_formed_plain by lia|].
    destruct (Z.eqb_spec c 92); [now rewrite !well_formed_plain by lia|].
    destruct (Z.ltb_spec c 32);
      [now rewrite well_formed_unicode_escape by lia|].
    destruct (is_lead c) eqn:El.
    { destruct r as [|d r'].
      - rewrite <- (app_nil_r (unicode_escape c)).
        now rewrite well_formed_unicode_escape by lia.
      - destruct (is_trail d) eqn:Et; [exfalso; eapply Hpair; eauto|].
        now rewrite well_formed_unicode_escape by lia. }
    destruct (is_trail c) eqn:Et;
      [now rewrite well_formed_unicode_escape by lia|].
    cbn [well_formed]. rewrite El, Et, IH, in_range_true by lia.
    reflexivity. }
  induction s as [|c|c d r IHr IHd] using list_ind2; intros H.
  - reflexivity.
  - inversion H; subst. apply Hstep; [assumption|reflexivity|discriminate].
  - inversion H as [|? ? Hc H']; subst.
    inversion H' as [|? ? Hd H'']; subst.
    destruct (is_lead c && is_trail d) eqn:E.
    + apply andb_true_iff in E; destruct E as [El Et].
      assert (0xD800 <= c <= 0xDBFF) as Rc
          by (destruct (is_lead_spec c); [assumption|discriminate]).
      cbn [quote_chars].
      destruct (Z.eqb_spec c 8); [lia|]. destruct (Z.eqb_spec c 9); [lia|].
      destruct (Z.eqb_spec c 10); [lia|]. destruct (Z.eqb_spec c 12); [lia|].
      destruct (Z.eqb_spec c 13); [lia|]. destruct (Z.eqb_spec c 34); [lia|].
      destruct (Z.eqb_spec c 92); [lia|]. destruct (Z.ltb_spec c 32); [lia|].
      rewrite El, Et. cbn [well_formed]. rewrite El, Et. now apply IHr.
    + apply Hstep; [assumption|now apply IHd|].
      intros d' r' [= <- <-] El Et. now rewrite El, Et in E.
Qed.

Lemma single_line_app a b :
  single_line (a ++ b) = single_line a && single_line b.
Proof. apply forallb_app. Qed.

Lemma single_line_cons c r :
  c <> 10 -> single_line (c :: r) = single_line r.
Proof.
  intros H. unfold single_line; cbn [forallb].
  apply Z.eqb_neq in H. now rewrite H.
Qed.

Lemma single_line_unicode_escape c r :
  0 <= c <= 0xFFFF ->
  single_line (unicode_escape c ++ r) = single_line r.
Proof.
  intros H. unfold unicode_escape. cbn [app].
  pose proof (hex_digit_bounds (c / 4096)).
  pose proof (hex_digit_bounds (c / 256 mod 16)).
  pose proof (hex_digit_bounds (c / 16 mod 16)).
  pose proof (hex_digit_bounds (c mod 16)).
  rewrite !single_line_cons; [reflexivity|arith..].
Qed.

Lemma quote_chars_single_line s :
  code_units_ok s -> single_line (quote_chars s) = true.
Proof.
  unfold code_units_ok.
  assert (forall c r,
             0 <= c <= 0xFFFF -> single_line (quote_chars r) = true ->
             (forall d r', r = d :: r' -> single_line (quote_chars r') = true) ->
             single_line (quote_chars (c :: r)) = true) as Hstep.
  { intros c r Hc IH IH'. cbn [quote_chars].
    destruct (Z.eqb_spec c 8); [now rewrite !single_line_cons by lia|].
    destruct (Z.eqb_spec c 9); [now rewrite !single_line_cons by lia|].
    destruct (Z.eqb_spec c 10); [now rewrite !single_line_cons by lia|].
    destruct (Z.eqb_spec c 12); [now rewrite !single_line_cons by lia|].
    destruct (Z.eqb_spec c 13); [now rewrite !single_line_cons by lia|].
    destruct (Z.eqb_spec c 34); [now rewrite !single_line_cons by lia|].
    destruct (Z.eqb_spec c 92); [now rewrite !single_line_cons by lia|].
    destruct (Z.ltb_spec c 32);
      [now rewrite single_line_unicode_escape by lia|].
    destruct (is_lead c) eqn:El.
    { destruct r as [|d r'].
      - rewrite <- (app_nil_r (unicode_escape c)).
        now rewrite single_line_unicode_escape by lia.
      - destruct (is_trail_spec d).
        + rewrite !single_line_cons by lia. now apply (IH' d r').
        + now rewrite single_line_unicode_escape by lia. }
    destruct (is_trail c);
      [now rewrite single_line_unicode_escape by lia|].
    now rewrite single_line_cons by lia. }
  induction s as [|c|c d r IHr IHd] using list_ind2; intros H.
  - reflexivity.
  - inversion H; subst. apply Hstep; [assumption|reflexivity|discriminate].
  - inversion H as [|? ? Hc H']; subst.
    inversion H' as [|? ? Hd H'']; subst.
    apply Hstep; [assumption|now apply IHd|].
    intros d' r' [= <- <-]. now apply IHr.
Qed.

Lemma quote_well_formed s : code_units_ok s -> well_formed (quote s) = true.
Proof.
  intros H. unfold quote. rewrite well_formed_plain by lia.
  apply well_formed_app; [now apply quote_chars_well_formed|reflexivity].
Qed.

Lemma quote_single_line s : code_units_ok s -> single_line (quote s) = true.
Proof.
  intros H. unfold quote. rewrite single_line_cons by lia.
  now rewrite single_line_app, quote_chars_single_line.
Qed.

End JsonStrings.

Section JsonObjects.
Context {F : Float64}.

Lemma stringify_pair thinking content :
  stringify_literal (pair_literal thinking content)
  = 123 :: join_comma (map member_text (pair_members thinking content))
        ++ [125].
Proof. destruct thinking, content; reflexivity. Qed.

Lemma member_text_well_formed m :
  code_units_ok (fst m) -> code_units_ok (snd m) ->
  well_formed (member_text m) = true.
Proof.
  intros Hk Hv. unfold member_text.
  apply well_formed_app; [now apply quote_well_formed|].
  rewrite well_formed_plain by lia. now apply quote_well_formed.
Qed.

Lemma member_text_single_line m :
  code_units_ok (fst m) -> code_units_ok (snd m) ->
  single_line (member_text m) = true.
Proof.
  intros Hk Hv. unfold member_text.
  rewrite single_line_app, single_line_cons by lia.
  now rewrite !quote_single_line.
Qed.

Lemma members_well_formed ms :
  members_ok ms -> well_formed (join_comma (map member_text ms)) = true.
Proof.
  induction 1 as [|m ms [Hk Hv] _ IH]; [reflexivity|].
  destruct ms as [|m' ms']; [now apply member_text_well_formed|].
  change (join_comma (map member_text (m :: m' :: ms')))
    with (member_text m ++ 44 :: join_comma (map member_text (m' :: ms'))).
  apply well_formed_app; [now apply member_text_well_formed|].
  now rewrite well_formed_plain by lia.
Qed.

Lemma members_single_line ms :
  members_ok ms -> single_line (join_comma (map member_text ms)) = true.
Proof.
  induction 1 as [|m ms [Hk Hv] _ IH]; [reflexivity|].
  destruct ms as [|m' ms']; [now apply member_text_single_line|].
  change (join_comma (map member_text (m :: m' :: ms')))
    with (member_text m ++ 44 :: join_comma (map member_text (m' :: ms'))).
  rewrite single_line_app, single_line_cons by lia.
  now rewrite member_text_single_line, IH.
Qed.

Lemma parse_value_string fuel s rest :
  code_units_ok s ->
  parse_value (S fuel) (quote s ++ rest) = Ok (JString s) rest.
Proof.
  intros H. unfold quote. cbn [app parse_value skip_ws].
  change (is_json_ws 34) with false. cbv iota.
  change (34 =? 123) with false. change (34 =? 91) with false.
  change (34 =? 34) with true. cbv iota.
  rewrite <- app_assoc. cbn [app].
  now rewrite parse_quote_chars.
Qed.

Lemma parse_members_member fuel k v more :
  code_units_ok k -> code_units_ok v ->
  parse_members (S (S fuel)) (quote k ++ 58 :: quote v ++ more)
  = match skip_ws more with
    | c :: r =>
        if c =? 44 then
          bind (parse_members (S fuel) r)
               (fun ms rest => Ok ((k, JString v) :: ms) rest)
        else if c =? 125 then Ok [(k, JString v)] r
        else SyntaxError
    | [] => SyntaxError
    end.
Proof.
  intros Hk Hv. unfold quote at 1.
  cbn [app parse_members skip_ws].
  change (is_json_ws 34) with false. cbv iota.
  rewrite <- app_assoc. cbn [app].
  rewrite parse_quote_chars by assumption.
  cbn [skip_ws]. change (is_json_ws 58) with false. cbv iota.
  rewrite parse_value_string by assumption.
  reflexivity.
Qed.

Lemma parse_members_strings ms : forall fuel rest,
  ms <> [] -> (List.length ms < fuel)%nat -> members_ok ms ->
  parse_members fuel (join_comma (map member_text ms) ++ 125 :: rest)
  = Ok (map (fun m => (fst m, JString (snd m))) ms) rest.
Proof.
  induction ms as [|[k v] ms IH]; intros fuel rest Hne Hf Hok;
    [contradiction|].
  inversion Hok as [|? ? [Hk Hv] Hok']; subst. simpl in Hk, Hv.
  destruct fuel as [|[|fuel]]; [simpl in Hf; lia..|].
  destruct ms as [|m' ms'].
  - cbn [map join_comma]. unfold member_text; cbn [fst snd].
    rewrite <- !app_assoc. cbn [app].
    rewrite parse_members_member by assumption. reflexivity.
  - change (join_comma (map member_text ((k, v) :: m' :: ms')))
      with (member_text (k, v)
            ++ 44 :: join_comma (map member_text (m' :: ms'))).
    unfold member_text at 1; cbn [fst snd].
    rewrite <- !app_assoc. cbn [app].
    rewrite parse_members_member by assumption.
    cbn [app skip_ws]. change (is_json_ws 44) with false. cbv iota.
    change (44 =? 44) with true. cbv iota.
    rewrite IH; [reflexivity|discriminate|simpl in *; lia|assumption].
Qed.

Lemma join_members_head m ms :
  exists tail, join_comma (map member_text (m :: ms)) = 34 :: tail.
Proof.
  destruct ms; cbn [map join_comma]; unfold member_text, quote;
    eexists; reflexivity.
Qed.

(** An object whose values are strings parses back to its members. *)
Lemma parse_value_object ms fuel rest :
  ms <> [] -> (S (List.length ms) < fuel)%nat -> members_ok ms ->
  parse_value fuel (123 :: join_comma (map member_text ms) ++ 125 :: rest)
  = Ok (make_object (map (fun m => (fst m, JString (snd m))) ms)) rest.
Proof.
  intros Hne Hf Hok.
  destruct fuel as [|fuel]; [lia|].
  cbn [parse_value skip_ws]. change (is_json_ws 123) with false. cbv iota.
  change (123 =? 123) with true. cbv iota.
  rewrite (parse_members_strings ms fuel rest Hne ltac:(lia) Hok).
  destruct ms as [|m ms]; [contradiction|].
  destruct (join_members_head m ms) as [tail ->].
  reflexivity.
Qed.

End JsonObjects.

Section RoundTrip.
Context {F : Float64}.

Lemma code_units_ok_check s :
  forallb (in_range 0 0xFFFF) s = true -> code_units_ok s.
Proof.
  intros H. apply Forall_forall. intros c Hc.
  rewrite forallb_forall in H. specialize (H c Hc).
  now destruct (in_range_spec 0 65535 c).
Qed.

Lemma js_ok_thinking : code_units_ok (js "thinking").
Proof. now apply code_units_ok_check. Qed.

Lemma js_ok_content : code_units_ok (js "content").
Proof. now apply code_units_ok_check. Qed.

Lemma pair_members_ok thinking content :
  pair_ok thinking content -> members_ok (pair_members thinking content).
Proof.
  intros [Ht Hc]. unfold members_ok, pair_members.
  apply Forall_app; split.
  - destruct thinking as [t|]; [|apply Forall_nil].
    apply Forall_cons; [|apply Forall_nil].
    split; [exact js_ok_thinking | now apply Ht].
  - destruct content as [c|]; [|apply Forall_nil].
    apply Forall_cons; [|apply Forall_nil].
    split; [exact js_ok_content | now apply Hc].
Qed.

Lemma JSON_parse_pair thinking content :
  pair_ok thinking content ->
  JSON_parse (stringify_literal (pair_literal thinking content))
  = Some (pair_object thinking content).
Proof.
  intros Hok. apply pair_members_ok in Hok.
  unfold JSON_parse. rewrite stringify_pair.
  set (ms := pair_members thinking content) in *.
  destruct ms as [|m ms'] eqn:E.
  - destruct thinking, content; try discriminate. reflexivity.
  - rewrite <- E in *.
    assert (List.length ms <= 2)%nat as Hlen
        by (unfold ms, pair_members; destruct thinking, content; simpl; lia).
    rewrite parse_value_object;
      [ | rewrite E; discriminate
        | unfold fuel_for; cbn [List.length]; lia
        | assumption ].
    cbn [skip_ws Str.is_empty].
    unfold ms, pair_members, pair_object.
    destruct thinking, content; try discriminate; reflexivity.
Qed.

Lemma trim_braces body :
  Str.trim (32 :: 123 :: body ++ [125]) = 123 :: body ++ [125].
Proof.
  unfold Str.trim. cbn [Str.trimStart].
  change (Str.is_space 32) with true. change (Str.is_space 123) with false.
  cbv iota. unfold Str.trimEnd.
  change (123 :: body ++ [125]) with ((123 :: body) ++ [125]).
  rewrite rev_unit. cbn [Str.trimStart].
  change (Str.is_space 125) with false. cbv iota.
  now rewrite <- rev_unit, rev_involutive.
Qed.

Lemma decode_line_pair thinking content :
  pair_ok thinking content ->
  Page.decode_line
    (js "data: " ++ stringify_literal (pair_literal thinking content))
  = Page.Payload (pair_object thinking content).
Proof.
  intros Hok. unfold Page.decode_line.
  change (Str.slice 5 (js "data: " ++ ?x)) with (32 :: x).
  pose proof (JSON_parse_pair thinking content Hok) as Hparse.
  rewrite stringify_pair in *. rewrite trim_braces.
  rewrite Hparse. reflexivity.
Qed.

Lemma sseData_well_formed thinking content :
  pair_ok thinking content ->
  well_formed
    (Route.sseData (option_map JString thinking) (option_map JString content))
  = true.
Proof.
  intros Hok. apply pair_members_ok in Hok.
  unfold Route.sseData.
  change [(js "thinking", option_map JString thinking);
          (js "content", option_map JString content)]
    with (pair_literal thinking content).
  rewrite stringify_pair.
  apply well_formed_app; [reflexivity|].
  apply well_formed_app; [|reflexivity].
  rewrite well_formed_plain by lia.
  apply well_formed_app; [now apply members_well_formed|reflexivity].
Qed.

Lemma payloads_sseData thinking content :
  pair_ok thinking content ->
  Page.payloads
    (Route.sseData (option_map JString thinking) (option_map JString content))
  = [pair_object thinking content].
Proof.
  intros Hok. pose proof (decode_line_pair thinking content Hok) as Hline.
  apply pair_members_ok in Hok.
  unfold Route.sseData.
  change [(js "thinking", option_map JString thinking);
          (js "content", option_map JString content)]
    with (pair_literal thinking content) in *.
  set (obj := stringify_literal (pair_literal thinking content)) in *.
  assert (single_line (js "data: " ++ obj) = true) as Hone.
  { unfold obj. rewrite stringify_pair.
    rewrite single_line_app. change (single_line (js "data: ")) with true.
    rewrite single_line_cons by lia.
    rewrite single_line_app, members_single_line by assumption.
    reflexivity. }
  unfold Page.payloads, Page.data_lines.
  rewrite app_assoc.
  change [10; 10] with ([] ++ 10 :: [10]).
  rewrite app_nil_l, split_lines_app, (single_line_split _ Hone).
  cbn [app Str.split_lines filter flat_map].
  change (10 =? 10) with true. cbv iota.
  cbn [filter].
  change (Str.startsWith (js "data: " ++ obj) (js "data:")) with true.
  cbv iota. change (Str.startsWith [] (js "data:")) with false. cbv iota.
  cbn [flat_map filter]. rewrite Hline. reflexivity.
Qed.

(** C4: the pair [{ thinking?, content? }], encoded by the relay as the
    one line [data: <json>] followed by two line feeds, with only the
    present fields in [<json>], then sent as UTF-8 and read by the page,
    is decoded as exactly one payload: an object with the same fields
    present, holding the same strings, and nothing for an absent field. *)
Theorem sse_round_trip (thinking content : option jsstring) :
  pair_ok thinking content ->
  thinking <> None \/ content <> None ->
  let line :=
    Route.sseData (option_map JString thinking) (option_map JString content) in
  line = js "data: " ++ stringify_literal (pair_literal thinking content)
         ++ [10; 10]
  /\ Page.stream_payloads new_TextDecoder [encode line]
     = [pair_object thinking content]
  /\ Get (pair_object thinking content) (js "thinking")
     = option_map JString thinking
  /\ Get (pair_object thinking content) (js "content")
     = option_map JString content.
Proof.
  intros Hok _ line. split; [reflexivity|]. split.
  - cbn [Page.stream_payloads].
    pose proof (sseData_well_formed thinking content Hok) as Hwf.
    fold line in Hwf.
    assert (exists rest, line = 100 :: rest) as [rest E]
        by (eexists; reflexivity).
    rewrite E in Hwf |- *.
    rewrite decode_encode_new; [|assumption|reflexivity|lia].
    rewrite <- E. unfold line.
    now rewrite payloads_sseData, app_nil_r.
  - destruct thinking, content; split; reflexivity.
Qed.

End RoundTrip.

(* ================================================================== *)
(** * [JSON.parse] is total                                            *)
(* ================================================================== *)

Section Fuel.
Context {F : Float64}.

Lemma skip_ws_length s : (List.length (skip_ws s) <= List.length s)%nat.
Proof.
  induction s as [|c s IH]; simpl; [lia|].
  destruct (is_json_ws c); simpl; lia.
Qed.

Lemma prepend_length c r str rest (n : nat) :
  prepend c r = Some (str, rest) ->
  (forall str' rest', r = Some (str', rest') -> (List.length rest' < n)%nat) ->
  (List.length rest < n)%nat.
Proof.
  destruct r as [[str' rest']|]; simpl; [|discriminate].
  intros [= <- <-] H. now apply (H str').
Qed.

Lemma parse_string_chars_length n : forall s str rest,
  (List.length s <= n)%nat ->
  parse_string_chars s = Some (str, rest) ->
  (List.length rest < List.length s)%nat.
Proof.
  induction n as [|n IH]; intros s str rest Hn H.
  - destruct s; [discriminate|simpl in Hn; lia].
  - destruct s as [|c r]; [discriminate|].
    cbn [parse_string_chars] in H. cbn [List.length] in *.
    destruct (c =? 34); [injection H as <- <-; lia|].
    destruct (c =? 92).
    + destruct r as [|e r']; [discriminate|]. cbn [List.length] in *.
      assert (forall u, prepend u (parse_string_chars r') = Some (str, rest) ->
                        (List.length rest < S (S (List.length r')))%nat) as Hp.
      { intros u Hu. eapply prepend_length; [exact Hu|].
        intros str' rest' E. apply IH in E; lia. }
      repeat match type of H with
             | (if ?b then _ else _) = _ =>
                 destruct b; [now apply Hp in H|]
             end.
      destruct (e =? 117); [|discriminate].
      destruct r' as [|h1 [|h2 [|h3 [|h4 r'']]]]; try discriminate.
      destruct (hex4 h1 h2 h3 h4); [|discriminate].
      cbn [List.length] in *.
      eapply prepend_length; [exact H|].
      intros str' rest' E. apply IH in E; lia.
    + destruct (c <? 32); [discriminate|].
      eapply prepend_length; [exact H|].
      intros str' rest' E. apply IH in E; lia.
Qed.

Lemma take_digits_length s :
  (List.length (snd (take_digits s)) <= List.length s)%nat.
Proof.
  induction s as [|c s IH]; simpl; [lia|].
  destruct (is_digit c); simpl; [|lia].
  destruct (take_digits s); simpl in *; lia.
Qed.

Lemma lex_number_length s lexeme rest :
  lex_number s = Some (lexeme, rest) ->
  (List.length rest < List.length s)%nat.
Proof.
  unfold lex_number.
  assert (forall s1 int s2, lex_int s1 = Some (int, s2) ->
                            (List.length s2 < List.length s1)%nat) as Hint.
  { intros s1 int s2. unfold lex_int. destruct s1 as [|c r]; [discriminate|].
    destruct (c =? 48); [intros [= <- <-]; simpl; lia|].
    destruct (in_range 49 57 c); [|discriminate].
    pose proof (take_digits_length r).
    destruct (take_digits r); intros [= <- <-]; simpl in *; lia. }
  assert (forall s2 frac s3, lex_frac s2 = Some (frac, s3) ->
                             (List.length s3 <= List.length s2)%nat) as Hfrac.
  { intros s2 frac s3. unfold lex_frac.
    destruct s2 as [|c r]; [intros [= <- <-]; lia|].
    destruct (c =? 46); [|intros [= <- <-]; lia].
    pose proof (take_digits_length r).
    destruct (take_digits r) as [[|d ds] rest']; [discriminate|].
    intros [= <- <-]; simpl in *; lia. }
  assert (forall s3 exp s4, lex_exp s3 = Some (exp, s4) ->
                            (List.length s4 <= List.length s3)%nat) as Hexp.
  { intros s3 exp s4. unfold lex_exp.
    destruct s3 as [|e r]; [intros [= <- <-]; lia|].
    destruct ((e =? 101) || (e =? 69)); [|intros [= <- <-]; lia].
    destruct r as [|c r'].
    - simpl. discriminate.
    - destruct ((c =? 43) || (c =? 45)).
      + pose proof (take_digits_length r').
        destruct (take_digits r') as [[|d ds] rest']; [discriminate|].
        intros [= <- <-]; simpl in *; lia.
      + pose proof (take_digits_length (c :: r')).
        destruct (take_digits (c :: r')) as [[|d ds] rest']; [discriminate|].
        intros [= <- <-]; simpl in *; lia. }
  set (split := match s with
                | c :: r => if c =? 45 then ([c], r) else ([], s)
                | [] => ([], s)
                end).
  assert (List.length (snd split) <= List.length s)%nat as Hsign.
  { unfold split. destruct s as [|c r]; [simpl; lia|].
    destruct (c =? 45); simpl; lia. }
  destruct split as [sign s1]. simpl in Hsign.
  destruct (lex_int s1) as [[int s2]|] eqn:E1; [|discriminate].
  destruct (lex_frac s2) as [[frac s3]|] eqn:E2; [|discriminate].
  destruct (lex_exp s3) as [[exp s4]|] eqn:E3; [|discriminate].
  intros [= <- <-].
  apply Hint in E1. apply Hfrac in E2. apply Hexp in E3. lia.
Qed.

Lemma literal_length word v c r v' rest :
  word <> [] ->
  literal word v (c :: r) = Ok v' rest ->
  (List.length rest < List.length (c :: r))%nat.
Proof.
  intros Hw. unfold literal.
  destruct (Str.startsWith (c :: r) word); [|discriminate].
  intros [= <- <-]. rewrite length_skipn.
  destruct word; [contradiction|simpl; lia].
Qed.

(** With enough budget no parsing function runs out of it, and each
    consumes at least one character. *)
Lemma parse_fuel_enough fuel :
  (forall s, (2 * List.length s + 1 <= fuel)%nat ->
     match parse_value fuel s with
     | Ok _ rest => (List.length rest < List.length s)%nat
     | SyntaxError => True
     | OutOfFuel => False
     end)
  /\ (forall s, (2 * List.length s + 2 <= fuel)%nat ->
     match parse_elements fuel s with
     | Ok _ rest => (List.length rest < List.length s)%nat
     | SyntaxError => True
     | OutOfFuel => False
     end)
  /\ (forall s, (2 * List.length s + 2 <= fuel)%nat ->
     match parse_members fuel s with
     | Ok _ rest => (List.length rest < List.length s)%nat
     | SyntaxError => True
     | OutOfFuel => False
     end).
Proof.
  induction fuel as [|f (IHv & IHe & IHm)]; [repeat split; intros; lia|].
  split; [|split]; intros s Hf.
  - cbn [parse_value].
    pose proof (skip_ws_length s) as Hws.
    destruct (skip_ws s) as [|c r]; [exact I|]. cbn [List.length] in Hws.
    destruct (c =? 123).
    { pose proof (skip_ws_length r) as Hws'.
      assert (match bind (parse_members f r)
                         (fun ms rest => Ok (make_object ms) rest) with
              | Ok _ rest => (List.length rest < List.length s)%nat
              | SyntaxError => True
              | OutOfFuel => False
              end) as Hm.
      { specialize (IHm r ltac:(lia)).
        destruct (parse_members f r); simpl; auto; lia. }
      cbv zeta.
      destruct (skip_ws r) as [|c' r']; [exact Hm|].
      destruct (c' =? 125); [simpl in *; lia|exact Hm]. }
    destruct (c =? 91).
    { pose proof (skip_ws_length r) as Hws'.
      assert (match bind (parse_elements f r)
                         (fun vs rest => Ok (JArray vs) rest) with
              | Ok _ rest => (List.length rest < List.length s)%nat
              | SyntaxError => True
              | OutOfFuel => False
              end) as He.
      { specialize (IHe r ltac:(lia)).
        destruct (parse_elements f r); simpl; auto; lia. }
      cbv zeta.
      destruct (skip_ws r) as [|c' r']; [exact He|].
      destruct (c' =? 93); [simpl in *; lia|exact He]. }
    destruct (c =? 34).
    { destruct (parse_string_chars r) as [[str rest]|] eqn:E; [|exact I].
      apply (parse_string_chars_length _ _ _ _ (le_n _)) in E. lia. }
    assert (forall word v,
               word <> [] ->
               match literal word v (c :: r) with
               | Ok _ rest => (List.length rest < List.length s)%nat
               | SyntaxError => True
               | OutOfFuel => False
               end) as Hlit.
    { intros word v Hw.
      destruct (literal word v (c :: r)) as [v' rest| |] eqn:E; auto.
      - apply literal_length in E; [simpl in E; lia|assumption].
      - unfold literal in E. destruct (Str.startsWith _ _); discriminate. }
    destruct (c =? 116); [apply Hlit; discriminate|].
    destruct (c =? 102); [apply Hlit; discriminate|].
    destruct (c =? 110); [apply Hlit; discriminate|].
    destruct (lex_number (c :: r)) as [[lexeme rest]|] eqn:E; [|exact I].
    apply lex_number_length in E. simpl in E. lia.
  - cbn [parse_elements].
    specialize (IHv s ltac:(lia)).
    destruct (parse_value f s) as [v r| |]; simpl; auto.
    pose proof (skip_ws_length r) as Hws.
    destruct (skip_ws r) as [|c r']; [exact I|]. cbn [List.length] in Hws.
    destruct (c =? 44).
    { specialize (IHe r' ltac:(lia)).
      destruct (parse_elements f r'); simpl; auto; lia. }
    destruct (c =? 93); [lia|exact I].
  - cbn [parse_members].
    pose proof (skip_ws_length s) as Hws.
    destruct (skip_ws s) as [|q r]; [exact I|]. cbn [List.length] in Hws.
    destruct (negb (q =? 34)); [exact I|].
    destruct (parse_string_chars r) as [[key r1]|] eqn:E; [|exact I].
    apply (parse_string_chars_length _ _ _ _ (le_n _)) in E.
    pose proof (skip_ws_length r1) as Hws1.
    destruct (skip_ws r1) as [|colon r2]; [exact I|].
    cbn [List.length] in Hws1.
    destruct (negb (colon =? 58)); [exact I|].
    specialize (IHv r2 ltac:(lia)).
    destruct (parse_value f r2) as [v r3| |]; simpl; auto.
    pose proof (skip_ws_length r3) as Hws3.
    destruct (skip_ws r3) as [|c r4]; [exact I|]. cbn [List.length] in Hws3.
    destruct (c =? 44).
    { specialize (IHm r4 ltac:(lia)).
      destruct (parse_members f r4); simpl; auto; lia. }
    destruct (c =? 125); [lia|exact I].
Qed.

(** [JSON_parse] never answers [None] for want of budget. *)
Lemma JSON_parse_never_out_of_fuel text :
  parse_value (fuel_for text) text <> OutOfFuel.
Proof.
  pose proof (proj1 (parse_fuel_enough (fuel_for text)) text) as H.
  unfold fuel_for in *. specialize (H ltac:(lia)).
  intros E. now rewrite E in H.
Qed.

End Fuel.

(* ================================================================== *)
(** * The definitions at work                                         *)
(* ================================================================== *)

(** ** The relay and the page on cut streams *)

Lemma relay_same_frames_when_cut_at_lines_witness :
  line_aligned Examples.frame_lines
  /\ Route.relay_frames new_TextDecoder Examples.frame_lines
     = Route.relay_frames new_TextDecoder [List.concat Examples.frame_lines]
  /\ Route.relay_loop new_TextDecoder Examples.frame_lines
     = Route.relay_loop new_TextDecoder [List.concat Examples.frame_lines].
Proof.
  assert (line_aligned Examples.frame_lines) as H.
  { unfold line_aligned, Examples.frame_lines; cbn [removelast].
    constructor; [vm_compute; reflexivity | constructor]. }
  split; [exact H|].
  exact (relay_same_frames_when_cut_at_lines Examples.frame_lines H).
Defined.

(** C1 as stated fails: a line cut inside a token is lost, both halves
    are parsed apart and both are dropped. *)
Lemma relay_loses_frame_cut_inside_token :
  Route.relay_loop new_TextDecoder [Examples.frame_head; Examples.frame_tail]
  = []
  /\ Route.relay_loop new_TextDecoder
       [Examples.frame_head ++ Examples.frame_tail]
     = [encode (jsq "data: {'content':'Hi'}") ++ [10; 10]]
  /\ Route.relay_loop new_TextDecoder [Examples.frame_head; Examples.frame_tail]
     <> Route.relay_loop new_TextDecoder
          [List.concat [Examples.frame_head; Examples.frame_tail]].
Proof.
  vm_compute. repeat split; discriminate.
Qed.

Lemma page_same_events_when_cut_at_lines_witness :
  line_aligned Examples.event_lines
  /\ Page.stream_payloads new_TextDecoder Examples.event_lines
     = Page.stream_payloads new_TextDecoder [List.concat Examples.event_lines]
  /\ Page.thinking_var
       (Page.read_loop (Page.begin_turn Examples.home0) Examples.event_lines)
     = Page.thinking_var
         (Page.read_loop (Page.begin_turn Examples.home0)
                         [List.concat Examples.event_lines])
  /\ Page.content_var
       (Page.read_loop (Page.begin_turn Examples.home0) Examples.event_lines)
     = Page.content_var
         (Page.read_loop (Page.begin_turn Examples.home0)
                         [List.concat Examples.event_lines]).
Proof.
  assert (line_aligned Examples.event_lines) as H.
  { unfold line_aligned, Examples.event_lines; cbn [removelast].
    constructor; [vm_compute; reflexivity | constructor]. }
  split; [exact H|].
  exact (page_same_events_when_cut_at_lines Examples.home0
           Examples.event_lines H).
Defined.

(** C3 as stated fails: an event cut inside its payload is lost. *)
Lemma page_loses_event_cut_inside_payload :
  Page.stream_payloads new_TextDecoder
    [Examples.event_head; Examples.event_tail] = []
  /\ Page.stream_payloads new_TextDecoder
       [List.concat [Examples.event_head; Examples.event_tail]]
     = [JObject [(js "content", JString (js "Hi"))]]
  /\ Page.content_var
       (Page.read_loop Examples.turn0
          [Examples.event_head; Examples.event_tail]) = []
  /\ Page.content_var
       (Page.read_loop Examples.turn0
          [List.concat [Examples.event_head; Examples.event_tail]])
     = js "Hi"
  /\ Page.read_loop Examples.turn0 [Examples.event_head; Examples.event_tail]
     <> Page.read_loop Examples.turn0
          [List.concat [Examples.event_head; Examples.event_tail]].
Proof.
  vm_compute. repeat split. discriminate.
Qed.

(** C2 as stated fails: an event that arrives after the sentinel is
    applied to the draft, in a later read or in the same one. *)
Lemma event_after_sentinel_is_applied :
  Page.content_var (Page.read_loop Examples.turn0 [Examples.done_event]) = []
  /\ Page.content_var
       (Page.read_loop Examples.turn0
          [Examples.done_event; Examples.late_event]) = js "late"
  /\ Page.content_var
       (Page.read_loop Examples.turn0
          [Examples.done_event ++ Examples.late_event]) = js "late".
Proof.
  vm_compute. repeat split.
Qed.

(** ** Turns and requests that end early *)

Lemma stop_keeps_what_was_applied_witness :
  Page.messages
    (Page.home
       (Page.handleSubmit Examples.home0
          (fun _ => Page.FetchResolves true
                      (Some (Examples.event_lines,
                             Page.ReadRejects Page.UserStop)))))
  = [{| Page.role := Page.user; Page.content := js "hi";
        Page.thinking := None |};
     {| Page.role := Page.assistant; Page.content := js "Hi!";
        Page.thinking := Some (js "Let") |}].
Proof.
  assert (can_submit Examples.home0 = true) as H by (vm_compute; reflexivity).
  rewrite (proj1 (stop_keeps_what_was_applied Examples.home0
                    (fun _ => Page.FetchResolves true
                                (Some (Examples.event_lines,
                                       Page.ReadRejects Page.UserStop)))
                    Examples.event_lines H eq_refl)).
  vm_compute. reflexivity.
Defined.

Lemma marker_exactly_when_reported_witness :
  draft_content
    (Page.messages
       (Page.home
          (Page.handleSubmit Examples.home0
             (fun _ => Page.FetchResolves true
                         (Some (Examples.event_lines,
                                Page.ReadRejects
                                  (Page.Rejects Page.new_Error)))))))
  = js "Hi!" ++ Page.error_marker.
Proof.
  assert (can_submit Examples.home0 = true) as H by (vm_compute; reflexivity).
  pose proof (marker_exactly_when_reported Examples.home0
                (fun _ => Page.FetchResolves true
                            (Some (Examples.event_lines,
                                   Page.ReadRejects
                                     (Page.Rejects Page.new_Error))))
                H) as W.
  cbv zeta in W. destruct W as (_ & _ & W).
  assert (reported
            (snd (Page.try_block Examples.home0
                    (fun _ => Page.FetchResolves true
                                (Some (Examples.event_lines,
                                       Page.ReadRejects
                                         (Page.Rejects Page.new_Error))))))
          = Some Page.new_Error) as E by (vm_compute; reflexivity).
  rewrite E in W. destruct W as (_ & W & _).
  rewrite W. vm_compute. reflexivity.
Defined.

(** C9 as stated fails: the marker is also appended when no read was
    made, here on a response without success status. *)
Lemma marker_without_a_read :
  Page.try_block Examples.home0 (fun _ => Page.FetchResolves false None)
  = (Page.begin_turn Examples.home0, Some (Page.Rejects Page.new_Error))
  /\ draft_content
       (Page.messages
          (Page.home
             (Page.handleSubmit Examples.home0
                (fun _ => Page.FetchResolves false None))))
     = Page.error_marker.
Proof.
  vm_compute. split; reflexivity.
Qed.

(** The backend refuses the request sent, and only that one: [POST]
    reaches lines 79-81.  The backend cannot be reached: [POST] ends in
    its [catch].  The same request answered with success gives the
    stream. *)
Lemma POST_500_or_event_stream_witness :
  (Route.status (Route.POST (Route.JsonResolves Cases.request0) Cases.picky)
   = 500
   /\ exists error,
       Route.body (Route.POST (Route.JsonResolves Cases.request0) Cases.picky)
       = Route.JsonBody
           (stringify_literal [(js "error", Some (JString error))])
       /\ forall v ok upstream,
           Route.JsonResolves Cases.request0 = Route.JsonResolves v ->
           v <> JNull ->
           Cases.picky (Route.ollama_init v)
           = Route.FetchResolves ok upstream ->
           error = js "Ollama 连接失败")
  /\ Route.status
       (Route.POST (Route.JsonResolves Cases.request0) Examples.refuses)
     = 500
  /\ Route.status
       (Route.POST (Route.JsonResolves Cases.request0)
                   (Examples.answers Examples.frame_lines))
     = 200.
Proof.
  assert (forall v, Route.JsonResolves Cases.request0 = Route.JsonResolves v ->
                    backend_failed (Cases.picky (Route.ollama_init v)) = true)
    as H1 by (intros v [= <-]; vm_compute; reflexivity).
  assert (forall v, Route.JsonResolves Cases.request0 = Route.JsonResolves v ->
                    backend_failed (Examples.refuses (Route.ollama_init v))
                    = true)
    as H1' by (intros v _; reflexivity).
  assert (Cases.request0 <> JNull) as H2 by discriminate.
  split; [|split].
  - exact (proj1 (POST_500_or_event_stream
                    (Route.JsonResolves Cases.request0) Cases.picky) H1).
  - exact (proj1 (proj1 (POST_500_or_event_stream
                           (Route.JsonResolves Cases.request0)
                           Examples.refuses) H1')).
  - exact (proj1 (proj2 (POST_500_or_event_stream
                           (Route.JsonResolves Cases.request0)
                           (Examples.answers Examples.frame_lines))
                    Cases.request0 _ eq_refl H2 eq_refl)).
Defined.

(** The same, computed: the body of lines 79-81, and a backend that
    answers every other request. *)
Example POST_500_or_event_stream_computed :
  Route.POST (Route.JsonResolves Cases.request0) Cases.picky
  = {| Route.status := 500;
       Route.headers := [(js "content-type", js "application/json")];
       Route.body := Route.JsonBody (jsq "{'error':'Ollama 连接失败'}") |}
  /\ backend_failed
       (Cases.picky (Route.ollama_init (JObject []))) = false.
Proof. vm_compute. split; reflexivity. Qed.

Lemma POST_catches_what_is_thrown_witness :
  Route.POST Route.JsonRejects (fun _ => Route.FetchResolves false None)
  = {| Route.status := 500;
       Route.headers := [(js "content-type", js "application/json")];
       Route.body := Route.JsonBody (jsq "{'error':'服务器内部错误'}") |}.
Proof.
  exact (proj2 (POST_catches_what_is_thrown Route.JsonRejects
                  (fun _ => Route.FetchResolves false None)
                  (or_introl eq_refl))).
Defined.

(** ** The scenarios of the specification, run through relay and page *)

(** Scenario A: the backend thinks, answers and says it is done. *)
Example scenario_A :
  Route.relay_loop new_TextDecoder Examples.backend_lines
  = [encode (jsq "data: {'thinking':'Let'}") ++ [10; 10];
     encode (jsq "data: {'thinking':' me think'}") ++ [10; 10];
     encode (jsq "data: {'content':'Hi!'}") ++ [10; 10];
     encode (js "data: [DONE]") ++ [10; 10]]
  /\ Page.home
       (Page.handleSubmit Examples.home0
          (Examples.served (Examples.answers Examples.backend_lines)))
     = {| Page.messages :=
            [{| Page.role := Page.user; Page.content := js "hi";
                Page.thinking := None |};
             {| Page.role := Page.assistant; Page.content := js "Hi!";
                Page.thinking := Some (js "Let me think") |}];
          Page.input := [];
          Page.isLoading := false;
          Page.abortRef := false |}.
Proof. vm_compute. split; reflexivity. Qed.

(** Scenario B: the backend refuses the connection; the relay answers
    500 and the page shows the marker. *)
Example scenario_B :
  Route.POST (Route.JsonResolves (JObject [])) Examples.refuses
  = {| Route.status := 500;
       Route.headers := [(js "content-type", js "application/json")];
       Route.body := Route.JsonBody (jsq "{'error':'服务器内部错误'}") |}
  /\ Page.messages
       (Page.home
          (Page.handleSubmit Examples.home0
             (Examples.served Examples.refuses)))
     = [{| Page.role := Page.user; Page.content := js "hi";
           Page.thinking := None |};
        {| Page.role := Page.assistant; Page.content := Page.error_marker;
           Page.thinking := None |}].
Proof. vm_compute. split; reflexivity. Qed.

(** Scenario C: a truncated line between whole ones. *)
Example scenario_C :
  Page.messages
    (Page.home
       (Page.handleSubmit Examples.home0
          (Examples.served
             (Examples.answers Examples.backend_lines_with_garbage))))
  = [{| Page.role := Page.user; Page.content := js "hi";
        Page.thinking := None |};
     {| Page.role := Page.assistant; Page.content := js "Hi!";
        Page.thinking := Some (js "Let") |}].
Proof. vm_compute. reflexivity. Qed.

(** Scenario D: the user stops after two fragments. *)
Example scenario_D :
  Page.home
    (Page.handleSubmit Examples.home0
       (fun _ => Page.FetchResolves true
                   (Some (Examples.event_lines,
                          Page.ReadRejects Page.UserStop))))
  = {| Page.messages :=
         [{| Page.role := Page.user; Page.content := js "hi";
             Page.thinking := None |};
          {| Page.role := Page.assistant; Page.content := js "Hi!";
             Page.thinking := Some (js "Let") |}];
       Page.input := [];
       Page.isLoading := false;
       Page.abortRef := false |}.
Proof. vm_compute. reflexivity. Qed.

(** ** A pair through the wire *)

Lemma sse_round_trip_witness :
  Page.stream_payloads new_TextDecoder
    [encode
       (Route.sseData (option_map JString (Some Examples.thinking0))
                      (option_map JString (Some Examples.content0)))]
  = [pair_object (Some Examples.thinking0) (Some Examples.content0)].
Proof.
  assert (pair_ok (Some Examples.thinking0) (Some Examples.content0)) as H.
  { split; intros s [= <-]; apply code_units_ok_check; vm_compute;
      reflexivity. }
  assert (Some Examples.thinking0 <> None \/ Some Examples.content0 <> None)
    as H' by (left; discriminate).
  pose proof (sse_round_trip (Some Examples.thinking0)
                (Some Examples.content0) H H') as W.
  cbv zeta in W.
  exact (proj1 (proj2 W)).
Defined.

(** The same pair, the line it is sent as and the payload it is read
    as, computed. *)
Example sse_round_trip_computed :
  Route.sseData (Some (JString Examples.thinking0))
                (Some (JString Examples.content0))
  = jsq "data: {'thinking':'Let me think','content':'Hi\'\\\n"
    ++ [20320; 55357; 56832] ++ jsq "\ud800'}" ++ [10; 10]
  /\ Page.stream_payloads new_TextDecoder
       [encode (Route.sseData (Some (JString Examples.thinking0))
                              (Some (JString Examples.content0)))]
     = [JObject [(js "thinking", JString Examples.thinking0);
                 (js "content", JString Examples.content0)]].
Proof. vm_compute. split; reflexivity. Qed.

(* ================================================================== *)
(** * Further properties of the bridge                                 *)
(* ================================================================== *)

Section JsonValues.
Context {F : Float64}.

Lemma Str_eqb_spec a : forall b, reflect (a = b) (Str.eqb a b).
Proof.
  induction a as [|x a IH]; intros [|y b]; simpl; try (constructor; congruence).
  destruct (Z.eqb_spec x y) as [->|Hxy]; simpl.
  - destruct (IH b) as [->|Hab]; constructor; congruence.
  - constructor; congruence.
Qed.

(** ** Objects list new keys in the order they come *)

Lemma obj_set_new k v props :
  ~ In k (map fst props) -> array_index k = None ->
  obj_set k v props = props ++ [(k, v)].
Proof.
  intros Hk Hi. induction props as [|[k' v'] props IH]; simpl; [reflexivity|].
  destruct (Str_eqb_spec k k') as [->|Hne]; [exfalso; apply Hk; now left|].
  rewrite Hi. cbn [precedes]. rewrite IH; [reflexivity|].
  intros Hin; apply Hk; now right.
Qed.

Lemma fold_obj_set ms : forall acc,
  NoDup (map fst (acc ++ ms)) ->
  Forall (fun k => code_units_ok k /\ array_index k = None) (map fst ms) ->
  fold_left (fun props m => obj_set (fst m) (snd m) props) ms acc = acc ++ ms.
Proof.
  induction ms as [|[k v] ms IH]; intros acc Hnd Hks; simpl;
    [now rewrite app_nil_r|].
  inversion Hks as [|? ? [_ Hi] Hks']; subst.
  rewrite obj_set_new; [| |assumption].
  - rewrite IH; [now rewrite <- app_assoc| |assumption].
    now rewrite <- app_assoc.
  - rewrite map_app in Hnd. simpl in Hnd.
    apply NoDup_remove_2 in Hnd. intros Hin; apply Hnd.
    apply in_or_app; now left.
Qed.

Lemma make_object_plain ps :
  NoDup (map fst ps) ->
  Forall (fun k => code_units_ok k /\ array_index k = None) (map fst ps) ->
  make_object ps = JObject ps.
Proof.
  intros Hnd Hks. unfold make_object. now rewrite fold_obj_set.
Qed.

(** ** [JSON.parse] reads back what [JSON.stringify] writes *)

Lemma stringify_head v :
  plain v ->
  exists c tl, stringify v = c :: tl
               /\ (c = 110 \/ c = 116 \/ c = 102 \/ c = 34 \/ c = 91 \/ c = 123).
Proof.
  intros H. destruct H as [ | b | s Hs | vs Hvs | ps H1 H2 H3 ]; try destruct b;
    eexists; eexists; (split; [reflexivity|]); tauto.
Qed.

Lemma head_not_ws c :
  c = 110 \/ c = 116 \/ c = 102 \/ c = 34 \/ c = 91 \/ c = 123 ->
  is_json_ws c = false /\ (c =? 93) = false /\ (c =? 125) = false.
Proof. intros [-> | [-> | [-> | [-> | [-> | ->]]]]]; repeat split. Qed.

Lemma join_comma_cons {A} (f : A -> jsstring) x y l :
  join_comma (map f (x :: y :: l)) = f x ++ 44 :: join_comma (map f (y :: l)).
Proof. reflexivity. Qed.

Lemma parse_elements_back vs :
  Forall parses_back vs -> Forall plain vs -> vs <> [] ->
  forall fuel rest,
    (2 * List.length (join_comma (map stringify vs)) + 1 <= fuel)%nat ->
    parse_elements fuel (join_comma (map stringify vs) ++ 93 :: rest)
    = Ok vs rest.
Proof.
  induction vs as [|v vs IH]; intros Hback Hplain Hne fuel rest Hf;
    [contradiction|].
  inversion Hback as [|? ? Hv Hback']; subst.
  inversion Hplain as [|? ? Hpv Hplain']; subst.
  destruct fuel as [|f]; [lia|]. cbn [parse_elements].
  destruct vs as [|v' vs'].
  - cbn [map join_comma] in *.
    rewrite Hv by lia. cbn [bind skip_ws].
    change (is_json_ws 93) with false. cbv iota.
    change (93 =? 44) with false. change (93 =? 93) with true. reflexivity.
  - rewrite join_comma_cons in *. rewrite length_app in Hf.
    cbn [List.length] in Hf.
    rewrite <- app_assoc. cbn [app].
    rewrite Hv by lia. cbn [bind skip_ws].
    change (is_json_ws 44) with false. cbv iota.
    change (44 =? 44) with true. cbv iota.
    rewrite IH; [reflexivity|assumption|assumption|discriminate|lia].
Qed.

Lemma parse_members_back ps :
  Forall parses_back (map snd ps) ->
  Forall (fun k => code_units_ok k /\ array_index k = None) (map fst ps) ->
  ps <> [] ->
  forall fuel rest,
    (2 * List.length (join_comma (map member_json ps)) + 1 <= fuel)%nat ->
    parse_members fuel (join_comma (map member_json ps) ++ 125 :: rest)
    = Ok ps rest.
Proof.
  induction ps as [|[k v] ps IH]; intros Hback Hkeys Hne fuel rest Hf;
    [contradiction|].
  inversion Hback as [|? ? Hv Hback']; subst.
  inversion Hkeys as [|? ? [Hk _] Hkeys']; subst.
  destruct fuel as [|f]; [lia|].
  assert (forall more,
             (2 * List.length (stringify v) <= f)%nat ->
             parse_members (S f) (member_json (k, v) ++ more)
             = match skip_ws more with
               | c :: r4 =>
                   if c =? 44 then
                     bind (parse_members f r4)
                          (fun ms rest => Ok ((k, v) :: ms) rest)
                   else if c =? 125 then Ok [(k, v)] r4
                   else SyntaxError
               | [] => SyntaxError
               end) as Hmember.
  { intros more Hfv. unfold member_json, quote; cbn [fst snd].
    cbn [app parse_members skip_ws].
    change (is_json_ws 34) with false. cbv iota.
    change (negb (34 =? 34)) with false. cbv iota.
    rewrite <- !app_assoc. cbn [app].
    rewrite parse_quote_chars by assumption.
    cbn [skip_ws]. change (is_json_ws 58) with false. cbv iota.
    change (negb (58 =? 58)) with false. cbv iota.
    now rewrite Hv by assumption. }
  destruct ps as [|kv' ps'].
  - cbn [map join_comma] in *.
    assert (2 * List.length (stringify v) <= f)%nat as Hfv.
    { unfold member_json in Hf; cbn [fst snd] in Hf.
      rewrite length_app in Hf. cbn [List.length] in Hf. lia. }
    rewrite Hmember by assumption. cbn [skip_ws].
    change (is_json_ws 125) with false. cbv iota.
    change (125 =? 44) with false. change (125 =? 125) with true. reflexivity.
  - rewrite join_comma_cons in *. rewrite length_app in Hf.
    cbn [List.length] in Hf.
    assert (2 * List.length (stringify v) <= f)%nat as Hfv.
    { unfold member_json at 1 in Hf; cbn [fst snd] in Hf.
      rewrite length_app in Hf. cbn [List.length] in Hf. lia. }
    rewrite <- app_assoc. cbn [app].
    rewrite Hmember by assumption. cbn [skip_ws].
    change (is_json_ws 44) with false. cbv iota.
    change (44 =? 44) with true. cbv iota.
    rewrite IH; [reflexivity|assumption|assumption|discriminate|lia].
Qed.

Lemma stringify_object ps :
  stringify (JObject ps) = 123 :: join_comma (map member_json ps) ++ [125].
Proof. reflexivity. Qed.

Lemma startsWith_app word : forall rest,
  Str.startsWith (word ++ rest) word = true.
Proof.
  induction word as [|c word IH]; intros rest; simpl.
  - now destruct rest.
  - now rewrite Z.eqb_refl, IH.
Qed.

Lemma literal_here word v rest : literal word v (word ++ rest) = Ok v rest.
Proof.
  unfold literal. rewrite startsWith_app. f_equal.
  induction word; simpl; auto.
Qed.

Lemma plain_parses_back v : plain v -> parses_back v.
Proof.
  induction v as [|b|n|s|vs IH|ps IH] using JSValue_nested_ind;
    intros Hp fuel rest Hf.
  - destruct fuel as [|f]; [simpl in Hf; lia|].
    exact (literal_here (js "null") JNull rest).
  - destruct fuel as [|f]; [destruct b; simpl in Hf; lia|].
    destruct b;
      [exact (literal_here (js "true") (JBool true) rest)
      |exact (literal_here (js "false") (JBool false) rest)].
  - inversion Hp.
  - inversion Hp; subst.
    destruct fuel as [|f]; [simpl in Hf; lia|].
    now apply parse_value_string.
  - inversion Hp as [| | |? Hvs|]; subst.
    assert (Forall parses_back vs) as Hback.
    { rewrite Forall_forall in *. intros x Hx. apply IH; auto. }
    destruct fuel as [|f]; [simpl in Hf; lia|].
    cbn [stringify] in *. cbn [List.length] in Hf. rewrite length_app in Hf.
    cbn [List.length] in Hf.
    cbn [app parse_value skip_ws].
    change (is_json_ws 91) with false. cbv iota.
    change (91 =? 123) with false. change (91 =? 91) with true. cbv iota zeta.
    rewrite <- app_assoc. cbn [app].
    destruct vs as [|v vs'].
    + cbn [map join_comma app skip_ws].
      change (is_json_ws 93) with false. cbv iota.
      change (93 =? 93) with true. reflexivity.
    + rewrite (parse_elements_back (v :: vs') Hback Hvs) by (discriminate || lia).
      cbn [bind].
      inversion Hvs as [|? ? Hv _]; subst.
      destruct (stringify_head v Hv) as (c & tl & E & Hc).
      destruct (head_not_ws c Hc) as (Hws & H93 & _).
      destruct vs'; cbn [map join_comma]; rewrite E; cbn [app skip_ws];
        rewrite Hws, H93; reflexivity.
  - inversion Hp as [| | | |? Hnd Hkeys Hvs]; subst.
    assert (Forall parses_back (map snd ps)) as Hback.
    { rewrite Forall_forall in *. intros x Hx. apply IH; auto. }
    destruct fuel as [|f]; [simpl in Hf; lia|].
    rewrite stringify_object in *. cbn [List.length] in Hf.
    rewrite length_app in Hf. cbn [List.length] in Hf.
    cbn [app parse_value skip_ws].
    change (is_json_ws 123) with false. cbv iota.
    change (123 =? 123) with true. cbv iota zeta.
    rewrite <- app_assoc. cbn [app].
    destruct ps as [|[k v] ps'].
    + cbn [map join_comma app skip_ws].
      change (is_json_ws 125) with false. cbv iota.
      change (125 =? 125) with true. reflexivity.
    + rewrite (parse_members_back ((k, v) :: ps') Hback Hkeys)
        by (discriminate || lia).
      cbn [bind]. rewrite (make_object_plain _ Hnd Hkeys).
      destruct ps'; cbn [map join_comma]; unfold member_json at 1, quote;
        cbn [app skip_ws fst snd];
        change (is_json_ws 34) with false; cbv iota;
        change (34 =? 125) with false; reflexivity.
Qed.

Lemma distinct_NoDup ks : distinct ks = true -> NoDup ks.
Proof.
  induction ks as [|k ks IH]; cbn [distinct]; intros H; [apply NoDup_nil|].
  apply andb_prop in H as [Hk Hks].
  apply NoDup_cons; [|now apply IH].
  intros Hin. apply negb_true_iff in Hk.
  assert (existsb (Str.eqb k) ks = true) as E; [|congruence].
  apply existsb_exists. exists k. split; [exact Hin|].
  now destruct (Str_eqb_spec k k).
Qed.

Lemma plain_check_sound v : plain_check v = true -> plain v.
Proof.
  induction v as [|b|n|s|vs IH|ps IH] using JSValue_nested_ind;
    cbn [plain_check]; intros H.
  - apply plain_null.
  - apply plain_bool.
  - discriminate.
  - apply plain_string. now apply code_units_ok_check.
  - apply plain_array. rewrite forallb_forall in H.
    rewrite Forall_forall in *. intros x Hx. apply IH; auto.
  - apply andb_prop in H as [H Hvs]. apply andb_prop in H as [Hd Hk].
    apply plain_object.
    + now apply distinct_NoDup.
    + rewrite forallb_forall in Hk. apply Forall_forall. intros k Hin.
      specialize (Hk k Hin). unfold key_check in Hk.
      apply andb_prop in Hk as [H1 H2].
      split; [now apply code_units_ok_check|].
      now destruct (array_index k).
    + rewrite forallb_forall in Hvs. rewrite Forall_forall in *.
      intros x Hx. apply IH; [exact Hx|].
      apply in_map_iff in Hx as ([k x'] & <- & Hin). now apply Hvs.
Qed.

Lemma skip_ws_app ws s :
  forallb is_json_ws ws = true -> skip_ws (ws ++ s) = skip_ws s.
Proof.
  induction ws as [|c ws IH]; cbn [forallb app skip_ws]; [reflexivity|].
  intros H; apply andb_prop in H as [Hc Hws]. rewrite Hc. now apply IH.
Qed.

Lemma parse_value_skip fuel ws s :
  forallb is_json_ws ws = true ->
  parse_value fuel (ws ++ s) = parse_value fuel s.
Proof.
  intros H. destruct fuel as [|f]; [reflexivity|].
  cbn [parse_value]. now rewrite skip_ws_app.
Qed.

Lemma plain_round_trip v : plain v -> JSON_parse (stringify v) = Some v.
Proof.
  intros Hp. unfold JSON_parse.
  rewrite <- (app_nil_r (stringify v)) at 2.
  rewrite (plain_parses_back v Hp) by (unfold fuel_for; lia).
  reflexivity.
Qed.

(** X2: the round trip of [JSON.stringify] and [JSON.parse].  For a
    value made of [null], booleans, strings, arrays and objects with
    distinct keys, [JSON.parse(JSON.stringify(v))] is [v] again, also
    when white space (a carriage return of a CRLF line end, say)
    surrounds the text. *)
Theorem JSON_parse_stringify (v : JSValue) (ws1 ws2 : jsstring) :
  plain v ->
  forallb is_json_ws ws1 = true -> forallb is_json_ws ws2 = true ->
  JSON_parse (stringify v) = Some v
  /\ JSON_parse (ws1 ++ stringify v ++ ws2) = Some v.
Proof.
  intros Hp H1 H2. split; [now apply plain_round_trip|].
  unfold JSON_parse.
  rewrite parse_value_skip by assumption.
  rewrite (plain_parses_back v Hp)
    by (unfold fuel_for; rewrite !length_app; lia).
  rewrite <- (app_nil_r ws2), skip_ws_app by assumption. reflexivity.
Qed.

End JsonValues.

Section JsonText.
Context {F : Float64}.

Lemma join_comma_well_formed parts :
  Forall (fun p => well_formed p = true) parts ->
  well_formed (join_comma parts) = true.
Proof.
  induction 1 as [|p parts Hp _ IH]; [reflexivity|].
  destruct parts as [|q parts]; [exact Hp|].
  change (join_comma (p :: q :: parts)) with (p ++ 44 :: join_comma (q :: parts)).
  apply well_formed_app; [exact Hp|].
  now rewrite well_formed_plain by lia.
Qed.

Lemma join_comma_single_line parts :
  Forall (fun p => single_line p = true) parts ->
  single_line (join_comma parts) = true.
Proof.
  induction 1 as [|p parts Hp _ IH]; [reflexivity|].
  destruct parts as [|q parts]; [exact Hp|].
  change (join_comma (p :: q :: parts)) with (p ++ 44 :: join_comma (q :: parts)).
  rewrite single_line_app, single_line_cons by lia.
  now rewrite Hp, IH.
Qed.

(** What [JSON.stringify] writes is one line of well-formed UTF-16. *)
Lemma stringify_text v :
  plain v ->
  well_formed (stringify v) = true /\ single_line (stringify v) = true.
Proof.
  induction v as [|b|n|s|vs IH|ps IH] using JSValue_nested_ind; intros Hp.
  - split; reflexivity.
  - destruct b; split; reflexivity.
  - inversion Hp.
  - inversion Hp; subst. split;
      [now apply quote_well_formed | now apply quote_single_line].
  - inversion Hp as [| | |? Hvs|]; subst. cbn [stringify].
    assert (Forall (fun p => well_formed p = true /\ single_line p = true)
                   (map stringify vs)) as Hall.
    { apply Forall_map. rewrite Forall_forall in *.
      intros x Hx. apply IH; auto. }
    split.
    + rewrite well_formed_plain by lia.
      apply well_formed_app; [|reflexivity].
      apply join_comma_well_formed.
      eapply Forall_impl; [|exact Hall]. now intros p [? _].
    + rewrite single_line_cons, single_line_app by lia.
      rewrite join_comma_single_line; [reflexivity|].
      eapply Forall_impl; [|exact Hall]. now intros p [_ ?].
  - inversion Hp as [| | | |? Hnd Hkeys Hvs]; subst.
    rewrite stringify_object.
    assert (Forall (fun p => well_formed p = true /\ single_line p = true)
                   (map member_json ps)) as Hall.
    { clear Hnd Hp. revert IH Hkeys Hvs.
      induction ps as [|[k v] ps IHps]; intros IH Hkeys Hvs; [constructor|].
      inversion Hkeys as [|? ? [Hk _] Hkeys']; subst.
      inversion Hvs as [|? ? Hv Hvs']; subst.
      inversion IH as [|? ? IHv IH']; subst.
      constructor; [|now apply IHps].
      destruct (IHv Hv) as [Hw Hs]. unfold member_json; cbn [fst snd]. split.
      - apply well_formed_app; [now apply quote_well_formed|].
        now rewrite well_formed_plain by lia.
      - rewrite single_line_app, single_line_cons by lia.
        now rewrite quote_single_line, Hs. }
    split.
    + rewrite well_formed_plain by lia.
      apply well_formed_app; [|reflexivity].
      apply join_comma_well_formed.
      eapply Forall_impl; [|exact Hall]. now intros p [? _].
    + rewrite single_line_cons, single_line_app by lia.
      rewrite join_comma_single_line; [reflexivity|].
      eapply Forall_impl; [|exact Hall]. now intros p [_ ?].
Qed.

End JsonText.

Section WireText.

Lemma scalar_values_head c s :
  well_formed (c :: s) = true -> c <> 0xFEFF ->
  exists cp cps, scalar_values (c :: s) = cp :: cps /\ cp <> 0xFEFF.
Proof.
  intros Hwf Hc. cbn [well_formed scalar_values] in *.
  destruct (is_lead_spec c) as [Hl|Hl].
  - destruct s as [|d s']; [discriminate|].
    destruct (is_trail_spec d); [|discriminate].
    eexists; eexists; split; [reflexivity|]. rewrite shiftl_10. lia.
  - destruct (is_trail c); [discriminate|].
    eexists; eexists; split; [reflexivity|assumption].
Qed.

(** A new [TextDecoder] reads back what [TextEncoder] wrote, when the
    text does not start with a byte order mark. *)
Lemma decode_new_encode s :
  well_formed s = true ->
  match s with c :: _ => c <> 0xFEFF | [] => True end ->
  snd (decode_stream new_TextDecoder (encode s)) = s
  /\ decoder (fst (decode_stream new_TextDecoder (encode s))) = utf8_init.
Proof.
  intros Hwf Hbom. unfold decode_stream, encode, new_TextDecoder;
    cbn [decoder bom_seen].
  rewrite utf8_run_encode_all
    by (apply scalar_values_scalar, well_formed_ok, Hwf).
  pose proof (code_units_scalar_values s Hwf) as E.
  destruct s as [|c s]; [split; reflexivity|].
  destruct (scalar_values_head c s Hwf Hbom) as (cp & cps & Ecp & Hcp).
  rewrite Ecp in *. cbn [strip_bom].
  apply Z.eqb_neq in Hcp. rewrite Hcp. cbn [fst snd decoder].
  split; [exact E|reflexivity].
Qed.

Lemma chunked_text chunks : forall td,
  chunked (fun text => text) td chunks
  = snd (decode_stream td (List.concat chunks)).
Proof.
  induction chunks as [|c chunks IH]; intros td.
  - simpl. unfold decode_stream; simpl.
    now destruct (bom_seen td).
  - cbn [chunked List.concat]. rewrite decode_stream_app.
    destruct (decode_stream td c) as [td1 t1].
    rewrite IH. now destruct (decode_stream td1 (List.concat chunks)).
Qed.

(** X1: text survives any cut of its bytes.  When well-formed text is
    encoded by [TextEncoder] and its bytes arrive in chunks cut anywhere,
    also inside a character, the streaming [TextDecoder] of either loop
    gives, chunk after chunk, pieces that put together are the text. *)
Theorem text_survives_any_cut (s : jsstring) (chunks : list bytes) :
  well_formed s = true ->
  match s with c :: _ => c <> 0xFEFF | [] => True end ->
  List.concat chunks = encode s ->
  chunked (fun text => text) new_TextDecoder chunks = s.
Proof.
  intros Hwf Hbom Hcut. rewrite chunked_text, Hcut.
  now apply decode_new_encode.
Qed.

End WireText.

Section Accumulation.
Context {F : Float64}.

Lemma decode_encode_started td c s :
  decoder td = utf8_init ->
  well_formed (c :: s) = true -> is_lead c = false -> c <> 0xFEFF ->
  decode_stream td (encode (c :: s)) = (mkDecoder utf8_init true, c :: s).
Proof.
  intros Hd Hwf Hl Hc. destruct td as [d [|]]; simpl in Hd; subst d.
  - now apply decode_encode.
  - now apply decode_encode_new.
Qed.

Lemma data_lines_sseData thinking content :
  pair_ok thinking content ->
  Page.data_lines
    (Route.sseData (option_map JString thinking) (option_map JString content))
  = [js "data: " ++ stringify_literal (pair_literal thinking content)].
Proof.
  intros Hok. apply pair_members_ok in Hok.
  unfold Route.sseData.
  change [(js "thinking", option_map JString thinking);
          (js "content", option_map JString content)]
    with (pair_literal thinking content) in *.
  set (obj := stringify_literal (pair_literal thinking content)) in *.
  assert (single_line (js "data: " ++ obj) = true) as Hone.
  { unfold obj. rewrite stringify_pair.
    rewrite single_line_app. change (single_line (js "data: ")) with true.
    rewrite single_line_cons by lia.
    rewrite single_line_app, members_single_line by assumption.
    reflexivity. }
  unfold Page.data_lines.
  rewrite app_assoc.
  change [10; 10] with ([] ++ 10 :: [10]).
  rewrite app_nil_l, split_lines_app, (single_line_split _ Hone).
  cbn [app Str.split_lines filter].
  change (10 =? 10) with true. cbv iota.
  cbn [filter].
  change (Str.startsWith (js "data: " ++ obj) (js "data:")) with true.
  cbv iota. change (Str.startsWith [] (js "data:")) with false. cbv iota.
  reflexivity.
Qed.

Lemma append_string acc s :
  Page.append_if_truthy acc (Some (JString s)) = Some (acc ++ s).
Proof.
  unfold Page.append_if_truthy. cbn [truthy ToString].
  destruct s; cbn [Str.is_empty negb]; [now rewrite app_nil_r|reflexivity].
Qed.

Lemma append_absent acc :
  Page.append_if_truthy acc None = Some (acc ++ text_of None).
Proof. cbn. now rewrite app_nil_r. Qed.

Lemma Get_pair_thinking thinking content :
  Get (pair_object thinking content) (js "thinking")
  = option_map JString thinking.
Proof. destruct thinking, content; reflexivity. Qed.

Lemma Get_pair_content thinking content :
  Get (pair_object thinking content) (js "content")
  = option_map JString content.
Proof. destruct thinking, content; reflexivity. Qed.

Lemma append_pair_field acc (field : option jsstring) :
  Page.append_if_truthy acc (option_map JString field)
  = Some (acc ++ text_of field).
Proof.
  destruct field; [apply append_string|apply append_absent].
Qed.

(** One pair applied: both strings grow and one snapshot is published. *)
Lemma apply_payload_pair t thinking content :
  Page.apply_payload t (pair_object thinking content)
  = Page.setMessages
      (Page.replace_last
         {| Page.role := Page.assistant;
            Page.content := Page.content_var t ++ text_of content;
            Page.thinking := Some (Page.thinking_var t ++ text_of thinking) |})
      {| Page.home := Page.home t;
         Page.content_var := Page.content_var t ++ text_of content;
         Page.thinking_var := Page.thinking_var t ++ text_of thinking;
         Page.text_decoder := Page.text_decoder t;
         Page.published := Page.published t;
         Page.console := Page.console t |}.
Proof.
  unfold Page.apply_payload.
  rewrite Get_pair_thinking, Get_pair_content, !append_pair_field.
  reflexivity.
Qed.

Lemma handle_chunk_data t thinking content :
  decoder (Page.text_decoder t) = utf8_init ->
  pair_ok thinking content ->
  Page.handle_chunk t (wire_bytes (Data thinking content))
  = Page.apply_payload (Page.with_decoder t (mkDecoder utf8_init true))
                       (pair_object thinking content).
Proof.
  intros Hd Hok. unfold Page.handle_chunk, wire_bytes.
  pose proof (sseData_well_formed thinking content Hok) as Hwf.
  pose proof (data_lines_sseData thinking content Hok) as Hlines.
  pose proof (decode_line_pair thinking content Hok) as Hline.
  set (line := Route.sseData _ _) in *.
  assert (exists rest, line = 100 :: rest) as [rest E]
      by (eexists; reflexivity).
  rewrite E in Hwf |- *.
  rewrite (decode_encode_started _ 100 rest Hd Hwf) by (reflexivity || lia).
  rewrite <- E. unfold Page.handle_text. rewrite Hlines.
  cbn [fold_left]. unfold Page.handle_line. now rewrite Hline.
Qed.

Lemma handle_chunk_done t :
  decoder (Page.text_decoder t) = utf8_init ->
  Page.handle_chunk t (wire_bytes Done)
  = Page.with_decoder t (mkDecoder utf8_init true).
Proof.
  intros Hd. unfold Page.handle_chunk, wire_bytes.
  change (js "data: [DONE]" ++ [10; 10])
    with (100 :: skipn 1 (js "data: [DONE]") ++ [10; 10]).
  rewrite (decode_encode_started _ _ _ Hd) by (reflexivity || lia).
  reflexivity.
Qed.

Lemma replace_last_twice d d' l :
  Page.replace_last d (Page.replace_last d' l) = Page.replace_last d l.
Proof.
  unfold Page.replace_last. now rewrite removelast_last.
Qed.

Lemma no_data_no_text events :
  existsb is_data events = false ->
  List.concat (map event_thinking events) = []
  /\ List.concat (map event_content events) = [].
Proof.
  induction events as [|[th co|] events IH]; intros H; simpl in *;
    [split; reflexivity|discriminate|now apply IH].
Qed.

Lemma read_loop_events events : forall t,
  Forall event_ok events ->
  decoder (Page.text_decoder t) = utf8_init ->
  let t' := Page.read_loop t (map wire_bytes events) in
  Page.thinking_var t'
  = Page.thinking_var t ++ List.concat (map event_thinking events)
  /\ Page.content_var t'
     = Page.content_var t ++ List.concat (map event_content events)
  /\ Page.messages (Page.home t')
     = (if existsb is_data events
        then Page.replace_last
               {| Page.role := Page.assistant;
                  Page.content := Page.content_var t';
                  Page.thinking := Some (Page.thinking_var t') |}
               (Page.messages (Page.home t))
        else Page.messages (Page.home t))
  /\ List.length (Page.published t')
     = (List.length (Page.published t)
        + List.length (filter is_data events))%nat.
Proof.
  induction events as [|e events IH]; intros t Hok Hd; cbv zeta.
  - simpl. rewrite !app_nil_r. repeat split; lia.
  - inversion Hok as [|? ? He Hok']; subst.
    unfold Page.read_loop. cbn [map fold_left].
    fold (Page.read_loop (Page.handle_chunk t (wire_bytes e))
                         (map wire_bytes events)).
    destruct e as [th co|].
    + rewrite handle_chunk_data, apply_payload_pair by assumption.
      match goal with
      | |- context [Page.read_loop ?u _] => set (t1 := u)
      end.
      assert (Page.thinking_var t1 = Page.thinking_var t ++ text_of th)
        as E1 by reflexivity.
      assert (Page.content_var t1 = Page.content_var t ++ text_of co)
        as E2 by reflexivity.
      assert (Page.messages (Page.home t1)
              = Page.replace_last
                  {| Page.role := Page.assistant;
                     Page.content := Page.content_var t1;
                     Page.thinking := Some (Page.thinking_var t1) |}
                  (Page.messages (Page.home t))) as E3 by reflexivity.
      assert (List.length (Page.published t1)
              = S (List.length (Page.published t))) as E4.
      { unfold t1. cbn [Page.setMessages Page.published Page.with_decoder].
        rewrite length_app. cbn [List.length]. lia. }
      destruct (IH t1 Hok' eq_refl) as (Hth & Hco & Hms & Hpub).
      clearbody t1. cbv zeta in *.
      cbn [existsb is_data orb filter map List.concat event_thinking
           event_content List.length].
      rewrite Hms, E3, Hth, Hco, Hpub, E4, E1, E2, <- !app_assoc.
      repeat split; try lia.
      destruct (existsb is_data events) eqn:E.
      * now rewrite replace_last_twice.
      * destruct (no_data_no_text events E) as [N1 N2].
        now rewrite N1, N2, !app_nil_r.
    + rewrite handle_chunk_done by assumption.
      destruct (IH (Page.with_decoder t (mkDecoder utf8_init true)) Hok' eq_refl)
        as (Hth & Hco & Hms & Hpub).
      cbv zeta in *. cbn [existsb is_data orb filter map List.concat app].
      repeat split; assumption.
Qed.

(** The transcript after the events: the draft holds what they
    carried. *)
Lemma begin_turn_draft (h : Page.Home) (events : list WireEvent) :
  Forall event_ok events ->
  Page.messages
    (Page.home (Page.read_loop (Page.begin_turn h) (map wire_bytes events)))
  = Page.newMessages h ++ [draft_after events].
Proof.
  intros Hok.
  destruct (read_loop_events events (Page.begin_turn h) Hok eq_refl)
    as (Hth & Hco & Hms & _).
  cbv zeta in Hth, Hco, Hms. simpl in Hth, Hco.
  rewrite Hms, Hth, Hco. cbn [Page.begin_turn Page.home Page.messages].
  unfold draft_after.
  destruct (existsb is_data events); [|reflexivity].
  unfold Page.replace_last. now rewrite removelast_last.
Qed.

Lemma begin_turn_vars (h : Page.Home) (events : list WireEvent) :
  Forall event_ok events ->
  let t := Page.read_loop (Page.begin_turn h) (map wire_bytes events) in
  Page.thinking_var t = List.concat (map event_thinking events)
  /\ Page.content_var t = List.concat (map event_content events).
Proof.
  intros Hok t.
  destruct (read_loop_events events (Page.begin_turn h) Hok eq_refl)
    as (Hth & Hco & _).
  split; assumption.
Qed.

(** X9: the page accumulates.  After reading the events the relay
    enqueued, one per read, the two strings are the concatenations of
    the fragments in order, the transcript is the user's message
    followed by one draft that holds them, and one snapshot was
    published at the start and one for each data event; the sentinel
    adds nothing. *)
Theorem page_accumulates_fragments (h : Page.Home) (events : list WireEvent) :
  Forall event_ok events ->
  let t := Page.read_loop (Page.begin_turn h) (map wire_bytes events) in
  Page.thinking_var t = List.concat (map event_thinking events)
  /\ Page.content_var t = List.concat (map event_content events)
  /\ Page.messages (Page.home t)
     = Page.newMessages h
       ++ [if existsb is_data events
           then {| Page.role := Page.assistant;
                   Page.content := List.concat (map event_content events);
                   Page.thinking :=
                     Some (List.concat (map event_thinking events)) |}
           else {| Page.role := Page.assistant;
                   Page.content := [];
                   Page.thinking := None |}]
  /\ List.length (Page.published t)
     = S (List.length (filter is_data events)).
Proof.
  intros Hok t.
  destruct (read_loop_events events (Page.begin_turn h) Hok eq_refl)
    as (Hth & Hco & Hms & Hpub).
  fold t in Hth, Hco, Hms, Hpub. simpl in Hth, Hco, Hpub.
  repeat split; try assumption.
  rewrite Hms, Hth, Hco. cbn [Page.begin_turn Page.home Page.messages].
  destruct (existsb is_data events); [|reflexivity].
  unfold Page.replace_last. now rewrite removelast_last.
Qed.

End Accumulation.

Section SkippedLines.
Context {F : Float64}.

Lemma trimStart_spaces ws s :
  forallb Str.is_space ws = true -> Str.trimStart (ws ++ s) = Str.trimStart s.
Proof.
  induction ws as [|c ws IH]; cbn [forallb app Str.trimStart]; [reflexivity|].
  intros H; apply andb_prop in H as [Hc Hws]. rewrite Hc. now apply IH.
Qed.

Lemma forallb_rev {A} (f : A -> bool) l :
  forallb f l = true -> forallb f (rev l) = true.
Proof.
  rewrite !forallb_forall. intros H x Hx. apply H. now apply in_rev.
Qed.

Lemma trimEnd_spaces s ws :
  forallb Str.is_space ws = true -> Str.trimEnd (s ++ ws) = Str.trimEnd s.
Proof.
  intros H. unfold Str.trimEnd.
  now rewrite rev_app_distr, trimStart_spaces by now apply forallb_rev.
Qed.

Lemma trim_spaces ws1 s ws2 :
  forallb Str.is_space ws1 = true -> forallb Str.is_space ws2 = true ->
  Str.trim (ws1 ++ s ++ ws2) = Str.trim s.
Proof.
  intros H1 H2. unfold Str.trim. rewrite trimStart_spaces by assumption.
  induction s as [|c s IH]; cbn [app Str.trimStart].
  - rewrite <- (app_nil_r ws2), trimStart_spaces by assumption. reflexivity.
  - destruct (Str.is_space c); [exact IH|].
    now apply (trimEnd_spaces (c :: s)).
Qed.

Lemma trim_blank ws : forallb Str.is_space ws = true -> Str.trim ws = [].
Proof.
  intros H. pose proof (trim_spaces ws [] [] H eq_refl) as E.
  cbn [app] in E. now rewrite app_nil_r in E.
Qed.

Lemma relay_line_blank ws :
  forallb Str.is_space ws = true -> Route.relay_line ws = [].
Proof.
  intros H. unfold Route.relay_line. now rewrite trim_blank.
Qed.

Lemma handle_text_not_data t line :
  single_line line = true -> Str.startsWith line (js "data:") = false ->
  Page.handle_text t line = t.
Proof.
  intros Hone Hno. unfold Page.handle_text, Page.data_lines.
  rewrite (single_line_split _ Hone). cbn [filter]. now rewrite Hno.
Qed.

(** X6: the relay skips blank lines.  A line of white space only
    between two lines of the backend (the empty line of a [\n\n], the
    carriage return of an empty CRLF line) enqueues nothing and does not
    disturb the lines around it. *)
Theorem relay_skips_blank_lines (a blank b : jsstring) :
  single_line blank = true -> forallb Str.is_space blank = true ->
  Route.relay_text (a ++ 10 :: blank ++ 10 :: b)
  = Route.relay_text (a ++ 10 :: b).
Proof.
  intros Hone Hblank.
  rewrite (relay_text_app a (blank ++ 10 :: b)), (relay_text_app a b).
  f_equal. apply (relay_text_skips blank b Hone).
  now apply relay_line_blank.
Qed.

(** X7: the page reads [data:] lines only.  A line that does not start
    with [data:] (an SSE comment, an [event:] or [id:] field, a line
    with white space before [data:]) changes nothing, wherever it stands
    in the text of a chunk. *)
Theorem page_ignores_other_fields (t : Page.Turn) (a line b : jsstring) :
  single_line line = true ->
  Str.startsWith line (js "data:") = false ->
  Page.handle_text t (a ++ 10 :: line ++ 10 :: b)
  = Page.handle_text t (a ++ 10 :: b).
Proof.
  intros Hone Hno.
  rewrite (handle_text_app t a), (handle_text_app _ line),
          (handle_text_app t a).
  now rewrite (handle_text_not_data _ line Hone Hno).
Qed.

(** X8: white space around the payload does not count.  Whatever white
    space stands between [data:] and the payload and after it (no
    space, several, the carriage return of a CRLF line end), the line
    is read as the same event. *)
Theorem payload_padding_is_trimmed (ws1 payload ws2 : jsstring) :
  forallb Str.is_space ws1 = true -> forallb Str.is_space ws2 = true ->
  Page.decode_line (js "data:" ++ ws1 ++ payload ++ ws2)
  = Page.decode_line (js "data:" ++ payload).
Proof.
  intros H1 H2. unfold Page.decode_line.
  change (Str.slice 5 (js "data:" ++ ws1 ++ payload ++ ws2))
    with (ws1 ++ payload ++ ws2).
  change (Str.slice 5 (js "data:" ++ payload)) with payload.
  now rewrite trim_spaces.
Qed.

End SkippedLines.

Section Alignment.
Context {F : Float64}.

Lemma scalar_values_LF s : scalar_values (s ++ [10]) = scalar_values s ++ [10].
Proof.
  induction s as [| c | c d r IH1 IH2] using list_ind2.
  - reflexivity.
  - cbn [app scalar_values].
    change (is_trail 10) with false. change (is_lead 10) with false.
    destruct (is_lead c); [reflexivity|].
    destruct (is_trail c); reflexivity.
  - change ((c :: d :: r) ++ [10]) with (c :: d :: (r ++ [10])).
    change (scalar_values (c :: d :: r ++ [10]))
      with (if is_lead c then
              if is_trail d
              then (0x10000 + Z.shiftl (c - 0xD800) 10 + (d - 0xDC00))
                     :: scalar_values (r ++ [10])
              else 0xFFFD :: scalar_values ((d :: r) ++ [10])
            else if is_trail c then 0xFFFD :: scalar_values ((d :: r) ++ [10])
            else c :: scalar_values ((d :: r) ++ [10])).
    change (scalar_values (c :: d :: r))
      with (if is_lead c then
              if is_trail d
              then (0x10000 + Z.shiftl (c - 0xD800) 10 + (d - 0xDC00))
                     :: scalar_values r
              else 0xFFFD :: scalar_values (d :: r)
            else if is_trail c then 0xFFFD :: scalar_values (d :: r)
            else c :: scalar_values (d :: r)).
    rewrite IH1, IH2.
    destruct (is_lead c); [destruct (is_trail d); reflexivity|].
    destruct (is_trail c); reflexivity.
Qed.

Lemma encode_LF s : encode (s ++ [10]) = encode s ++ [10].
Proof.
  unfold encode. now rewrite scalar_values_LF, flat_map_app.
Qed.

Lemma ends_with_LF_snoc a : ends_with_LF (a ++ [10]) = true.
Proof. unfold ends_with_LF. now rewrite rev_unit. Qed.

Lemma relay_line_LF line :
  Forall (fun c => ends_with_LF c = true) (Route.relay_line line).
Proof.
  unfold Route.relay_line.
  destruct (Str.is_empty _); [apply Forall_nil|].
  destruct (JSON_parse line) as [json|]; [|apply Forall_nil].
  destruct json; try apply Forall_nil;
    (apply Forall_app; split;
     [ destruct (_ || _); [|apply Forall_nil];
       apply Forall_cons; [|apply Forall_nil];
       unfold Route.sseData;
       change [10; 10] with ([10] ++ [10]);
       rewrite !app_assoc, encode_LF; apply ends_with_LF_snoc
     | destruct (truthy _); [|apply Forall_nil];
       apply Forall_cons; [|apply Forall_nil];
       vm_compute; reflexivity ]).
Qed.

Lemma relay_text_LF text :
  Forall (fun c => ends_with_LF c = true) (Route.relay_text text).
Proof.
  unfold Route.relay_text.
  induction (Str.split_lines text) as [|l ls IH]; cbn [flat_map];
    [apply Forall_nil|].
  apply Forall_app; split; [apply relay_line_LF|exact IH].
Qed.

Lemma relay_loop_LF chunks : forall td,
  Forall (fun c => ends_with_LF c = true) (Route.relay_loop td chunks).
Proof.
  induction chunks as [|c cs IH]; intros td; cbn [Route.relay_loop];
    [apply Forall_nil|].
  unfold Route.relay_chunk. destruct (decode_stream td c) as [td' text].
  apply Forall_app; split; [apply relay_text_LF|apply IH].
Qed.

Lemma ends_with_LF_app a b :
  ends_with_LF b = true -> ends_with_LF (a ++ b) = true.
Proof.
  unfold ends_with_LF. rewrite rev_app_distr.
  destruct (rev b); [discriminate|]. now cbn.
Qed.

Lemma ends_with_LF_concat group :
  group <> [] -> Forall (fun c => ends_with_LF c = true) group ->
  ends_with_LF (List.concat group) = true.
Proof.
  induction group as [|c [|c' cs] IH]; intros Hne Hall; [contradiction| |].
  - cbn. rewrite app_nil_r. now inversion Hall.
  - change (List.concat (c :: c' :: cs)) with (c ++ List.concat (c' :: cs)).
    apply ends_with_LF_app, IH; [discriminate|now inversion Hall].
Qed.

Lemma line_aligned_all chunks :
  Forall (fun c => ends_with_LF c = true) chunks -> line_aligned chunks.
Proof.
  unfold line_aligned. intros H.
  induction H as [|c [|c' cs] Hc Hcs IH]; cbn [removelast];
    [apply Forall_nil|apply Forall_nil|].
  apply Forall_cons; [exact Hc|exact IH].
Qed.

Lemma Forall_concat {A} (P : A -> Prop) (groups : list (list A)) :
  Forall P (List.concat groups) -> Forall (Forall P) groups.
Proof.
  induction groups as [|g gs IH]; cbn [List.concat]; intros H;
    [apply Forall_nil|].
  apply Forall_app in H as [Hg Hgs].
  apply Forall_cons; [exact Hg|now apply IH].
Qed.

Lemma concat_concat {A} (groups : list (list (list A))) :
  List.concat (map (@List.concat A) groups) = List.concat (List.concat groups).
Proof.
  induction groups as [|g gs IH]; cbn [map List.concat]; [reflexivity|].
  now rewrite concat_app, IH.
Qed.

Lemma read_loop_regroup t reads reads' :
  decoder_ok (Page.text_decoder t) ->
  line_aligned reads -> line_aligned reads' ->
  List.concat reads = List.concat reads' ->
  Page.read_loop t reads = Page.read_loop t reads'.
Proof.
  intros Hok H1 H2 E.
  rewrite (read_loop_aligned reads t Hok H1).
  rewrite (read_loop_aligned reads' t Hok H2).
  now rewrite E.
Qed.

Lemma stream_payloads_regroup td reads reads' :
  decoder_ok td ->
  line_aligned reads -> line_aligned reads' ->
  List.concat reads = List.concat reads' ->
  Page.stream_payloads td reads = Page.stream_payloads td reads'.
Proof.
  intros Hok H1 H2 E. rewrite !stream_payloads_chunked.
  rewrite (chunked_aligned _ eq_refl reads td Hok H1).
  rewrite (chunked_aligned _ eq_refl reads' td Hok H2).
  now rewrite E.
Qed.

Lemma groups_aligned (written : list bytes) (groups : list (list bytes)) :
  Forall (fun c => ends_with_LF c = true) written ->
  Forall (fun g => g <> []) groups ->
  List.concat groups = written ->
  line_aligned (map (@List.concat Z) groups).
Proof.
  intros Hall Hne Hgroups.
  apply line_aligned_all. rewrite <- Hgroups in Hall.
  apply Forall_concat in Hall.
  apply Forall_map.
  rewrite Forall_forall in *. intros g Hg.
  apply ends_with_LF_concat; [now apply Hne|now apply Hall].
Qed.

(** X11: the relay cuts its output at event boundaries only, so what
    the page applies does not depend on how the events are grouped
    into reads.  Whatever bytes the backend sends, however cut, every
    chunk the relay enqueues ends with a line feed; and when the
    transport hands the page these chunks regrouped (several whole
    events in one read), the page decodes the same payloads in the same
    order and ends with the same thinking and content strings as when
    it reads them one by one. *)
Theorem page_reads_relay_output_in_any_grouping
        (td : TextDecoder) (chunks : list bytes)
        (t : Page.Turn) (groups : list (list bytes)) :
  decoder_ok (Page.text_decoder t) ->
  Forall (fun g => g <> []) groups ->
  List.concat groups = Route.relay_loop td chunks ->
  let written := Route.relay_loop td chunks in
  let reads := map (@List.concat Z) groups in
  Forall (fun c => ends_with_LF c = true) written
  /\ Page.stream_payloads (Page.text_decoder t) reads
     = Page.stream_payloads (Page.text_decoder t) written
  /\ Page.thinking_var (Page.read_loop t reads)
     = Page.thinking_var (Page.read_loop t written)
  /\ Page.content_var (Page.read_loop t reads)
     = Page.content_var (Page.read_loop t written).
Proof.
  intros Hok Hne Hgroups written reads.
  pose proof (relay_loop_LF chunks td) as Hall. fold written in Hall.
  assert (line_aligned written) as H1 by now apply line_aligned_all.
  assert (line_aligned reads) as H2
      by now apply (groups_aligned written groups).
  assert (List.concat reads = List.concat written) as E.
  { unfold reads. rewrite concat_concat. f_equal. exact Hgroups. }
  split; [exact Hall|]. split.
  - now apply stream_payloads_regroup.
  - rewrite (read_loop_regroup t reads written Hok H2 H1 E).
    split; reflexivity.
Qed.

End Alignment.

Section Bridge.
Context {F : Float64}.

Lemma trimStart_keeps s c :
  Str.is_space c = false -> Str.trimStart (s ++ [c]) <> [].
Proof.
  intros Hc. induction s as [|x s IH]; simpl.
  - rewrite Hc. discriminate.
  - destruct (Str.is_space x); [exact IH|discriminate].
Qed.

Lemma trim_not_empty c tl :
  Str.is_space c = false -> Str.is_empty (Str.trim (c :: tl)) = false.
Proof.
  intros Hc. unfold Str.trim, Str.trimEnd. cbn [Str.trimStart].
  rewrite Hc. cbn [rev].
  pose proof (trimStart_keeps (rev tl) c Hc) as H.
  destruct (Str.trimStart (rev tl ++ [c])) as [|x l]; [contradiction|].
  cbn [rev]. now destruct (rev l).
Qed.

Lemma plain_member ps k x :
  plain (JObject ps) -> assoc k ps = Some x -> plain x.
Proof.
  intros Hp. inversion Hp as [| | | |? _ _ Hvs]; subst. clear Hp.
  induction ps as [|[k' v'] ps IH]; simpl; [discriminate|].
  inversion Hvs; subst.
  destruct (Str.eqb k k'); [intros [= <-]; assumption|auto].
Qed.

Lemma truthy_field (field : option jsstring) :
  truthy (option_map JString field) = negb (Str.is_empty (text_of field)).
Proof. now destruct field. Qed.

(** A text that [JSON.parse] accepts starts, after white space, with
    the first character of a token. *)
Lemma lex_number_head c r :
  lex_number (c :: r) <> None -> 45 <= c <= 57.
Proof.
  unfold lex_number.
  destruct (Z.eqb_spec c 45) as [->|_]; [lia|].
  unfold lex_int.
  destruct (Z.eqb_spec c 48) as [->|_]; [lia|].
  destruct (in_range_spec 49 57 c); [lia|]. intros H; now contradiction H.
Qed.

Lemma parse_value_head fuel s v rest :
  parse_value fuel s = Ok v rest ->
  exists c r, skip_ws s = c :: r /\ 33 <= c <= 126.
Proof.
  destruct fuel as [|f]; [discriminate|]. cbn [parse_value].
  destruct (skip_ws s) as [|c r]; [discriminate|].
  intros H. exists c, r. split; [reflexivity|].
  destruct (Z.eqb_spec c 123) as [->|_]; [lia|].
  destruct (Z.eqb_spec c 91) as [->|_]; [lia|].
  destruct (Z.eqb_spec c 34) as [->|_]; [lia|].
  destruct (Z.eqb_spec c 116) as [->|_]; [lia|].
  destruct (Z.eqb_spec c 102) as [->|_]; [lia|].
  destruct (Z.eqb_spec c 110) as [->|_]; [lia|].
  assert (45 <= c <= 57); [|lia].
  apply (lex_number_head c r). now destruct (lex_number (c :: r)).
Qed.

Lemma skip_ws_split s :
  exists ws, s = ws ++ skip_ws s /\ forallb is_json_ws ws = true.
Proof.
  induction s as [|c s (ws & E & Hws)]; [now exists []|].
  cbn [skip_ws]. destruct (is_json_ws c) eqn:Hc.
  - exists (c :: ws). cbn [app forallb]. rewrite Hc, Hws. now rewrite <- E.
  - now exists [].
Qed.

Lemma json_ws_space ws :
  forallb is_json_ws ws = true -> forallb Str.is_space ws = true.
Proof.
  rewrite !forallb_forall. intros H c Hc. specialize (H c Hc).
  assert (c = 9 \/ c = 10 \/ c = 13 \/ c = 32) as E.
  { unfold is_json_ws in H.
    destruct (Z.eqb_spec c 9); [tauto|]. destruct (Z.eqb_spec c 10); [tauto|].
    destruct (Z.eqb_spec c 13); [tauto|]. destruct (Z.eqb_spec c 32); [tauto|].
    discriminate. }
  destruct E as [-> | [-> | [-> | ->]]]; reflexivity.
Qed.

Lemma json_ws_range ws c :
  forallb is_json_ws ws = true -> In c ws -> 9 <= c <= 32.
Proof.
  rewrite forallb_forall. intros H Hc. specialize (H c Hc).
  unfold is_json_ws in H.
  destruct (Z.eqb_spec c 9); [lia|]. destruct (Z.eqb_spec c 10); [lia|].
  destruct (Z.eqb_spec c 13); [lia|]. destruct (Z.eqb_spec c 32); [lia|].
  discriminate.
Qed.

Lemma token_not_space c : 33 <= c <= 126 -> Str.is_space c = false.
Proof.
  intros H. unfold Str.is_space.
  repeat match goal with
         | |- context [in_range ?a ?b c] =>
             destruct (in_range_spec a b c); [lia|]
         | |- context [c =? ?k] => destruct (Z.eqb_spec c k); [lia|]
         end.
  reflexivity.
Qed.

Lemma JSON_parse_head line json :
  JSON_parse line = Some json ->
  Str.is_empty (Str.trim line) = false
  /\ exists c tl, line = c :: tl /\ 9 <= c <= 126.
Proof.
  unfold JSON_parse. intros H.
  destruct (parse_value _ line) as [v rest| |] eqn:E; try discriminate.
  destruct (parse_value_head _ _ _ _ E) as (c & r & Hs & Hc).
  destruct (skip_ws_split line) as (ws & Hline & Hws). rewrite Hs in Hline.
  split.
  - rewrite Hline, <- (app_nil_r (c :: r)).
    rewrite (trim_spaces ws (c :: r) []) by (now apply json_ws_space || easy).
    apply trim_not_empty. now apply token_not_space.
  - destruct ws as [|x ws'].
    + exists c, r. split; [exact Hline|lia].
    + exists x, (ws' ++ c :: r). split; [exact Hline|].
      pose proof (json_ws_range (x :: ws') x Hws (or_introl eq_refl)). lia.
Qed.

(** What the relay enqueues for one line of the backend. *)
Lemma relay_line_frame f :
  frame_ok f ->
  Route.relay_line (frame_line f) = map wire_bytes (frame_events f).
Proof.
  intros (_ & _ & _ & json & Hjson & Hmsg & Hdone).
  unfold Route.relay_line.
  rewrite (proj1 (JSON_parse_head _ _ Hjson)), Hjson.
  unfold frame_events. rewrite <- Hdone.
  destruct Hmsg as [(Hm & Ht & Hco)|(m & Hm & Ht & Hco)].
  - rewrite Hm, Ht, Hco. cbn [truthy text_of Str.is_empty negb orb app].
    destruct json; try reflexivity; destruct (truthy _); reflexivity.
  - rewrite Hm. cbn [truthy Get]. rewrite Ht, Hco, !truthy_field.
    destruct json as [| | | | |ps]; try discriminate.
    destruct (negb _ || negb _), (truthy _); reflexivity.
Qed.

Lemma relay_chunk_frame td f :
  decoder td = utf8_init -> frame_ok f ->
  Route.relay_chunk td (frame_chunk f)
  = (mkDecoder utf8_init true, map wire_bytes (frame_events f)).
Proof.
  intros Hd Hf. pose proof Hf as (Hone & Hwf & _ & json & Hjson & _).
  unfold Route.relay_chunk, frame_chunk.
  destruct (JSON_parse_head _ _ Hjson) as (_ & c & tl & E & Hc).
  rewrite E in Hwf |- *. cbn [app].
  rewrite (decode_encode_started td c (tl ++ [10]) Hd).
  - f_equal. change (c :: tl ++ [10]) with ((c :: tl) ++ [10]).
    rewrite <- E. unfold Route.relay_text.
    rewrite split_lines_LF, flat_map_app, (single_line_split _ Hone).
    cbn [flat_map]. change (Route.relay_line []) with (@nil bytes).
    rewrite !app_nil_r.
    now apply relay_line_frame.
  - change (c :: tl ++ [10]) with ((c :: tl) ++ [10]).
    now apply well_formed_app.
  - destruct (is_lead_spec c); [lia|reflexivity].
  - lia.
Qed.

Lemma relay_loop_frames frames : forall td,
  decoder td = utf8_init -> Forall frame_ok frames ->
  Route.relay_loop td (map frame_chunk frames)
  = map wire_bytes (flat_map frame_events frames).
Proof.
  induction frames as [|f frames IH]; intros td Hd Hok; [reflexivity|].
  inversion Hok; subst. cbn [map Route.relay_loop flat_map].
  rewrite relay_chunk_frame by assumption.
  rewrite IH by (reflexivity || assumption).
  now rewrite map_app.
Qed.

Lemma frame_events_text frames :
  List.concat (map event_thinking (flat_map frame_events frames))
  = List.concat (map (fun f => text_of (frame_thinking f)) frames)
  /\ List.concat (map event_content (flat_map frame_events frames))
     = List.concat (map (fun f => text_of (frame_content f)) frames).
Proof.
  induction frames as [|f frames [IH1 IH2]]; [split; reflexivity|].
  cbn [flat_map map List.concat].
  rewrite !map_app, !concat_app, IH1, IH2.
  unfold frame_events.
  destruct (text_of (frame_thinking f)) eqn:E1,
           (text_of (frame_content f)) eqn:E2,
           (frame_done f);
    cbn [Str.is_empty negb orb app map List.concat event_thinking
         event_content];
    rewrite ?E1, ?E2, ?app_nil_r; split; reflexivity.
Qed.

Lemma frame_events_ok frames :
  Forall frame_ok frames -> Forall event_ok (flat_map frame_events frames).
Proof.
  induction 1 as [|f frames Hf _ IH]; [constructor|].
  cbn [flat_map]. apply Forall_app; split; [|exact IH].
  unfold frame_events. apply Forall_app; split.
  - destruct (negb _ || negb _); [|apply Forall_nil].
    apply Forall_cons; [|apply Forall_nil].
    now destruct Hf as (_ & _ & Hpair & _).
  - destruct (frame_done f); [|apply Forall_nil].
    apply Forall_cons; [exact I|apply Forall_nil].
Qed.

Lemma relay_loop_regroup chunks chunks' td :
  decoder_ok td -> line_aligned chunks -> line_aligned chunks' ->
  List.concat chunks = List.concat chunks' ->
  Route.relay_loop td chunks = Route.relay_loop td chunks'.
Proof.
  intros Hok H1 H2 E. rewrite !relay_loop_chunked.
  change Route.relay_text
    with (fun text => flat_map Route.relay_line (Str.split_lines text)).
  rewrite (chunked_aligned Route.relay_line relay_line_empty chunks td Hok H1).
  rewrite (chunked_aligned Route.relay_line relay_line_empty chunks' td Hok H2).
  now rewrite E.
Qed.

Lemma frame_chunks_aligned frames : line_aligned (map frame_chunk frames).
Proof.
  apply line_aligned_all, Forall_map, Forall_forall. intros f _.
  unfold frame_chunk. rewrite encode_LF. apply ends_with_LF_snoc.
Qed.

Lemma relay_loop_of_frames frames chunks :
  Forall frame_ok frames ->
  line_aligned chunks ->
  List.concat chunks = List.concat (map frame_chunk frames) ->
  Route.relay_loop new_TextDecoder chunks
  = map wire_bytes (flat_map frame_events frames).
Proof.
  intros Hok Hal Hcat.
  rewrite (relay_loop_regroup chunks (map frame_chunk frames))
    by (assumption || apply frame_chunks_aligned
        || (unfold decoder_ok; cbn; lia)).
  apply relay_loop_frames; [reflexivity|assumption].
Qed.

(** X10: the bridge end to end.  The backend sends one JSON object per
    line, in chunks cut after line feeds (one line per chunk, or several
    lines in one); the relay turns them into events and the page reads
    the events one per read.  The relay enqueues one data event for each
    line that carries some text and the sentinel for each line that is
    done, in order, and the page ends with the concatenation of all
    thinking fragments and of all content fragments, which the draft
    shows. *)
Theorem bridge_delivers_fragments (h : Page.Home) (frames : list Frame)
        (chunks : list bytes) :
  Forall frame_ok frames ->
  line_aligned chunks ->
  List.concat chunks = List.concat (map frame_chunk frames) ->
  let relayed := Route.relay_loop new_TextDecoder chunks in
  let t := Page.read_loop (Page.begin_turn h) relayed in
  relayed = map wire_bytes (flat_map frame_events frames)
  /\ Page.thinking_var t
     = List.concat (map (fun f => text_of (frame_thinking f)) frames)
  /\ Page.content_var t
     = List.concat (map (fun f => text_of (frame_content f)) frames)
  /\ draft_thinking (Page.messages (Page.home t)) = Page.thinking_var t
  /\ draft_content (Page.messages (Page.home t)) = Page.content_var t.
Proof.
  intros Hok Hal Hcat relayed t.
  assert (relayed = map wire_bytes (flat_map frame_events frames)) as E
      by now apply relay_loop_of_frames.
  split; [exact E|]. unfold t. rewrite E.
  destruct (begin_turn_vars h _ (frame_events_ok frames Hok)) as (Hth & Hco).
  pose proof (begin_turn_draft h _ (frame_events_ok frames Hok)) as Hms.
  cbv zeta in *. destruct (frame_events_text frames) as [T1 T2].
  rewrite Hms, Hth, Hco, T1, T2.
  repeat split.
  - unfold draft_thinking, draft_after. rewrite rev_unit.
    destruct (existsb is_data _) eqn:Ed; [exact T1|].
    destruct (no_data_no_text _ Ed) as [N1 _]. now rewrite <- T1, N1.
  - unfold draft_content, draft_after. rewrite rev_unit.
    destruct (existsb is_data _) eqn:Ed; [exact T2|].
    destruct (no_data_no_text _ Ed) as [_ N2]. now rewrite <- T2, N2.
Qed.

End Bridge.

Section SoftFailure.
Context {F : Float64}.

Lemma decode_encode_text td s :
  decoder td = utf8_init -> well_formed s = true ->
  match s with c :: _ => c <> 0xFEFF | [] => True end ->
  exists td', decoder td' = utf8_init
              /\ decode_stream td (encode s) = (td', s).
Proof.
  intros Hd Hwf Hb. destruct td as [d [|]]; cbn in Hd; subst d.
  - exists (mkDecoder utf8_init true).
    split; [reflexivity|now apply decode_encode].
  - destruct (decode_new_encode s Hwf Hb) as [E1 E2].
    change (mkDecoder utf8_init false) with new_TextDecoder.
    destruct (decode_stream new_TextDecoder (encode s)) as [td' text].
    cbn in E1, E2. subst text. now exists td'.
Qed.

(** ** The relay *)

Lemma relay_chunk_garbage td line :
  decoder td = utf8_init -> garbage_ok line ->
  exists td', decoder td' = utf8_init
              /\ Route.relay_chunk td (encode (line ++ [10])) = (td', []).
Proof.
  intros Hd (Hone & Hwf & Hb & Hbad).
  destruct (decode_encode_text td (line ++ [10]) Hd) as (td' & Hd' & E).
  - now apply well_formed_app.
  - destruct line; [cbn; lia|exact Hb].
  - exists td'. split; [exact Hd'|].
    unfold Route.relay_chunk. rewrite E. f_equal.
    unfold Route.relay_text.
    rewrite split_lines_LF, flat_map_app, (single_line_split _ Hone).
    cbn [flat_map]. rewrite (relay_line_unparsed _ Hbad).
    reflexivity.
Qed.

Lemma relay_loop_frames_then fs rest : forall td,
  decoder td = utf8_init -> Forall frame_ok fs ->
  exists td', decoder td' = utf8_init
    /\ Route.relay_loop td (map frame_chunk fs ++ rest)
       = map wire_bytes (flat_map frame_events fs)
         ++ Route.relay_loop td' rest.
Proof.
  induction fs as [|f fs IH]; intros td Hd Hok.
  - now exists td.
  - inversion Hok as [|? ? Hf Hfs]; subst.
    cbn [map app Route.relay_loop flat_map].
    rewrite (relay_chunk_frame td f Hd Hf).
    destruct (IH (mkDecoder utf8_init true) eq_refl Hfs) as (td' & Hd' & E).
    exists td'. split; [exact Hd'|].
    now rewrite E, map_app, app_assoc.
Qed.

Lemma relay_loop_around_garbage fs1 line fs2 :
  Forall frame_ok fs1 -> garbage_ok line -> Forall frame_ok fs2 ->
  Route.relay_loop new_TextDecoder
    (map frame_chunk fs1 ++ encode (line ++ [10]) :: map frame_chunk fs2)
  = map wire_bytes (flat_map frame_events (fs1 ++ fs2)).
Proof.
  intros H1 Hline H2.
  destruct (relay_loop_frames_then fs1
              (encode (line ++ [10]) :: map frame_chunk fs2)
              new_TextDecoder eq_refl H1) as (td1 & Hd1 & E1).
  rewrite E1. cbn [Route.relay_loop].
  destruct (relay_chunk_garbage td1 line Hd1 Hline) as (td2 & Hd2 & E2).
  rewrite E2. cbn [app].
  rewrite (relay_loop_frames fs2 td2 Hd2 H2).
  now rewrite flat_map_app, map_app.
Qed.

Lemma frames_around_aligned fs1 (x : bytes) fs2 :
  ends_with_LF x = true ->
  line_aligned (map frame_chunk fs1 ++ x :: map frame_chunk fs2).
Proof.
  intros Hx. apply line_aligned_all.
  assert (forall fs, Forall (fun c => ends_with_LF c = true)
                            (map frame_chunk fs)) as Hfs.
  { intros fs. apply Forall_map, Forall_forall. intros f _.
    unfold frame_chunk. rewrite encode_LF. apply ends_with_LF_snoc. }
  apply Forall_app; split; [apply Hfs|].
  apply Forall_cons; [exact Hx|apply Hfs].
Qed.

(** ** The page *)

Lemma wire_bytes_LF e : ends_with_LF (wire_bytes e) = true.
Proof.
  destruct e as [thinking content|]; [|vm_compute; reflexivity].
  unfold wire_bytes, Route.sseData.
  change [10; 10] with ([10] ++ [10]).
  rewrite !app_assoc, encode_LF. apply ends_with_LF_snoc.
Qed.

Lemma data_event_LF payload : ends_with_LF (data_event payload) = true.
Proof.
  unfold data_event. change [10; 10] with ([10] ++ [10]).
  rewrite !app_assoc, encode_LF. apply ends_with_LF_snoc.
Qed.

Lemma events_around_aligned es1 (x : bytes) es2 :
  ends_with_LF x = true ->
  line_aligned (map wire_bytes es1 ++ x :: map wire_bytes es2).
Proof.
  intros Hx. apply line_aligned_all.
  assert (forall es, Forall (fun c => ends_with_LF c = true)
                            (map wire_bytes es)) as Hes.
  { intros es. apply Forall_map, Forall_forall. intros e _.
    apply wire_bytes_LF. }
  apply Forall_app; split; [apply Hes|].
  apply Forall_cons; [exact Hx|apply Hes].
Qed.

Lemma read_loop_app t a b :
  Page.read_loop t (a ++ b) = Page.read_loop (Page.read_loop t a) b.
Proof. unfold Page.read_loop. apply fold_left_app. Qed.

Lemma read_loop_events_decoder events : forall t,
  Forall event_ok events ->
  decoder (Page.text_decoder t) = utf8_init ->
  decoder (Page.text_decoder (Page.read_loop t (map wire_bytes events)))
  = utf8_init.
Proof.
  induction events as [|e events IH]; intros t Hok Hd; [exact Hd|].
  inversion Hok as [|? ? He Hok']; subst.
  unfold Page.read_loop. cbn [map fold_left].
  fold (Page.read_loop (Page.handle_chunk t (wire_bytes e))
                       (map wire_bytes events)).
  apply IH; [exact Hok'|].
  destruct e as [th co|].
  - rewrite handle_chunk_data, apply_payload_pair by assumption. reflexivity.
  - rewrite handle_chunk_done by assumption. reflexivity.
Qed.

Lemma handle_chunk_refused t payload :
  decoder (Page.text_decoder t) = utf8_init -> payload_refused payload ->
  Page.handle_chunk t (data_event payload)
  = Page.with_decoder t (mkDecoder utf8_init true).
Proof.
  intros Hd (Hone & Hwf & Hbad). unfold Page.handle_chunk, data_event.
  assert (well_formed (js "data: " ++ payload ++ [10; 10]) = true) as Hw.
  { apply well_formed_app; [reflexivity|].
    now apply well_formed_app. }
  change (js "data: " ++ payload ++ [10; 10])
    with (100 :: skipn 1 (js "data: ") ++ payload ++ [10; 10]) in *.
  rewrite (decode_encode_started _ _ _ Hd Hw) by (reflexivity || lia).
  change (100 :: skipn 1 (js "data: ") ++ payload ++ [10; 10])
    with ((js "data: " ++ payload) ++ 10 :: [10]).
  rewrite handle_text_skips.
  - reflexivity.
  - rewrite single_line_app, Hone. reflexivity.
  - intros u. apply handle_line_unparsed.
    change (Str.slice 5 (js "data: " ++ payload)) with ([32] ++ payload).
    rewrite <- (app_nil_r payload) at 1.
    now rewrite (trim_spaces [32] payload []).
Qed.

Lemma events_without_done es1 es2 :
  List.concat (map event_thinking (es1 ++ Done :: es2))
  = List.concat (map event_thinking es1)
    ++ List.concat (map event_thinking es2)
  /\ List.concat (map event_content (es1 ++ Done :: es2))
     = List.concat (map event_content es1)
       ++ List.concat (map event_content es2)
  /\ draft_after (es1 ++ Done :: es2) = draft_after (es1 ++ es2).
Proof.
  rewrite !map_app, !concat_app. cbn [map List.concat event_thinking
                                      event_content app].
  repeat split. unfold draft_after.
  rewrite !existsb_app, !map_app, !concat_app.
  cbn [existsb is_data orb map List.concat event_thinking event_content app].
  reflexivity.
Qed.

(** What the page holds after events with a sentinel among them,
    however the bytes are cut after line feeds. *)
Lemma read_loop_around_done h es1 es2 reads :
  Forall event_ok es1 -> Forall event_ok es2 ->
  line_aligned reads ->
  List.concat reads = List.concat (map wire_bytes (es1 ++ Done :: es2)) ->
  let t := Page.read_loop (Page.begin_turn h) reads in
  Page.thinking_var t
  = List.concat (map event_thinking es1)
    ++ List.concat (map event_thinking es2)
  /\ Page.content_var t
     = List.concat (map event_content es1)
       ++ List.concat (map event_content es2)
  /\ Page.messages (Page.home t)
     = Page.newMessages h ++ [draft_after (es1 ++ es2)]
  /\ Page.console t = [].
Proof.
  intros H1 H2 Hal Hcat t.
  assert (Forall event_ok (es1 ++ Done :: es2)) as Hok
      by (apply Forall_app; split; [exact H1|];
          apply Forall_cons; [exact I|exact H2]).
  assert (t = Page.read_loop (Page.begin_turn h)
                (map wire_bytes (es1 ++ Done :: es2))) as Et.
  { unfold t. apply read_loop_regroup; try assumption.
    - unfold decoder_ok; cbn; lia.
    - rewrite map_app. cbn [map].
      apply events_around_aligned, wire_bytes_LF. }
  destruct (begin_turn_vars h _ Hok) as (Hth & Hco).
  pose proof (begin_turn_draft h _ Hok) as Hms.
  pose proof (read_loop_controls (map wire_bytes (es1 ++ Done :: es2))
                                 (Page.begin_turn h)) as (Hcon & _).
  cbv zeta in Hth, Hco. rewrite <- Et in Hth, Hco, Hms, Hcon.
  destruct (events_without_done es1 es2) as (E1 & E2 & E3).
  rewrite Hth, Hco, Hms, Hcon, E1, E2, E3. repeat split.
Qed.

(** C2 (amended): the sentinel changes nothing and does not end the
    consumption.  When a stream of events with the sentinel among them
    reaches the page, cut into reads after line feeds in any way (the
    sentinel in a read of its own, or in one read with the events
    before or after it), the page ends with the thinking and the
    content of every event, those after the sentinel too, in order, and
    the draft shows them.  And whatever the lines around it are, a
    sentinel line in the text of a read leaves the turn as the text
    without it does. *)
Theorem sentinel_line_is_skipped (h : Page.Home)
        (before after : list WireEvent) (reads : list bytes) :
  Forall event_ok before -> Forall event_ok after ->
  line_aligned reads ->
  List.concat reads
  = List.concat (map wire_bytes (before ++ Done :: after)) ->
  let t := Page.read_loop (Page.begin_turn h) reads in
  (Page.thinking_var t
   = List.concat (map event_thinking before)
     ++ List.concat (map event_thinking after)
   /\ Page.content_var t
      = List.concat (map event_content before)
        ++ List.concat (map event_content after)
   /\ Page.messages (Page.home t)
      = Page.newMessages h ++ [draft_after (before ++ after)])
  /\ (forall (u : Page.Turn) (a s b : jsstring),
        single_line s = true ->
        Page.decode_line s = Page.Sentinel ->
        Page.handle_text u (a ++ 10 :: s ++ 10 :: b)
        = Page.handle_text u (a ++ 10 :: b)
        /\ Page.handle_text u (s ++ 10 :: b) = Page.handle_text u b).
Proof.
  intros H1 H2 Hal Hcat t. split.
  - destruct (read_loop_around_done h before after reads H1 H2 Hal Hcat)
      as (Hth & Hco & Hms & _).
    fold t in Hth, Hco, Hms. repeat split; assumption.
  - intros u a s b Hone Hs.
    assert (forall v, Page.handle_text v (s ++ 10 :: b)
                      = Page.handle_text v b) as E.
    { intros v. apply handle_text_skips; [assumption|].
      intros w. now apply handle_line_sentinel. }
    split; [|apply E].
    rewrite !(handle_text_app u a). apply E.
Qed.

(** C6: a line that does not parse contributes nothing and stops
    nothing, at the relay and at the page alike.  At the relay, when
    the backend's lines hold one that [JSON.parse] refuses, the loop
    enqueues the events of the lines before it and of the lines after
    it, in order, and nothing for the line itself.  At the page, when
    an event whose payload does not parse stands among the events, the
    page ends with the thinking and the content of the events before it
    and after it, in order, the draft shows them and nothing is logged.
    Both hold however the bytes are cut after line feeds.  And whatever
    the lines around it are, a malformed line in the text of a chunk
    leaves what is enqueued, and the turn, as the text without it
    does. *)
Theorem malformed_line_is_skipped
        (fs1 fs2 : list Frame) (line : jsstring) (chunks : list bytes)
        (h : Page.Home) (es1 es2 : list WireEvent) (payload : jsstring)
        (reads : list bytes) :
  (Forall frame_ok fs1 -> garbage_ok line -> Forall frame_ok fs2 ->
   line_aligned chunks ->
   List.concat chunks
   = List.concat (map frame_chunk fs1
                  ++ encode (line ++ [10]) :: map frame_chunk fs2) ->
   Route.relay_loop new_TextDecoder chunks
   = map wire_bytes (flat_map frame_events (fs1 ++ fs2)))
  /\ (Forall event_ok es1 -> payload_refused payload ->
      Forall event_ok es2 ->
      line_aligned reads ->
      List.concat reads
      = List.concat (map wire_bytes es1
                     ++ data_event payload :: map wire_bytes es2) ->
      let t := Page.read_loop (Page.begin_turn h) reads in
      Page.thinking_var t
      = List.concat (map event_thinking es1)
        ++ List.concat (map event_thinking es2)
      /\ Page.content_var t
         = List.concat (map event_content es1)
           ++ List.concat (map event_content es2)
      /\ Page.messages (Page.home t)
         = Page.newMessages h ++ [draft_after (es1 ++ es2)]
      /\ Page.console t = [])
  /\ (forall a bad b : jsstring,
        single_line bad = true -> JSON_parse bad = None ->
        Route.relay_text (a ++ 10 :: bad ++ 10 :: b)
        = Route.relay_text (a ++ 10 :: b))
  /\ (forall (u : Page.Turn) (a bad b : jsstring),
        single_line bad = true ->
        JSON_parse (Str.trim (Str.slice 5 bad)) = None ->
        Page.handle_text u (a ++ 10 :: bad ++ 10 :: b)
        = Page.handle_text u (a ++ 10 :: b)).
Proof.
  split; [|split; [|split]].
  - intros H1 Hline H2 Hal Hcat.
    rewrite (relay_loop_regroup chunks
               (map frame_chunk fs1
                ++ encode (line ++ [10]) :: map frame_chunk fs2)).
    + now apply relay_loop_around_garbage.
    + unfold decoder_ok; cbn; lia.
    + exact Hal.
    + apply frames_around_aligned. rewrite encode_LF.
      apply ends_with_LF_snoc.
    + exact Hcat.
  - intros H1 Hbad H2 Hal Hcat t.
    assert (decoder_ok (Page.text_decoder (Page.begin_turn h))) as Hok
        by (unfold decoder_ok; cbn; lia).
    assert (Page.read_loop (Page.begin_turn h)
              (map wire_bytes es1
               ++ data_event payload :: map wire_bytes es2)
            = Page.read_loop (Page.begin_turn h)
                (map wire_bytes (es1 ++ Done :: es2))) as Eq.
    { rewrite map_app. cbn [map].
      rewrite !read_loop_app. unfold Page.read_loop at 1 3.
      cbn [fold_left]. f_equal.
      pose proof (read_loop_events_decoder es1 (Page.begin_turn h) H1
                    eq_refl) as Hd.
      fold (Page.read_loop (Page.begin_turn h) (map wire_bytes es1)).
      now rewrite handle_chunk_refused, handle_chunk_done. }
    assert (t = Page.read_loop (Page.begin_turn h)
                  (map wire_bytes (es1 ++ Done :: es2))) as Et.
    { unfold t. rewrite <- Eq. apply read_loop_regroup; try assumption.
      apply events_around_aligned, data_event_LF. }
    assert (line_aligned (map wire_bytes (es1 ++ Done :: es2))) as Hal'
        by (rewrite map_app; cbn [map];
            apply events_around_aligned, wire_bytes_LF).
    destruct (read_loop_around_done h es1 es2 _ H1 H2 Hal' eq_refl)
      as (Hth & Hco & Hms & Hcon).
    rewrite <- Et in Hth, Hco, Hms, Hcon. repeat split; assumption.
  - intros a bad b Hone Hbad.
    rewrite !(relay_text_app a). f_equal.
    apply relay_text_skips; [assumption|now apply relay_line_unparsed].
  - intros u a bad b Hone Hbad.
    rewrite !(handle_text_app u a).
    apply handle_text_skips; [assumption|].
    intros v. now apply handle_line_unparsed.
Qed.

End SoftFailure.

Section Requests.
Context {F : Float64}.

Lemma stringify_literal_present o :
  stringify_literal o = stringify (JObject (present o)).
Proof.
  unfold stringify_literal, present. cbn [stringify]. do 3 f_equal.
  induction o as [|[k [v|]] o IH]; cbn [flat_map map app fst snd];
    [reflexivity| |exact IH].
  now rewrite IH.
Qed.

Lemma code_units_ok_js_check s :
  forallb (in_range 0 0xFFFF) s = true -> array_index s = None ->
  code_units_ok s /\ array_index s = None.
Proof. intros H1 H2; split; [now apply code_units_ok_check|exact H2]. Qed.

Lemma plain_get v k x : plain v -> Get v k = Some x -> plain x.
Proof.
  intros Hp. destruct v; try discriminate. now apply plain_member.
Qed.

Lemma plain_wire_message m :
  code_units_ok (Page.content m) -> plain (wire_message m).
Proof.
  intros Hc. unfold wire_message. apply plain_object; cbn [map fst snd].
  - repeat constructor; simpl; intuition discriminate.
  - repeat (apply Forall_cons; [now apply code_units_ok_js_check|]).
    apply Forall_nil.
  - apply Forall_cons; [|apply Forall_cons; [|apply Forall_nil]].
    + apply plain_string. destruct (Page.role m);
        now apply code_units_ok_check.
    + now apply plain_string.
Qed.

Lemma plain_upstream_request v : plain v -> plain (upstream_request v).
Proof.
  intros Hp. unfold upstream_request, present.
  assert (plain (JString Route.MODEL)) as Hmodel
      by (apply plain_string; now apply code_units_ok_check).
  assert (forall x, Get v (js "model") = Some x -> plain x) as Hm
      by (intros x; now apply plain_get).
  assert (forall x, Get v (js "messages") = Some x -> plain x) as Hms
      by (intros x; now apply plain_get).
  destruct (Get v (js "model")) as [model|],
           (Get v (js "messages")) as [messages|];
    cbn [flat_map app fst snd];
    (apply plain_object; cbn [map fst snd];
     [ repeat constructor; simpl; intuition discriminate
     | repeat (apply Forall_cons; [now apply code_units_ok_js_check|]);
       apply Forall_nil
     | repeat (apply Forall_cons; [auto using plain_bool|]);
       apply Forall_nil ]).
Qed.

Lemma ollama_init_body v :
  plain v ->
  JSON_parse (Route.fetch_body (Route.ollama_init v))
  = Some (upstream_request v).
Proof.
  intros Hp. unfold Route.ollama_init; cbn [Route.fetch_body].
  rewrite stringify_literal_present.
  apply (plain_round_trip (upstream_request v)).
  now apply plain_upstream_request.
Qed.


Lemma plain_request sent :
  Forall (fun m => code_units_ok (Page.content m)) sent ->
  plain (JObject [(js "messages", JArray (map wire_message sent))]).
Proof.
  intros Hok. apply plain_object; cbn [map fst snd].
  - repeat constructor; simpl; intuition.
  - apply Forall_cons; [now apply code_units_ok_js_check|apply Forall_nil].
  - apply Forall_cons; [|apply Forall_nil]. apply plain_array.
    apply Forall_map. eapply Forall_impl; [|exact Hok].
    intros m Hm. now apply plain_wire_message.
Qed.

Lemma request_body_parses sent :
  Forall (fun m => code_units_ok (Page.content m)) sent ->
  JSON_parse (Page.request_body sent)
  = Some (JObject [(js "messages", JArray (map wire_message sent))]).
Proof.
  intros Hok. unfold Page.request_body. rewrite stringify_literal_present.
  exact (plain_round_trip _ (plain_request sent Hok)).
Qed.

(** X5: the transcript the page sends reaches the backend as its roles and
    contents, in order, without any [thinking]. *)
Theorem transcript_reaches_backend (sent : list Page.Message) :
  Forall (fun m => code_units_ok (Page.content m)) sent ->
  let request := JObject [(js "messages", JArray (map wire_message sent))] in
  JSON_parse (Page.request_body sent) = Some request
  /\ JSON_parse (Route.fetch_body (Route.ollama_init request))
     = Some (JObject [(js "model", JString Route.MODEL);
                      (js "messages", JArray (map wire_message sent));
                      (js "stream", JBool true)])
  /\ Forall (fun m => Get m (js "thinking") = None) (map wire_message sent).
Proof.
  intros Hok request.
  split; [|split].
  - now apply request_body_parses.
  - exact (ollama_init_body request (plain_request sent Hok)).
  - apply Forall_map, Forall_forall. reflexivity.
Qed.

End Requests.

Section Slot.
Context {F : Float64}.

Lemma one_draft_replace h prev d :
  one_draft h prev -> Page.role d = Page.assistant ->
  one_draft h (Page.replace_last d prev).
Proof.
  intros (d0 & -> & _) Hd. exists d. split; [|exact Hd].
  unfold Page.replace_last. now rewrite removelast_last.
Qed.

Lemma one_draft_marker h prev :
  one_draft h prev -> one_draft h (Page.append_marker prev).
Proof.
  intros (d0 & -> & Hd). unfold Page.append_marker.
  rewrite rev_unit, removelast_last. eexists; split; [reflexivity|exact Hd].
Qed.

Lemma setMessages_slot h update t :
  (forall prev, one_draft h prev -> one_draft h (update prev)) ->
  slot_inv h t -> slot_inv h (Page.setMessages update t).
Proof.
  intros Hu [H1 H2 H3]. split; cbn.
  - now apply Hu.
  - apply Forall_app; split; [exact H2|].
    apply Forall_cons; [now apply Hu|apply Forall_nil].
  - exact H3.
Qed.

Lemma slot_inv_same h t u :
  Page.messages (Page.home u) = Page.messages (Page.home t) ->
  Page.input (Page.home u) = Page.input (Page.home t) ->
  Page.published u = Page.published t ->
  slot_inv h t -> slot_inv h u.
Proof.
  intros E1 E2 E3 [H1 H2 H3]. split; congruence.
Qed.

Lemma apply_payload_slot h t json :
  slot_inv h t -> slot_inv h (Page.apply_payload t json).
Proof.
  intros H. unfold Page.apply_payload.
  destruct json; try exact H;
    (destruct (Page.append_if_truthy (Page.thinking_var t) _);
     [|exact H];
     destruct (Page.append_if_truthy (Page.content_var t) _);
     [|now apply (slot_inv_same h t)];
     apply setMessages_slot;
     [intros prev Hprev; now apply one_draft_replace
     |now apply (slot_inv_same h t)]).
Qed.

Lemma handle_line_slot h t line :
  slot_inv h t -> slot_inv h (Page.handle_line t line).
Proof.
  intros H. unfold Page.handle_line.
  destruct (Page.decode_line line); try exact H.
  now apply apply_payload_slot.
Qed.

Lemma handle_chunk_slot h t value :
  slot_inv h t -> slot_inv h (Page.handle_chunk t value).
Proof.
  intros H. unfold Page.handle_chunk.
  destruct (decode_stream _ value) as [td' text].
  unfold Page.handle_text.
  assert (slot_inv h (Page.with_decoder t td')) as H'
      by now apply (slot_inv_same h t).
  revert H'. generalize (Page.with_decoder t td').
  induction (Page.data_lines text) as [|l ls IH]; intros u Hu; cbn;
    [exact Hu|].
  apply IH. now apply handle_line_slot.
Qed.

Lemma read_loop_slot h chunks : forall t,
  slot_inv h t -> slot_inv h (Page.read_loop t chunks).
Proof.
  unfold Page.read_loop.
  induction chunks as [|c cs IH]; intros t H; cbn; [exact H|].
  apply IH. now apply handle_chunk_slot.
Qed.

Lemma begin_turn_slot h : slot_inv h (Page.begin_turn h).
Proof.
  assert (one_draft h
            (Page.newMessages h
             ++ [{| Page.role := Page.assistant; Page.content := [];
                    Page.thinking := None |}])) as H
      by (eexists; split; reflexivity).
  split; cbn; [exact H| |reflexivity].
  apply Forall_cons; [exact H|apply Forall_nil].
Qed.

Lemma try_block_slot h fetch : slot_inv h (fst (Page.try_block h fetch)).
Proof.
  unfold Page.try_block.
  destruct (fetch _) as [r|ok body]; cbn; [apply begin_turn_slot|].
  destruct ok; [|apply begin_turn_slot].
  destruct body as [[chunks ending]|]; [|apply begin_turn_slot].
  destruct ending; cbn; apply read_loop_slot, begin_turn_slot.
Qed.

Lemma catch_slot h r t : slot_inv h t -> slot_inv h (Page.catch r t).
Proof.
  intros H. unfold Page.catch.
  destruct r as [|e].
  - cbn. now apply (slot_inv_same h t).
  - destruct (Page.instanceof_Error e && _); [|exact H].
    apply setMessages_slot; [apply one_draft_marker|].
    now apply (slot_inv_same h t).
Qed.

(** X12: a turn touches one message only.  However the request goes
    (the backend refuses, the stream breaks, the user stops, events of
    any shape arrive), every transcript that [handleSubmit] publishes,
    and the one it leaves, is what was there before, then the user's
    message, then one message of the assistant; the input is cleared. *)
Theorem turn_rewrites_only_the_draft (h : Page.Home)
        (fetch : jsstring -> Page.FetchOutcome) :
  can_submit h = true ->
  let final := Page.handleSubmit h fetch in
  Forall (one_draft h) (Page.published final)
  /\ one_draft h (Page.messages (Page.home final))
  /\ Page.published final <> []
  /\ Page.input (Page.home final) = [].
Proof.
  intros Hgo final; subst final.
  rewrite handleSubmit_unfold by assumption.
  pose proof (try_block_slot h fetch) as H.
  pose proof (try_block_inv h fetch) as [[p Hp] _ _ _ _].
  destruct (Page.try_block h fetch) as [t [r|]]; cbn [fst] in H, Hp.
  - apply (catch_slot h r) in H. destruct H as [H1 H2 H3].
    cbn. repeat split; try assumption.
    intros E. rewrite E in *.
    unfold Page.catch in E.
    destruct r as [|e]; cbn in E.
    + rewrite Hp in E. now destruct p.
    + destruct (Page.instanceof_Error e && _); cbn in E.
      * now destruct (Page.published t).
      * rewrite Hp in E. now destruct p.
  - destruct H as [H1 H2 H3]. cbn. repeat split; try assumption.
    rewrite Hp. now destruct p.
Qed.

End Slot.

Section Screens.
Context {F : Float64}.

Lemma render_message_not_last L b o m :
  View.render_message L false o m = View.render_message false b o m.
Proof.
  unfold View.render_message. now rewrite !andb_false_r.
Qed.

Lemma render_rows_snoc L opens ms d : forall i,
  View.render_rows L opens i (ms ++ [d])
  = View.render_rows false opens i ms
    ++ [View.render_message L true (opens (i + List.length ms)%nat) d].
Proof.
  induction ms as [|m ms IH]; intros i; cbn [app View.render_rows List.length].
  - now rewrite Nat.add_0_r.
  - rewrite IH. replace (S i + List.length ms)%nat
      with (i + S (List.length ms))%nat by lia.
    f_equal. destruct ms; apply render_message_not_last.
Qed.

Lemma render_rows_length L opens ms : forall i,
  List.length (View.render_rows L opens i ms) = List.length ms.
Proof.
  induction ms as [|m ms IH]; intros i; cbn [View.render_rows List.length];
    [reflexivity|].
  now rewrite IH.
Qed.

Lemma render_message_still isLast o m :
  View.still (View.render_message false isLast o m).
Proof.
  unfold View.still, View.render_message; cbn.
  split; [reflexivity|].
  destruct (Page.thinking m) as [s|]; [|exact I].
  destruct s as [|c s]; [exact I|]. cbn.
  repeat split. now destruct o.
Qed.

Lemma render_rows_still opens ms : forall i,
  Forall View.still (View.render_rows false opens i ms).
Proof.
  induction ms as [|m ms IH]; intros i; cbn [View.render_rows];
    [apply Forall_nil|].
  apply Forall_cons; [apply render_message_still|apply IH].
Qed.

(** X15: when a turn is over the page is at rest.  However the turn
    ended, the screen that [Home] renders from the state [handleSubmit]
    leaves shows the messages (not the empty state), no waiting
    indicator, no spinner and no cursor in any thinking block, the
    text area enabled and empty, and the send button in place of the
    stop button, disabled until something is typed. *)
Theorem screen_is_at_rest_after_a_turn (h : Page.Home)
        (fetch : jsstring -> Page.FetchOutcome) (isOpen : nat -> bool) :
  can_submit h = true ->
  let screen := View.render (Page.home (Page.handleSubmit h fetch)) isOpen in
  (exists rows, View.message_list screen = View.Rows rows
                /\ Forall View.still rows
                /\ List.length rows = S (List.length (Page.newMessages h)))
  /\ View.textarea_value screen = []
  /\ View.textarea_disabled screen = false
  /\ View.button screen = View.SendButton true.
Proof.
  intros Hgo screen; subst screen.
  rewrite handleSubmit_unfold by assumption.
  pose proof (try_block_slot h fetch) as H.
  assert (forall t, slot_inv h t ->
            let screen := View.render (Page.home (Page.finally t)) isOpen in
            (exists rows, View.message_list screen = View.Rows rows
                          /\ Forall View.still rows
                          /\ List.length rows
                             = S (List.length (Page.newMessages h)))
            /\ View.textarea_value screen = []
            /\ View.textarea_disabled screen = false
            /\ View.button screen = View.SendButton true) as Hfin.
  { intros t [(d & Hd & _) _ Hin]. unfold View.render; cbn.
    rewrite Hin, Hd. repeat split.
    exists (View.render_rows false isOpen 0 (Page.newMessages h ++ [d])).
    split; [|split].
    - now destruct (Page.newMessages h ++ [d]) eqn:E;
        [destruct (Page.newMessages h); discriminate|].
    - apply render_rows_still.
    - rewrite render_rows_length, length_app. cbn [List.length]. lia. }
  destruct (Page.try_block h fetch) as [t [r|]]; cbn [fst] in H.
  - apply Hfin. now apply catch_slot.
  - now apply Hfin.
Qed.

(** X16: while the events arrive the last row follows them.  After the
    page has read any number of events of the relay (the turn is still
    loading), the rows before the draft are at rest; the draft's row
    shows the waiting indicator exactly as long as no text has arrived,
    the thinking block with its spinner exactly while there is thinking
    text and no content yet, and the content once there is some.  The
    stop button is shown and the text area is disabled. *)
Theorem screen_follows_the_stream (h : Page.Home)
        (events : list WireEvent) (isOpen : nat -> bool) :
  Forall event_ok events ->
  let t := Page.read_loop (Page.begin_turn h) (map wire_bytes events) in
  let screen := View.render (Page.home t) isOpen in
  let thinking := List.concat (map event_thinking events) in
  let content := List.concat (map event_content events) in
  let before := View.render_rows false isOpen 0 (Page.newMessages h) in
  View.message_list screen
  = View.Rows
      (before
       ++ [{| View.justify_end := false;
              View.avatar := true;
              View.thinking_view :=
                View.Thinking thinking
                              (negb (Str.is_empty thinking)
                               && Str.is_empty content)
                              (isOpen (List.length (Page.newMessages h)));
              View.waiting := Str.is_empty thinking && Str.is_empty content;
              View.markdown := if Str.is_empty content then None
                               else Some content |}])
  /\ Forall View.still before
  /\ View.button screen = View.StopButton
  /\ View.textarea_disabled screen = true.
Proof.
  intros Hok t screen thinking content before.
  pose proof (begin_turn_draft h events Hok) as Hms.
  unfold draft_after in Hms. fold t thinking content in Hms.
  pose proof (read_loop_controls (map wire_bytes events) (Page.begin_turn h))
    as Hc.
  fold t in Hc.
  assert (Page.isLoading (Page.home t) = true) as Hload.
  { unfold same_controls in Hc. cbn in Hc. intuition congruence. }
  subst screen. unfold View.render. rewrite Hload, Hms.
  split; [|split; [apply render_rows_still|split; reflexivity]].
  destruct (Page.newMessages h ++ _) eqn:E;
    [destruct (Page.newMessages h); discriminate|].
  rewrite <- E. f_equal. rewrite render_rows_snoc. fold before.
  f_equal. f_equal. cbn [Nat.add].
  destruct (existsb is_data events) eqn:Ed.
  - unfold View.render_message; cbn.
    destruct thinking, content; reflexivity.
  - destruct (no_data_no_text _ Ed) as [N1 N2].
    fold thinking in N1. fold content in N2. rewrite N1, N2. reflexivity.
Qed.

(** X17: the send button and the guard of [handleSubmit] agree.  The
    screen offers an enabled send button exactly when [handleSubmit]
    would start a turn; otherwise (a turn is loading, or the input is
    empty or white space only) a call of [handleSubmit], from the Enter
    key say, leaves the page as it is and publishes nothing, whatever
    the network would answer. *)
Theorem send_button_matches_the_guard (h : Page.Home)
        (fetch : jsstring -> Page.FetchOutcome) (isOpen : nat -> bool) :
  (View.button (View.render h isOpen) = View.SendButton false
   <-> can_submit h = true)
  /\ (can_submit h = false ->
      Page.home (Page.handleSubmit h fetch) = h
      /\ Page.published (Page.handleSubmit h fetch) = [])
  /\ (forallb Str.is_space (Page.input h) = true -> can_submit h = false).
Proof.
  unfold can_submit, View.render, Page.handleSubmit; cbn [View.button].
  split; [|split].
  - destruct (Page.isLoading h); [rewrite orb_true_r; split; discriminate|].
    rewrite orb_false_r.
    destruct (Str.is_empty (Str.trim (Page.input h))); cbn;
      split; congruence.
  - intros H. apply negb_false_iff in H. rewrite H. split; reflexivity.
  - intros H. now rewrite (trim_blank _ H).
Qed.

End Screens.

Section WholeTurn.
Context {F : Float64}.

Lemma fetch_api_chat_request h hop backend :
  Forall (fun m => code_units_ok (Page.content m)) (Page.newMessages h) ->
  fetch_api_chat hop backend (Page.request_body (Page.newMessages h))
  = let response :=
      Route.POST (Route.JsonResolves (chat_request (Page.newMessages h)))
                 backend in
    Page.FetchResolves
      (in_range 200 299 (Route.status response))
      (Some match Route.body response with
            | Route.JsonBody text => (hop [encode text], Page.EndOfStream)
            | Route.StreamBody stream =>
                (hop (Route.enqueued stream), Page.EndOfStream)
            end).
Proof.
  intros Hok. unfold fetch_api_chat.
  now rewrite (request_body_parses _ Hok).
Qed.

(** X13: a whole turn through the relay.  The user submits, [POST]
    receives the page's request and forwards it, the backend answers
    with lines of JSON cut after line feeds, the relay turns them into
    events, and the hop between relay and page hands the page the
    relay's bytes cut after line feeds only (one event per read, or
    several whole events in one read).  When the page has read them to
    the end of the stream, the transcript is what was there, the user's
    message and one message of the assistant holding all the content
    and all the thinking that the backend sent, in order; nothing is
    logged, no error marker is added and the page is no longer
    loading. *)
Theorem turn_through_the_relay (h : Page.Home) (frames : list Frame)
        (chunks : list bytes)
        (backend : Route.FetchInit -> Route.FetchResult)
        (hop : list bytes -> list bytes) :
  can_submit h = true ->
  Forall (fun m => code_units_ok (Page.content m)) (Page.newMessages h) ->
  Forall frame_ok frames ->
  line_aligned chunks ->
  List.concat chunks = List.concat (map frame_chunk frames) ->
  backend (Route.ollama_init (chat_request (Page.newMessages h)))
  = Route.FetchResolves true
      (Some {| Route.reads := chunks; Route.read_fails := false |}) ->
  let written := Route.relay_loop new_TextDecoder chunks in
  line_aligned (hop written) ->
  List.concat (hop written) = List.concat written ->
  let final := Page.handleSubmit h (fetch_api_chat hop backend) in
  Page.messages (Page.home final)
  = Page.newMessages h ++ [draft_after (flat_map frame_events frames)]
  /\ draft_content (Page.messages (Page.home final))
     = List.concat (map (fun f => text_of (frame_content f)) frames)
  /\ draft_thinking (Page.messages (Page.home final))
     = List.concat (map (fun f => text_of (frame_thinking f)) frames)
  /\ Page.console final = []
  /\ Page.isLoading (Page.home final) = false.
Proof.
  intros Hgo Hsent Hok Hal Hcat Hback written Hhop Hsame final; subst final.
  rewrite handleSubmit_unfold by assumption.
  unfold Page.try_block.
  rewrite (fetch_api_chat_request h hop backend Hsent).
  cbv zeta. unfold Route.POST, Route.POST_try, chat_request.
  fold (chat_request (Page.newMessages h)). rewrite Hback.
  cbn [Route.status Route.body Route.start Route.enqueued Route.reads].
  change (in_range 200 299 200) with true. cbv iota.
  fold written.
  assert (Page.read_loop (Page.begin_turn h) (hop written)
          = Page.read_loop (Page.begin_turn h) written) as Eq.
  { apply read_loop_regroup; try assumption.
    - unfold decoder_ok; cbn; lia.
    - apply line_aligned_all, relay_loop_LF. }
  rewrite Eq. unfold written.
  rewrite (relay_loop_of_frames frames chunks Hok Hal Hcat).
  pose proof (begin_turn_draft h _ (frame_events_ok frames Hok)) as Hms.
  pose proof (read_loop_controls
                (map wire_bytes (flat_map frame_events frames))
                (Page.begin_turn h)) as (Hcon & _).
  destruct (frame_events_text frames) as [T1 T2].
  unfold Page.finally; cbn [Page.with_home Page.home Page.messages
                            Page.isLoading Page.console].
  rewrite Hms, Hcon.
  repeat split.
  - unfold draft_content, draft_after. rewrite rev_unit.
    destruct (existsb is_data _) eqn:Ed; [exact T2|].
    destruct (no_data_no_text _ Ed) as [_ N2]. now rewrite <- T2, N2.
  - unfold draft_thinking, draft_after. rewrite rev_unit.
    destruct (existsb is_data _) eqn:Ed; [exact T1|].
    destruct (no_data_no_text _ Ed) as [N1 _]. now rewrite <- T1, N1.
Qed.

(** X14: a turn against a backend that is down.  When the backend
    cannot be reached, or answers without a success status or without a
    body, [POST] answers with status 500 and the page ends the turn with
    the error marker as the draft's content, the error logged once, and
    the page no longer loading, however the response reaches the
    page. *)
Theorem turn_against_a_backend_that_is_down (h : Page.Home)
        (backend : Route.FetchInit -> Route.FetchResult)
        (hop : list bytes -> list bytes) :
  can_submit h = true ->
  Forall (fun m => code_units_ok (Page.content m)) (Page.newMessages h) ->
  backend_failed
    (backend (Route.ollama_init (chat_request (Page.newMessages h)))) = true ->
  let final := Page.handleSubmit h (fetch_api_chat hop backend) in
  Page.messages (Page.home final)
  = Page.newMessages h
    ++ [{| Page.role := Page.assistant;
           Page.content := Page.error_marker;
           Page.thinking := None |}]
  /\ Page.console final = [Page.new_Error]
  /\ Page.isLoading (Page.home final) = false.
Proof.
  intros Hgo Hsent Hback final; subst final.
  rewrite handleSubmit_unfold by assumption.
  unfold Page.try_block.
  rewrite (fetch_api_chat_request h hop backend Hsent).
  cbv zeta. unfold Route.POST, Route.POST_try, chat_request.
  fold (chat_request (Page.newMessages h)).
  destruct (backend _) as [|ok [upstream|]]; try destruct ok;
    try discriminate Hback;
    cbn [Route.status Route.body Route.Response_json_error];
    change (in_range 200 299 500) with false; cbv iota;
    unfold Page.catch, Page.finally, Page.setMessages, Page.append_marker;
    cbn [Page.instanceof_Error Page.new_Error Page.name andb negb
         Page.home Page.messages Page.begin_turn Page.with_home
         Page.console Page.isLoading];
    change (Str.eqb (js "Error") (js "AbortError")) with false;
    cbn [negb Page.home Page.messages Page.console Page.isLoading app];
    rewrite rev_unit, removelast_last; repeat split.
Qed.

End WholeTurn.

Section Framing.
Context {F : Float64}.

(** X3: what [JSON.stringify] writes fits on a line of the wire.  The
    text of a value without numbers holds no line feed, so the line
    split finds it whole before the line feed that ends it, and it is
    well-formed UTF-16, so [TextEncoder] and [TextDecoder] give it back
    unchanged. *)
Theorem stringify_fits_on_a_line (v : JSValue) :
  plain v ->
  single_line (stringify v) = true
  /\ well_formed (stringify v) = true
  /\ Str.split_lines (stringify v ++ [10]) = [stringify v; []]
  /\ decode_stream new_TextDecoder (encode (stringify v))
     = (mkDecoder utf8_init true, stringify v).
Proof.
  intros Hp. destruct (stringify_text v Hp) as [Hwf Hone].
  split; [exact Hone|]. split; [exact Hwf|]. split.
  - now rewrite split_lines_LF, (single_line_split _ Hone).
  - destruct (stringify_head v Hp) as (c & tl & E & Hc).
    rewrite E in *.
    apply decode_encode_started; [reflexivity|exact Hwf| |].
    + destruct Hc as [-> | [-> | [-> | [-> | [-> | ->]]]]]; reflexivity.
    + destruct Hc as [-> | [-> | [-> | [-> | [-> | ->]]]]]; lia.
Qed.

End Framing.

(* ================================================================== *)
(** * The further properties at work                                   *)
(* ================================================================== *)

Lemma frames0_ok : Forall frame_ok Cases.frames0.
Proof.
  unfold Cases.frames0.
  apply Forall_cons; [|apply Forall_cons; [|apply Forall_cons;
                                             [|apply Forall_nil]]].
  - split; [vm_compute; reflexivity|]. split; [vm_compute; reflexivity|].
    split; [split; intros s [= <-]; apply code_units_ok_check;
            vm_compute; reflexivity|].
    eexists. split; [vm_compute; reflexivity|].
    split; [right; eexists; split; [reflexivity|split; reflexivity]
           |reflexivity].
  - split; [vm_compute; reflexivity|]. split; [vm_compute; reflexivity|].
    split; [split; intros s [= <-]; apply code_units_ok_check;
            vm_compute; reflexivity|].
    eexists. split; [vm_compute; reflexivity|].
    split; [right; eexists; split; [reflexivity|split; reflexivity]
           |reflexivity].
  - split; [vm_compute; reflexivity|]. split; [vm_compute; reflexivity|].
    split; [split; intros s [= <-]; apply code_units_ok_check;
            vm_compute; reflexivity|].
    eexists. split; [vm_compute; reflexivity|].
    split; [right; eexists; split; [reflexivity|split; reflexivity]
           |reflexivity].
Qed.

Lemma home0_can_submit : can_submit Examples.home0 = true.
Proof. vm_compute. reflexivity. Qed.

Lemma events0_ok : Forall event_ok Cases.events0.
Proof.
  unfold Cases.events0.
  repeat (apply Forall_cons;
          [try exact I; split; intros s [= <-]; apply code_units_ok_check;
           vm_compute; reflexivity|]).
  apply Forall_nil.
Qed.

Lemma events1_ok : Forall event_ok Cases.events1.
Proof.
  unfold Cases.events1.
  repeat (apply Forall_cons;
          [split; intros s [= <-]; apply code_units_ok_check;
           vm_compute; reflexivity|]).
  apply Forall_nil.
Qed.

Lemma transcript0_ok :
  Forall (fun m => code_units_ok (Page.content m)) Cases.transcript0.
Proof.
  unfold Cases.transcript0.
  repeat (apply Forall_cons;
          [apply code_units_ok_check; vm_compute; reflexivity|]).
  apply Forall_nil.
Qed.

Lemma home0_sends_ok :
  Forall (fun m => code_units_ok (Page.content m))
         (Page.newMessages Examples.home0).
Proof.
  apply Forall_cons; [|apply Forall_nil].
  apply code_units_ok_check. vm_compute. reflexivity.
Qed.

Lemma chunks0_aligned : line_aligned Cases.chunks0.
Proof.
  unfold line_aligned, Cases.chunks0. cbn [removelast].
  apply Forall_cons; [|apply Forall_nil]. vm_compute. reflexivity.
Qed.

Lemma chunks0_frames0 :
  List.concat Cases.chunks0 = List.concat (map frame_chunk Cases.frames0).
Proof. vm_compute. reflexivity. Qed.

(** ** Text cut inside its characters *)

Lemma text_survives_any_cut_witness :
  chunked (fun text => text) new_TextDecoder Cases.cuts0 = Cases.text0.
Proof.
  assert (well_formed Cases.text0 = true) as H1 by (vm_compute; reflexivity).
  assert (match Cases.text0 with
          | c :: _ => c <> 0xFEFF
          | [] => True
          end) as H2 by (vm_compute; discriminate).
  assert (List.concat Cases.cuts0 = encode Cases.text0) as H3
      by (vm_compute; reflexivity).
  exact (text_survives_any_cut Cases.text0 Cases.cuts0 H1 H2 H3).
Defined.

(** ** Values through [JSON.stringify] and [JSON.parse] *)

Lemma value0_plain : plain Cases.value0.
Proof. apply plain_check_sound. vm_compute. reflexivity. Qed.

Lemma JSON_parse_stringify_witness :
  JSON_parse (stringify Cases.value0) = Some Cases.value0
  /\ JSON_parse ([32] ++ stringify Cases.value0 ++ [13; 10])
     = Some Cases.value0.
Proof.
  exact (JSON_parse_stringify Cases.value0 [32] [13; 10] value0_plain
                              eq_refl eq_refl).
Defined.

Lemma stringify_fits_on_a_line_witness :
  single_line (stringify Cases.value0) = true
  /\ well_formed (stringify Cases.value0) = true
  /\ Str.split_lines (stringify Cases.value0 ++ [10])
     = [stringify Cases.value0; []]
  /\ decode_stream new_TextDecoder (encode (stringify Cases.value0))
     = (mkDecoder utf8_init true, stringify Cases.value0).
Proof. exact (stringify_fits_on_a_line Cases.value0 value0_plain). Defined.

(** ** Requests *)


Lemma transcript_reaches_backend_witness :
  let request :=
    JObject [(js "messages", JArray (map wire_message Cases.transcript0))] in
  JSON_parse (Page.request_body Cases.transcript0) = Some request
  /\ JSON_parse (Route.fetch_body (Route.ollama_init request))
     = Some (JObject [(js "model", JString Route.MODEL);
                      (js "messages",
                       JArray (map wire_message Cases.transcript0));
                      (js "stream", JBool true)])
  /\ Forall (fun m => Get m (js "thinking") = None)
            (map wire_message Cases.transcript0).
Proof. exact (transcript_reaches_backend Cases.transcript0 transcript0_ok). Defined.

(** ** Events read by the page *)

Lemma page_accumulates_fragments_witness :
  let t := Page.read_loop (Page.begin_turn Examples.home0)
                          (map wire_bytes Cases.events0) in
  Page.thinking_var t = List.concat (map event_thinking Cases.events0)
  /\ Page.content_var t = List.concat (map event_content Cases.events0)
  /\ Page.messages (Page.home t)
     = Page.newMessages Examples.home0
       ++ [if existsb is_data Cases.events0
           then {| Page.role := Page.assistant;
                   Page.content :=
                     List.concat (map event_content Cases.events0);
                   Page.thinking :=
                     Some (List.concat (map event_thinking Cases.events0)) |}
           else {| Page.role := Page.assistant;
                   Page.content := [];
                   Page.thinking := None |}]
  /\ List.length (Page.published t)
     = S (List.length (filter is_data Cases.events0)).
Proof. exact (page_accumulates_fragments Examples.home0 Cases.events0 events0_ok). Defined.

(** The same, computed. *)
Example page_accumulates_fragments_computed :
  let t := Page.read_loop (Page.begin_turn Examples.home0)
                          (map wire_bytes Cases.events0) in
  Page.thinking_var t = js "Let me think"
  /\ Page.content_var t = js "Hi!"
  /\ List.length (Page.published t) = 5%nat.
Proof. vm_compute. repeat split. Qed.

(** ** Lines of the backend through the relay to the page *)

Lemma bridge_delivers_fragments_witness :
  let relayed := Route.relay_loop new_TextDecoder Cases.chunks0 in
  let t := Page.read_loop (Page.begin_turn Examples.home0) relayed in
  relayed = map wire_bytes (flat_map frame_events Cases.frames0)
  /\ Page.thinking_var t
     = List.concat (map (fun f => text_of (frame_thinking f)) Cases.frames0)
  /\ Page.content_var t
     = List.concat (map (fun f => text_of (frame_content f)) Cases.frames0)
  /\ draft_thinking (Page.messages (Page.home t)) = Page.thinking_var t
  /\ draft_content (Page.messages (Page.home t)) = Page.content_var t.
Proof.
  exact (bridge_delivers_fragments Examples.home0 Cases.frames0 Cases.chunks0
           frames0_ok chunks0_aligned chunks0_frames0).
Defined.

(** The same, computed: the relay enqueues three events for the three
    lines and the page ends with [Let] and [Hi!]. *)
Example bridge_delivers_fragments_computed :
  let relayed := Route.relay_loop new_TextDecoder Cases.chunks0 in
  let t := Page.read_loop (Page.begin_turn Examples.home0) relayed in
  relayed
  = [encode (jsq "data: {'thinking':'Let','content':''}" ++ [10; 10]);
     encode (jsq "data: {'content':'Hi!'}" ++ [10; 10]);
     encode (js "data: [DONE]" ++ [10; 10])]
  /\ Page.thinking_var t = js "Let"
  /\ Page.content_var t = js "Hi!".
Proof. vm_compute. repeat split. Qed.

Lemma page_reads_relay_output_in_any_grouping_witness :
  let written := Route.relay_loop new_TextDecoder Examples.backend_lines in
  let reads := map (@List.concat Z) Cases.groups0 in
  Forall (fun c => ends_with_LF c = true) written
  /\ Page.stream_payloads (Page.text_decoder Examples.turn0) reads
     = Page.stream_payloads (Page.text_decoder Examples.turn0) written
  /\ Page.thinking_var (Page.read_loop Examples.turn0 reads)
     = Page.thinking_var (Page.read_loop Examples.turn0 written)
  /\ Page.content_var (Page.read_loop Examples.turn0 reads)
     = Page.content_var (Page.read_loop Examples.turn0 written).
Proof.
  assert (decoder_ok (Page.text_decoder Examples.turn0)) as H1
      by (unfold decoder_ok; vm_compute; discriminate).
  assert (Forall (fun g : list bytes => g <> []) Cases.groups0) as H2.
  { apply Forall_cons; [|apply Forall_cons; [|apply Forall_nil]];
      vm_compute; discriminate. }
  assert (List.concat Cases.groups0
          = Route.relay_loop new_TextDecoder Examples.backend_lines) as H3
      by (vm_compute; reflexivity).
  exact (page_reads_relay_output_in_any_grouping
           new_TextDecoder Examples.backend_lines Examples.turn0
           Cases.groups0 H1 H2 H3).
Defined.

(** ** Lines that are skipped *)

Lemma relay_skips_blank_lines_witness :
  Route.relay_text (Examples.whole_frame ++ 10 :: [13] ++ 10
                    :: jsq "{'done':true}")
  = Route.relay_text (Examples.whole_frame ++ 10 :: jsq "{'done':true}").
Proof.
  exact (relay_skips_blank_lines Examples.whole_frame [13]
           (jsq "{'done':true}") eq_refl eq_refl).
Defined.

Lemma page_ignores_other_fields_witness :
  Page.handle_text Examples.turn0
    (Examples.whole_event ++ 10 :: js ": keep-alive" ++ 10
     :: js "data: [DONE]")
  = Page.handle_text Examples.turn0
      (Examples.whole_event ++ 10 :: js "data: [DONE]").
Proof.
  assert (single_line (js ": keep-alive") = true) as H1
      by (vm_compute; reflexivity).
  assert (Str.startsWith (js ": keep-alive") (js "data:") = false) as H2
      by (vm_compute; reflexivity).
  exact (page_ignores_other_fields Examples.turn0 Examples.whole_event
           (js ": keep-alive") (js "data: [DONE]") H1 H2).
Defined.

Lemma payload_padding_is_trimmed_witness :
  Page.decode_line (js "data:" ++ [] ++ jsq "{'content':'Hi'}" ++ [32; 13])
  = Page.decode_line (js "data:" ++ jsq "{'content':'Hi'}").
Proof.
  exact (payload_padding_is_trimmed [] (jsq "{'content':'Hi'}") [32; 13]
           eq_refl eq_refl).
Defined.

(** ** Turns *)

Lemma turn_rewrites_only_the_draft_witness :
  let final := Page.handleSubmit Examples.home0 Cases.broken in
  Forall (one_draft Examples.home0) (Page.published final)
  /\ one_draft Examples.home0 (Page.messages (Page.home final))
  /\ Page.published final <> []
  /\ Page.input (Page.home final) = [].
Proof.
  exact (turn_rewrites_only_the_draft Examples.home0 Cases.broken
           home0_can_submit).
Defined.

Lemma turn_through_the_relay_witness :
  let final :=
    Page.handleSubmit Examples.home0
      (fetch_api_chat Cases.coalesce (Examples.answers Cases.chunks0)) in
  Page.messages (Page.home final)
  = Page.newMessages Examples.home0
    ++ [draft_after (flat_map frame_events Cases.frames0)]
  /\ draft_content (Page.messages (Page.home final))
     = List.concat (map (fun f => text_of (frame_content f)) Cases.frames0)
  /\ draft_thinking (Page.messages (Page.home final))
     = List.concat (map (fun f => text_of (frame_thinking f)) Cases.frames0)
  /\ Page.console final = []
  /\ Page.isLoading (Page.home final) = false.
Proof.
  assert (line_aligned
            (Cases.coalesce
               (Route.relay_loop new_TextDecoder Cases.chunks0))) as H1
      by (unfold line_aligned, Cases.coalesce; cbn [removelast];
          apply Forall_nil).
  assert (List.concat
            (Cases.coalesce (Route.relay_loop new_TextDecoder Cases.chunks0))
          = List.concat (Route.relay_loop new_TextDecoder Cases.chunks0))
    as H2 by (vm_compute; reflexivity).
  exact (turn_through_the_relay Examples.home0 Cases.frames0 Cases.chunks0
           (Examples.answers Cases.chunks0) Cases.coalesce
           home0_can_submit home0_sends_ok
           frames0_ok chunks0_aligned chunks0_frames0 eq_refl H1 H2).
Defined.

(** The same, computed, with the events in one read and with one event
    per read. *)
Example turn_through_the_relay_computed :
  Page.messages
    (Page.home
       (Page.handleSubmit Examples.home0
          (fetch_api_chat Cases.coalesce (Examples.answers Cases.chunks0))))
  = [{| Page.role := Page.user; Page.content := js "hi";
        Page.thinking := None |};
     {| Page.role := Page.assistant; Page.content := js "Hi!";
        Page.thinking := Some (js "Let") |}]
  /\ Page.messages
       (Page.home
          (Page.handleSubmit Examples.home0
             (fetch_api_chat Cases.as_written
                             (Examples.answers Cases.chunks0))))
     = [{| Page.role := Page.user; Page.content := js "hi";
           Page.thinking := None |};
        {| Page.role := Page.assistant; Page.content := js "Hi!";
           Page.thinking := Some (js "Let") |}].
Proof. vm_compute. split; reflexivity. Qed.

Lemma turn_against_a_backend_that_is_down_witness :
  let final :=
    Page.handleSubmit Examples.home0
      (fetch_api_chat Cases.as_written Examples.refuses) in
  Page.messages (Page.home final)
  = Page.newMessages Examples.home0
    ++ [{| Page.role := Page.assistant;
           Page.content := Page.error_marker;
           Page.thinking := None |}]
  /\ Page.console final = [Page.new_Error]
  /\ Page.isLoading (Page.home final) = false.
Proof.
  exact (turn_against_a_backend_that_is_down Examples.home0 Examples.refuses
           Cases.as_written home0_can_submit home0_sends_ok eq_refl).
Defined.

(** ** Screens *)

Lemma screen_is_at_rest_after_a_turn_witness :
  let screen :=
    View.render (Page.home (Page.handleSubmit Examples.home0 Cases.broken))
                Cases.all_open in
  (exists rows, View.message_list screen = View.Rows rows
                /\ Forall View.still rows
                /\ List.length rows
                   = S (List.length (Page.newMessages Examples.home0)))
  /\ View.textarea_value screen = []
  /\ View.textarea_disabled screen = false
  /\ View.button screen = View.SendButton true.
Proof.
  exact (screen_is_at_rest_after_a_turn Examples.home0 Cases.broken
           Cases.all_open home0_can_submit).
Defined.

Lemma screen_follows_the_stream_witness :
  let t := Page.read_loop (Page.begin_turn Examples.home0)
                          (map wire_bytes Cases.events1) in
  let screen := View.render (Page.home t) Cases.all_open in
  let thinking := List.concat (map event_thinking Cases.events1) in
  let content := List.concat (map event_content Cases.events1) in
  let before :=
    View.render_rows false Cases.all_open 0
                     (Page.newMessages Examples.home0) in
  View.message_list screen
  = View.Rows
      (before
       ++ [{| View.justify_end := false;
              View.avatar := true;
              View.thinking_view :=
                View.Thinking thinking
                              (negb (Str.is_empty thinking)
                               && Str.is_empty content)
                              (Cases.all_open
                                 (List.length
                                    (Page.newMessages Examples.home0)));
              View.waiting := Str.is_empty thinking && Str.is_empty content;
              View.markdown := if Str.is_empty content then None
                               else Some content |}])
  /\ Forall View.still before
  /\ View.button screen = View.StopButton
  /\ View.textarea_disabled screen = true.
Proof.
  exact (screen_follows_the_stream Examples.home0 Cases.events1
           Cases.all_open events1_ok).
Defined.

(** The same, computed: the user's bubble, then the draft with its
    thinking block streaming and no content yet. *)
Example screen_follows_the_stream_computed :
  View.message_list
    (View.render
       (Page.home (Page.read_loop (Page.begin_turn Examples.home0)
                                  (map wire_bytes Cases.events1)))
       Cases.all_open)
  = View.Rows
      [{| View.justify_end := true; View.avatar := false;
          View.thinking_view := None; View.waiting := false;
          View.markdown := Some (js "hi") |};
       {| View.justify_end := false; View.avatar := true;
          View.thinking_view :=
            Some {| View.spinner := true;
                    View.title := js "正在思考...";
                    View.chevron_down := true;
                    View.body := Some (js "Let me think", true) |};
          View.waiting := false;
          View.markdown := None |}].
Proof. vm_compute. reflexivity. Qed.

Lemma send_button_matches_the_guard_witness :
  View.button (View.render Cases.blank_home Cases.all_open)
  = View.SendButton true
  /\ Page.home (Page.handleSubmit Cases.blank_home Cases.broken)
     = Cases.blank_home
  /\ Page.published (Page.handleSubmit Cases.blank_home Cases.broken) = [].
Proof.
  pose proof (send_button_matches_the_guard Cases.blank_home Cases.broken
                Cases.all_open) as (_ & Hrefused & Hblank).
  split; [reflexivity|]. exact (Hrefused (Hblank eq_refl)).
Defined.

(** ** Lines that do not parse, and the sentinel, in the loops *)

Lemma before0_ok : Forall event_ok Cases.before0.
Proof.
  unfold Cases.before0.
  apply Forall_cons; [|apply Forall_nil].
  split; intros s [= <-]; apply code_units_ok_check; vm_compute; reflexivity.
Qed.

Lemma after0_ok : Forall event_ok Cases.after0.
Proof.
  unfold Cases.after0.
  repeat (apply Forall_cons;
          [split; intros s [= <-]; apply code_units_ok_check;
           vm_compute; reflexivity|]).
  apply Forall_nil.
Qed.

Lemma frames0_parts_ok :
  Forall frame_ok (firstn 1 Cases.frames0)
  /\ Forall frame_ok (skipn 1 Cases.frames0).
Proof.
  pose proof frames0_ok as H. unfold Cases.frames0 in *.
  cbn [firstn skipn].
  inversion H as [|f1 fs1 H1 H']; subst.
  split; [apply Forall_cons; [exact H1|apply Forall_nil]|exact H'].
Qed.

Lemma truncated_frame_garbage : garbage_ok Examples.truncated_frame.
Proof.
  split; [vm_compute; reflexivity|].
  split; [vm_compute; reflexivity|].
  split; [vm_compute; discriminate|vm_compute; reflexivity].
Qed.

Lemma truncated_payload_refused : payload_refused Cases.truncated_payload.
Proof. repeat split; vm_compute; reflexivity. Qed.

Lemma sentinel_line_is_skipped_witness :
  let t := Page.read_loop (Page.begin_turn Examples.home0)
                          Cases.reads_with_sentinel in
  Page.thinking_var t
  = List.concat (map event_thinking Cases.before0)
    ++ List.concat (map event_thinking Cases.after0)
  /\ Page.content_var t
     = List.concat (map event_content Cases.before0)
       ++ List.concat (map event_content Cases.after0)
  /\ Page.messages (Page.home t)
     = Page.newMessages Examples.home0
       ++ [draft_after (Cases.before0 ++ Cases.after0)].
Proof.
  assert (line_aligned Cases.reads_with_sentinel) as H1.
  { unfold line_aligned, Cases.reads_with_sentinel. cbn [removelast].
    apply Forall_cons; [|apply Forall_nil]. vm_compute. reflexivity. }
  assert (List.concat Cases.reads_with_sentinel
          = List.concat (map wire_bytes
                           (Cases.before0 ++ Done :: Cases.after0))) as H2
      by (vm_compute; reflexivity).
  exact (proj1 (sentinel_line_is_skipped Examples.home0 Cases.before0
                  Cases.after0 Cases.reads_with_sentinel
                  before0_ok after0_ok H1 H2)).
Defined.

(** The same, computed: the content that arrives after the sentinel is
    in the draft. *)
Example sentinel_line_is_skipped_computed :
  Page.messages
    (Page.home (Page.read_loop (Page.begin_turn Examples.home0)
                               Cases.reads_with_sentinel))
  = [{| Page.role := Page.user; Page.content := js "hi";
        Page.thinking := None |};
     {| Page.role := Page.assistant; Page.content := js "Hi!";
        Page.thinking := Some (js "Let") |}].
Proof. vm_compute. reflexivity. Qed.

Lemma malformed_line_is_skipped_witness :
  Route.relay_loop new_TextDecoder Cases.chunks_with_garbage
  = map wire_bytes
      (flat_map frame_events
                (firstn 1 Cases.frames0 ++ skipn 1 Cases.frames0))
  /\ (let t := Page.read_loop (Page.begin_turn Examples.home0)
                              Cases.reads_with_garbage in
      Page.thinking_var t
      = List.concat (map event_thinking Cases.before0)
        ++ List.concat (map event_thinking Cases.after0)
      /\ Page.content_var t
         = List.concat (map event_content Cases.before0)
           ++ List.concat (map event_content Cases.after0)
      /\ Page.messages (Page.home t)
         = Page.newMessages Examples.home0
           ++ [draft_after (Cases.before0 ++ Cases.after0)]
      /\ Page.console t = []).
Proof.
  assert (line_aligned Cases.chunks_with_garbage) as H1.
  { unfold line_aligned, Cases.chunks_with_garbage. cbn [removelast].
    apply Forall_cons; [|apply Forall_nil]. vm_compute. reflexivity. }
  assert (List.concat Cases.chunks_with_garbage
          = List.concat
              (map frame_chunk (firstn 1 Cases.frames0)
               ++ encode (Examples.truncated_frame ++ [10])
                  :: map frame_chunk (skipn 1 Cases.frames0))) as H2
      by (vm_compute; reflexivity).
  assert (line_aligned Cases.reads_with_garbage) as H3.
  { unfold line_aligned, Cases.reads_with_garbage. cbn [removelast].
    apply Forall_cons; [|apply Forall_nil]. vm_compute. reflexivity. }
  assert (List.concat Cases.reads_with_garbage
          = List.concat
              (map wire_bytes Cases.before0
               ++ data_event Cases.truncated_payload
                  :: map wire_bytes Cases.after0)) as H4
      by (vm_compute; reflexivity).
  pose proof (malformed_line_is_skipped
                (firstn 1 Cases.frames0) (skipn 1 Cases.frames0)
                Examples.truncated_frame Cases.chunks_with_garbage
                Examples.home0 Cases.before0 Cases.after0
                Cases.truncated_payload Cases.reads_with_garbage)
    as (Wrelay & Wpage & _).
  split.
  - exact (Wrelay (proj1 frames0_parts_ok) truncated_frame_garbage
                  (proj2 frames0_parts_ok) H1 H2).
  - exact (Wpage before0_ok truncated_payload_refused after0_ok H3 H4).
Defined.

(** The same, computed: the relay enqueues the three events of the
    three whole lines, and the page ends with [Let] and [Hi!]. *)
Example malformed_line_is_skipped_computed :
  Route.relay_loop new_TextDecoder Cases.chunks_with_garbage
  = [encode (jsq "data: {'thinking':'Let','content':''}" ++ [10; 10]);
     encode (jsq "data: {'content':'Hi!'}" ++ [10; 10]);
     encode (js "data: [DONE]" ++ [10; 10])]
  /\ Page.messages
       (Page.home (Page.read_loop (Page.begin_turn Examples.home0)
                                  Cases.reads_with_garbage))
     = [{| Page.role := Page.user; Page.content := js "hi";
           Page.thinking := None |};
        {| Page.role := Page.assistant; Page.content := js "Hi!";
           Page.thinking := Some (js "Let") |}].
Proof. vm_compute. split; reflexivity. Qed.
